(** * Batch-result reconciliation and merge: a shallow embedding

    The development embeds the reconciliation core of the dataset
    utilities: the identifier codec ([extract_line_number_from_custom_id]
    and the [custom_id] builder), the payload extractor
    ([extract_text_from_result], three variants), the stream loader
    ([load_batch_results]), the mismatch analysis ([analyze_file_entries],
    [find_mismatches], [find_gaps_and_ranges]) and the merge writer
    ([create_single_merged_file], two variants).  It further embeds the
    batch creator ([sanitize_custom_id], [create_batch_for_field],
    [process_file]), the scans of the result directories and the pattern
    analysis of the complete run.

    Conventions.
    - A Python [str] is a list of characters; a character is a code point
      below 256, so the model covers Latin-1 text.  On that range the
      classes [\s] / [str.isspace] and [\d] are the ones given by
      [isspace] and [isdigit] below.
    - A Python [int] is a [Z].
    - A decoded JSON line is a [json] tree; a Python [dict] decoded from
      JSON is an association list with distinct keys in insertion order.
    - Exceptions are explicit: a computation that may raise returns an
      [outcome]. *)

From Stdlib Require Import ZArith List Ascii String Lia.
From stdpp Require Import gmap sorting list.

Local Open Scope Z_scope.
Set Warnings "-register-all,-clear-no-such-hyp".

(** ** Python strings *)

Module Py.

Abbreviation str := (list ascii).

(** A literal, written as a Rocq string. *)
Definition lit (s : string) : str := list_ascii_of_string s.

Definition code (c : ascii) : N := N_of_ascii c.

Definition char_eqb (a b : ascii) : bool := Ascii.eqb a b.

(** [str.isspace] on one character, which is also the class [\s]. *)
Definition isspace (c : ascii) : bool :=
  let n := code c in
  ((9 <=? n) && (n <=? 13) || (28 <=? n) && (n <=? 32)
   || (n =? 133) || (n =? 160))%N.

(** The class [\d]. *)
Definition isdigit (c : ascii) : bool :=
  let n := code c in ((48 <=? n) && (n <=? 57))%N.

Definition newline : ascii := ascii_of_N 10.

Fixpoint lstrip (s : str) : str :=
  match s with
  | c :: s' => if isspace c then lstrip s' else s
  | [] => []
  end.

Definition rstrip (s : str) : str := rev (lstrip (rev s)).

(** [s.strip()] *)
Definition strip (s : str) : str := rstrip (lstrip s).

(** [s.startswith(p)]; on success the text after the prefix. *)
Fixpoint strip_prefix (p s : str) : option str :=
  match p, s with
  | [], _ => Some s
  | a :: p', b :: s' => if char_eqb a b then strip_prefix p' s' else None
  | _ :: _, [] => None
  end.

Definition startswith (s p : str) : bool :=
  match strip_prefix p s with Some _ => true | None => false end.

(** [p in s] for two strings: [p] occurs in [s]. *)
Fixpoint contains (p s : str) : bool :=
  startswith s p || match s with [] => false | _ :: s' => contains p s' end.

Definition str_eqb (a b : str) : bool :=
  bool_decide (a = b).

(** The longest prefix of characters satisfying [f], and the rest. *)
Fixpoint span (f : ascii -> bool) (s : str) : str * str :=
  match s with
  | c :: s' => if f c then let (a, b) := span f s' in (c :: a, b) else ([], s)
  | [] => ([], [])
  end.

(** *** Decimal numerals *)

Definition digit_val (c : ascii) : Z := Z.of_N (code c) - 48.

(** [int(s)] for a string of decimal digits.  Integers are unbounded; the
    limit that recent interpreters put on the length of a numeral is not
    modelled. *)
Definition int_of_digits (s : str) : Z :=
  fold_left (fun acc c => 10 * acc + digit_val c) s 0.

Definition digit_char (d : Z) : ascii := ascii_of_N (Z.to_N (48 + d)).

(** The decimal digits of [n], most significant first; [fuel] bounds the
    number of digits, and the number of binary digits is enough. *)
Fixpoint digits_aux (fuel : nat) (n : Z) (acc : str) : str :=
  match fuel with
  | O => acc
  | S fuel' =>
      let acc' := digit_char (n mod 10) :: acc in
      if n <? 10 then acc' else digits_aux fuel' (n / 10) acc'
  end.

(** [str(n)], as an f-string renders an [int]. *)
Definition str_of_int (n : Z) : str :=
  if n <? 0 then lit "-" ++ digits_aux (S (Z.to_nat (Z.log2 (- n)))) (- n) []
  else digits_aux (S (Z.to_nat (Z.log2 n))) n [].

(** ** Exceptions *)

Inductive exn : Type :=
| TypeError
| AttributeError
| KeyError
| IndexError
| JSONDecodeError
| ValueError
| RecursionError.

(** [JSONDecodeError] derives from [ValueError]. *)
Definition is_ValueError (e : exn) : bool :=
  match e with JSONDecodeError | ValueError => true | _ => false end.

Definition is_AttributeError (e : exn) : bool :=
  match e with AttributeError => true | _ => false end.

Definition is_JSONDecodeError (e : exn) : bool :=
  match e with JSONDecodeError => true | _ => false end.

Inductive outcome (A : Type) : Type :=
| Return (a : A)
| Raise (e : exn).
Arguments Return {A} a.
Arguments Raise {A} e.

Definition bind {A B} (m : outcome A) (k : A -> outcome B) : outcome B :=
  match m with
  | Return a => k a
  | Raise e => Raise e
  end.

(** [try: m except <handled>: h e] *)
Definition try_except {A} (m : outcome A) (handled : exn -> bool)
    (h : exn -> outcome A) : outcome A :=
  match m with
  | Return a => Return a
  | Raise e => if handled e then h e else Raise e
  end.

(** Every exception of the model derives from [Exception]. *)
Definition is_Exception (e : exn) : bool := true.

(** ** Decoded JSON values *)

Inductive json : Type :=
| JNull
| JBool (b : bool)
| JInt (n : Z)
| JFloat (is_zero : bool)  (* a float; the code only observes whether it is 0.0 *)
| JStr (s : str)
| JArr (items : list json)
| JObj (fields : list (str * json)).

(** [d.get(k)] on the association list of a [dict]. *)
Fixpoint lookup_key (k : str) (d : list (str * json)) : option json :=
  match d with
  | [] => None
  | (k', v) :: d' => if str_eqb k k' then Some v else lookup_key k d'
  end.

(** [bool(v)] *)
Definition truthy (v : json) : bool :=
  match v with
  | JNull => false
  | JBool b => b
  | JInt n => negb (n =? 0)
  | JFloat z => negb z
  | JStr s => match s with [] => false | _ => true end
  | JArr l => match l with [] => false | _ => true end
  | JObj d => match d with [] => false | _ => true end
  end.

Definition is_str_equal (k : str) (v : json) : bool :=
  match v with JStr s => str_eqb k s | _ => false end.

(** [k in v] for a string [k]: key test on a dict, element test on a list,
    substring test on a string, [TypeError] on anything else. *)
Definition py_in (k : str) (v : json) : outcome bool :=
  match v with
  | JObj d => Return (match lookup_key k d with Some _ => true | None => false end)
  | JArr l => Return (existsb (is_str_equal k) l)
  | JStr s => Return (contains k s)
  | _ => Raise TypeError
  end.

(** [v[k]] for a string [k]. *)
Definition getitem (v : json) (k : str) : outcome json :=
  match v with
  | JObj d => match lookup_key k d with Some x => Return x | None => Raise KeyError end
  | _ => Raise TypeError
  end.

(** [v[0]] *)
Definition getitem0 (v : json) : outcome json :=
  match v with
  | JArr (x :: _) => Return x
  | JArr [] => Raise IndexError
  | JStr (c :: _) => Return (JStr [c])
  | JStr [] => Raise IndexError
  | JObj _ => Raise KeyError
  | _ => Raise TypeError
  end.

(** [len(v)] *)
Definition len (v : json) : outcome Z :=
  match v with
  | JArr l => Return (Z.of_nat (length l))
  | JStr s => Return (Z.of_nat (length s))
  | JObj d => Return (Z.of_nat (length d))
  | _ => Raise TypeError
  end.

Definition is_list (v : json) : bool :=
  match v with JArr _ => true | _ => false end.

Definition is_dict (v : json) : bool :=
  match v with JObj _ => true | _ => false end.

(** [v.strip()]: only a string has the method. *)
Definition strip_method (v : json) : outcome str :=
  match v with
  | JStr s => Return (strip s)
  | _ => Raise AttributeError
  end.

(** [k in v and v[k]], as a truth value: the second operand is only
    evaluated when the first holds. *)
Definition has_truthy (k : str) (v : json) : outcome bool :=
  bind (py_in k v) (fun b =>
  if b then bind (getitem v k) (fun x => Return (truthy x)) else Return false).

(** The part of the interpreter that the scripts call and that is not
    theirs: [json.loads] on a string, and [str(e)] on a caught exception.
    [json.loads] returns the decoded value or raises: [JSONDecodeError] on
    a text that is not JSON, and other exceptions on some texts, such as
    [RecursionError] on a nesting that is too deep for the interpreter and
    [ValueError] on an integer of more digits than it converts.  The
    message [str(e)] depends on the place of the [raise] and on the
    version of the interpreter; the development does not fix it. *)
Class Runtime : Type := {
  json_loads : str -> outcome json;
  exn_str : exn -> str
}.

(** [json.loads(s)] *)
Definition loads `{Runtime} (s : str) : outcome json := json_loads s.

End Py.

Import Py.

Notation "x <- c ;; k" := (Py.bind c (fun x => k))
  (at level 100, c at next level, right associativity).

(** ** The regular expressions of the scripts

    Each pattern of the source is embedded as the backtracking search
    [re.search] performs for it: the leftmost start position wins, a greedy
    repetition gives back characters one at a time, a lazy group grows one
    character at a time. *)

Module Re.

(** The text before the first occurrence of [close] in [s]: what the lazy
    group [(.*?)] captures in front of the literal [close]. *)
Fixpoint lazy_until (close s : str) : option str :=
  if startswith s close then Some []
  else match s with
       | [] => None
       | c :: s' => option_map (cons c) (lazy_until close s')
       end.

(** [\s*\n(.*?)close] from the start of [s].  The greedy [\s*] first takes
    the whitespace character in front and only when the rest cannot match
    gives it back, in which case that character has to be the newline. *)
Fixpoint ws_newline_group (close s : str) : option str :=
  match s with
  | [] => None
  | c :: s' =>
      if isspace c then
        match ws_newline_group close s' with
        | Some g => Some g
        | None => if char_eqb c newline then lazy_until close s' else None
        end
      else None
  end.

(** Leftmost match of a pattern given by its matcher at a position. *)
Fixpoint search (match_here : str -> option str) (s : str) : option str :=
  match match_here s with
  | Some g => Some g
  | None => match s with
            | [] => None
            | _ :: s' => search match_here s'
            end
  end.

Definition first_of (a b : option str) : option str :=
  match a with Some _ => a | None => b end.

(** [```json\s*\n(.*?)\n```] with [re.DOTALL]; the result is group 1. *)
Definition fence3_here (s : str) : option str :=
  match strip_prefix (lit "```json") s with
  | Some r => ws_newline_group (newline :: lit "```") r
  | None => None
  end.

Definition search_fence3 : str -> option str := search fence3_here.

(** [```?json\s*\n(.*?)\n```?] with [re.DOTALL]; the result is group 1.
    The optional third backquote of the opening fence is tried first; the
    optional one of the closing fence does not change the group. *)
Definition fence2_here (s : str) : option str :=
  match strip_prefix (lit "``") s with
  | Some r =>
      first_of
        match strip_prefix (lit "`json") r with
        | Some r' => ws_newline_group (newline :: lit "``") r'
        | None => None
        end
        match strip_prefix (lit "json") r with
        | Some r' => ws_newline_group (newline :: lit "``") r'
        | None => None
        end
  | None => None
  end.

Definition search_fence2 : str -> option str := search fence2_here.

(** [$] without [re.MULTILINE]: the end of the string, or the position in
    front of a newline that ends the string. *)
Definition at_end (s : str) : bool :=
  match s with
  | [] => true
  | [c] => char_eqb c newline
  | _ => false
  end.

(** [prefix(\d+)$] at the start of [s]; the result is group 1.  The greedy
    [\d+] takes the whole run of digits: giving one back leaves a digit in
    front of [$], which then cannot match. *)
Definition digits_suffix_here (prefix s : str) : option str :=
  match strip_prefix prefix s with
  | Some r =>
      let (ds, rest) := span isdigit r in
      match ds with
      | [] => None
      | _ => if at_end rest then Some ds else None
      end
  | None => None
  end.

Definition search_digits_suffix (prefix : str) : str -> option str :=
  search (digits_suffix_here prefix).

End Re.

(** ** Identifier codec *)

(** [batch_processWithInput.py]: the identifier of one request. *)
Module BatchProcessWithInput.

(** [f"{original_safe_name}_{field_name}_line_{global_idx}"] *)
Definition custom_id (original_safe_name field_name : str) (global_idx : Z) : str :=
  original_safe_name ++ lit "_" ++ field_name ++ lit "_line_" ++ str_of_int global_idx.

End BatchProcessWithInput.

(** The three decoders share their shape: the patterns are tried in order
    and the first match decides; [int] of a run of digits cannot fail, so
    the handler for [ValueError] and [AttributeError] is never entered, and
    the [TypeError] of [re.search] on a non-string is not handled. *)
Fixpoint first_pattern (patterns : list str) (s : str) : option Z :=
  match patterns with
  | [] => None
  | p :: ps =>
      match Re.search_digits_suffix p s with
      | Some ds => Some (int_of_digits ds)
      | None => first_pattern ps s
      end
  end.

Definition decode_with (patterns : list str) (custom_id : json) : outcome (option Z) :=
  match custom_id with
  | JStr s => Return (first_pattern patterns s)
  | _ => Raise TypeError
  end.

(** ** Payload extractor *)

Module Extract.

(** [isinstance(parsed_json, dict) and 'text' in parsed_json], and then
    [return parsed_json['text'].strip()]: [Some] is the returned text, [None]
    means the test failed and control goes on. *)
Definition text_field (parsed_json : json) : outcome (option str) :=
  if is_dict parsed_json then
    b <- py_in (lit "text") parsed_json;;
    if b then
      v <- getitem parsed_json (lit "text");;
      s <- strip_method v;;
      Return (Some s)
    else Return None
  else Return None.

(** The inner [try] block on [text_content], with its handler and the
    [return text_content.strip()] that follows it.  [find] is the search for
    the fenced block and [clean] prepares the text for the second
    [json.loads].  [re.search] raises [TypeError] on anything but a
    string. *)
Definition parse_text `{Runtime} (find : str -> option str) (clean : str -> str)
    (text_content : json) : outcome str :=
  match text_content with
  | JStr t =>
      r <- try_except
             (r1 <- match find t with
                    | Some g =>
                        parsed_json <- loads (strip g);;
                        text_field parsed_json
                    | None => Return None
                    end;;
              match r1 with
              | Some s => Return (Some s)
              | None =>
                  parsed_json <- loads (clean t);;
                  text_field parsed_json
              end)
             is_JSONDecodeError
             (fun _ => Return (Some (strip t)));;
      match r with
      | Some s => Return s
      | None => Return (strip t)
      end
  | _ => Raise TypeError
  end.

(** The message-batch wrapper, [result.message.content[0].text]: [Some] is
    the returned text, [None] means that some test failed and control
    reaches the end of the block. *)
Definition shape_B `{Runtime} (result_entry : json) : outcome (option str) :=
  b <- has_truthy (lit "result") result_entry;;
  if negb b then Return None else
  result_data <- getitem result_entry (lit "result");;
  b <- has_truthy (lit "message") result_data;;
  if negb b then Return None else
  message <- getitem result_data (lit "message");;
  b <- has_truthy (lit "content") message;;
  if negb b then Return None else
  content <- getitem message (lit "content");;
  if negb (is_list content) then Return None else
  n <- len content;;
  if negb (0 <? n) then Return None else
  first_content <- getitem0 content;;
  if negb (is_dict first_content) then Return None else
  b <- py_in (lit "text") first_content;;
  if negb b then Return None else
  text_content <- getitem first_content (lit "text");;
  s <- parse_text Re.search_fence3 (fun t => t) text_content;;
  Return (Some s).

(** [cleaned_content]: the stripped text without a leading ["json\n"]. *)
Definition cleaned_content (t : str) : str :=
  let c := strip t in
  if startswith c (lit "json" ++ [newline]) then skipn 5 c else c.

(** [k in v and v[k] and len(v[k]) > 0] *)
Definition has_nonempty (k : str) (v : json) : outcome bool :=
  b <- has_truthy k v;;
  if negb b then Return false else
  x <- getitem v k;;
  n <- len x;;
  Return (0 <? n).

(** The chat-completion wrapper,
    [response.body.choices[0].message.content]. *)
Definition shape_A `{Runtime} (result_entry : json) : outcome (option str) :=
  b <- has_truthy (lit "response") result_entry;;
  if negb b then Return None else
  response_data <- getitem result_entry (lit "response");;
  b <- has_truthy (lit "body") response_data;;
  if negb b then Return None else
  body <- getitem response_data (lit "body");;
  b <- has_nonempty (lit "choices") body;;
  if negb b then Return None else
  choices <- getitem body (lit "choices");;
  choice <- getitem0 choices;;
  b <- has_truthy (lit "message") choice;;
  if negb b then Return None else
  message <- getitem choice (lit "message");;
  b <- has_truthy (lit "content") message;;
  if negb b then Return None else
  text_content <- getitem message (lit "content");;
  s <- parse_text Re.search_fence2 cleaned_content text_content;;
  Return (Some s).

(** The end of the outer [try] block: [return ""]. *)
Definition or_empty (r : option str) : str :=
  match r with Some s => s | None => [] end.

End Extract.

(** ** The stream loader, shared by the three scripts *)

(** A results file: [None] when the path does not exist, else its lines. *)
Definition file : Type := option (list str).

(** The loop over the lines of the file: a blank line is passed over, and
    so is a line on which [json.loads] raises [JSONDecodeError]; any other
    exception leaves the loop. *)
Fixpoint load_lines `{Runtime} (lines : list str) (results : list json)
    : outcome (list json) :=
  match lines with
  | [] => Return results
  | line :: rest =>
      let line := strip line in
      match line with
      | [] => load_lines rest results
      | _ =>
          results' <- try_except
                        (result <- loads line;; Return (results ++ [result]))
                        is_JSONDecodeError
                        (fun _ => Return results);;
          load_lines rest results'
      end
  end.

(** The outer handler, [except Exception: return []], discards what the
    loop has collected; every exception of the model derives from
    [Exception], so nothing is raised further. *)
Definition load_batch_results `{Runtime} (f : file) : list json :=
  match f with
  | None => []
  | Some lines =>
      match load_lines lines [] with
      | Return results => results
      | Raise _ => []
      end
  end.

(** [result.get('custom_id', default)]: only a dict has the method. *)
Definition get_custom_id (result : json) (default : str) : outcome json :=
  match result with
  | JObj d => Return (match lookup_key (lit "custom_id") d with
                      | Some v => v
                      | None => JStr default
                      end)
  | _ => Raise AttributeError
  end.

(** [sorted] on integers. *)
Definition sorted (l : list Z) : list Z := merge_sort Z.le l.

(** The loading loops of the two mergers are the same text up to the
    decoder and the extractor they call. *)
Section Loading.

Context `{Runtime}.
Variable decode : json -> outcome (option Z).
Variable extract : json -> outcome str.

(** The loop over the results of one file. *)
Fixpoint load_results_with (results : list json) (all : gmap Z str)
    : outcome (gmap Z str) :=
  match results with
  | [] => Return all
  | result :: rest =>
      custom_id <- get_custom_id result [];;
      line_num <- decode custom_id;;
      match line_num with
      | Some n =>
          text <- extract result;;
          load_results_with rest (<[n := text]> all)
      | None => load_results_with rest all
      end
  end.

(** The loop over the files of one field. *)
Fixpoint load_field_with (files : list file) (all : gmap Z str)
    : outcome (gmap Z str) :=
  match files with
  | [] => Return all
  | f :: rest =>
      all' <- load_results_with (load_batch_results f) all;;
      load_field_with rest all'
  end.

End Loading.

(** A merged record: the dict with the keys [instruction], [input] and
    [output], in that order. *)
Definition merged_entry : Type := list (str * str).

Definition make_entry (instruction input output : str) : merged_entry :=
  [(lit "instruction", instruction); (lit "input", input); (lit "output", output)].

(** [d[k]] on a dict keyed by line number. *)
Definition at_line (d : gmap Z str) (line_num : Z) : outcome str :=
  match d !! line_num with
  | Some s => Return s
  | None => Raise KeyError
  end.

(** ** [merged_results.py]: three result streams *)

Module MergedResults.

Definition extract_text_from_result `{Runtime} (result_entry : json) : outcome str :=
  try_except
    (r <- Extract.shape_B result_entry;; Return (Extract.or_empty r))
    is_Exception
    (fun _ => Return []).

Definition extract_line_number_from_custom_id (custom_id : json) : outcome (option Z) :=
  try_except
    (decode_with [lit "_line_"] custom_id)
    (fun e => is_ValueError e || is_AttributeError e)
    (fun _ => Return None).

Definition load_results `{Runtime} : list json -> gmap Z str -> outcome (gmap Z str) :=
  load_results_with extract_line_number_from_custom_id extract_text_from_result.

Definition load_field `{Runtime} : list file -> gmap Z str -> outcome (gmap Z str) :=
  load_field_with extract_line_number_from_custom_id extract_text_from_result.

Definition common_lines (instruction input output : gmap Z str) : gset Z :=
  dom instruction ∩ dom input ∩ dom output.

Fixpoint merged_results (lines : list Z) (instruction input output : gmap Z str)
    : outcome (list merged_entry) :=
  match lines with
  | [] => Return []
  | line_num :: rest =>
      a <- at_line instruction line_num;;
      b <- at_line input line_num;;
      c <- at_line output line_num;;
      entries <- merged_results rest instruction input output;;
      Return (make_entry a b c :: entries)
  end.

(** From the three loaded dicts to the entries written, one per line of the
    output file; [None] when the function returns without writing. *)
Definition merge (instruction input output : gmap Z str)
    : outcome (option (list merged_entry)) :=
  let common := common_lines instruction input output in
  if decide (common = ∅) then Return None
  else
    entries <- merged_results (sorted (elements common)) instruction input output;;
    Return (Some entries).

(** What the function reads: the batch numbers found in the instruction
    directory, and for each field the results file of a batch number. *)
Record results_dirs : Type := {
  found_batches : list Z;
  instruction_file : Z -> file;
  input_file : Z -> file;
  output_file : Z -> file
}.

Definition create_single_merged_file `{Runtime} (d : results_dirs)
    : outcome (option (list merged_entry)) :=
  match found_batches d with
  | [] => Return None
  | _ =>
      let available_batches := sorted (found_batches d) in
      i <- load_field (map (instruction_file d) available_batches) ∅;;
      n <- load_field (map (input_file d) available_batches) ∅;;
      o <- load_field (map (output_file d) available_batches) ∅;;
      merge i n o
  end.

End MergedResults.

(** ** [instructOutput.py]: two result streams and an empty input *)

Module InstructOutput.

Definition extract_text_from_result `{Runtime} (result_entry : json) : outcome str :=
  try_except
    (r <- Extract.shape_A result_entry;;
     match r with
     | Some s => Return s
     | None => r' <- Extract.shape_B result_entry;; Return (Extract.or_empty r')
     end)
    is_Exception
    (fun _ => Return []).

Definition extract_line_number_from_custom_id (custom_id : json) : outcome (option Z) :=
  try_except
    (decode_with [lit "_line_"; lit "alpaca_data_line_"; lit "line_"] custom_id)
    (fun e => is_ValueError e || is_AttributeError e)
    (fun _ => Return None).

Definition load_results `{Runtime} : list json -> gmap Z str -> outcome (gmap Z str) :=
  load_results_with extract_line_number_from_custom_id extract_text_from_result.

Definition load_field `{Runtime} : list file -> gmap Z str -> outcome (gmap Z str) :=
  load_field_with extract_line_number_from_custom_id extract_text_from_result.

Definition common_lines (instruction output : gmap Z str) : gset Z :=
  dom instruction ∩ dom output.

Fixpoint merged_results (lines : list Z) (instruction output : gmap Z str)
    : outcome (list merged_entry) :=
  match lines with
  | [] => Return []
  | line_num :: rest =>
      a <- at_line instruction line_num;;
      c <- at_line output line_num;;
      entries <- merged_results rest instruction output;;
      Return (make_entry a [] c :: entries)
  end.

Definition merge (instruction output : gmap Z str)
    : outcome (option (list merged_entry)) :=
  let common := common_lines instruction output in
  if decide (common = ∅) then Return None
  else
    entries <- merged_results (sorted (elements common)) instruction output;;
    Return (Some entries).

(** A directory: [None] when it does not exist, else its [.jsonl] files in
    the order of their sorted names. *)
Definition directory : Type := option (list file).

Definition create_single_merged_file `{Runtime} (instruction_dir output_dir : directory)
    : outcome (option (list merged_entry)) :=
  match instruction_dir, output_dir with
  | None, _ => Return None
  | _, None => Return None
  | Some instruction_files, Some output_files =>
      match instruction_files, output_files with
      | [], _ => Return None
      | _, [] => Return None
      | _, _ =>
          i <- load_field instruction_files ∅;;
          o <- load_field output_files ∅;;
          merge i o
      end
  end.

End InstructOutput.

(** ** [mismatch.py]: the mismatch finder *)

Module Mismatch.

Definition error_prefix : str := lit "ERROR_EXTRACTING".

Definition extract_text_from_result `{Runtime} (result_entry : json) : outcome str :=
  try_except
    (r <- Extract.shape_A result_entry;; Return (Extract.or_empty r))
    is_Exception
    (fun e => Return (error_prefix ++ lit ": " ++ exn_str e)).

Definition patterns : list str :=
  [lit "_line_"; lit "alpaca_data_line_"; lit "line_"; lit "data_line_"].

Definition extract_line_number_from_custom_id (custom_id : json) : outcome (option Z) :=
  try_except
    (decode_with patterns custom_id)
    (fun e => is_ValueError e || is_AttributeError e)
    (fun _ => Return None).

Record entry_info : Type := {
  ei_custom_id : json;
  ei_extracted_text : str;
  ei_text_length : Z;
  ei_entry_index : Z
}.

Record error_entry : Type := {
  ee_custom_id : json;
  ee_line_num : option Z;
  ee_error : str
}.

(** The [analysis] dict; its two labels, the path and the type of the
    file, are left out. *)
Record analysis : Type := {
  total_entries : Z;
  line_numbers : gset Z;
  custom_ids : list json;
  successful_extractions : Z;
  failed_extractions : Z;
  empty_extractions : Z;
  error_entries : list error_entry;
  duplicate_line_numbers : list (Z * Z);
  entries_by_line : gmap Z entry_info
}.

(** [line_number_counts[line_num] += 1] on a [defaultdict(int)], which
    keeps its keys in the order of their first insertion. *)
Fixpoint count_up (line_num : Z) (counts : list (Z * Z)) : list (Z * Z) :=
  match counts with
  | [] => [(line_num, 1)]
  | (k, c) :: rest =>
      if k =? line_num then (k, c + 1) :: rest
      else (k, c) :: count_up line_num rest
  end.

(** The three calls at the head of the loop body, each of which may
    raise. *)
Record observation : Type := {
  ob_custom_id : json;
  ob_line_num : option Z;
  ob_text : str
}.

Definition observe `{Runtime} (i : Z) (result : json) : outcome observation :=
  custom_id <- get_custom_id result (lit "unknown_" ++ str_of_int i);;
  line_num <- extract_line_number_from_custom_id custom_id;;
  extracted_text <- extract_text_from_result result;;
  Return {| ob_custom_id := custom_id;
            ob_line_num := line_num;
            ob_text := extracted_text |}.

Definition is_failed (extracted_text : str) : bool :=
  startswith extracted_text error_prefix.

(** [not extracted_text or extracted_text.strip() == ''] *)
Definition is_blank (extracted_text : str) : bool :=
  match extracted_text with
  | [] => true
  | _ => str_eqb (strip extracted_text) []
  end.

(** The rest of the loop body: the updates of [analysis] and of
    [line_number_counts]. *)
Definition record_entry (i : Z) (o : observation)
    (st : analysis * list (Z * Z)) : analysis * list (Z * Z) :=
  let (a, counts) := st in
  let custom_id := ob_custom_id o in
  let extracted_text := ob_text o in
  let ids := custom_ids a ++ [custom_id] in
  let '(lines, counts, by_line) :=
    match ob_line_num o with
    | Some n =>
        ({[n]} ∪ line_numbers a,
         count_up n counts,
         <[n := {| ei_custom_id := custom_id;
                   ei_extracted_text := extracted_text;
                   ei_text_length := Z.of_nat (length extracted_text);
                   ei_entry_index := i |}]> (entries_by_line a))
    | None => (line_numbers a, counts, entries_by_line a)
    end in
  let failed := is_failed extracted_text in
  let empty := is_blank extracted_text in
  ({| total_entries := total_entries a;
      line_numbers := lines;
      custom_ids := ids;
      successful_extractions :=
        if failed then successful_extractions a
        else if empty then successful_extractions a
        else successful_extractions a + 1;
      failed_extractions :=
        if failed then failed_extractions a + 1 else failed_extractions a;
      empty_extractions :=
        if failed then empty_extractions a
        else if empty then empty_extractions a + 1
        else empty_extractions a;
      error_entries :=
        if failed then
          error_entries a ++ [{| ee_custom_id := custom_id;
                                 ee_line_num := ob_line_num o;
                                 ee_error := extracted_text |}]
        else error_entries a;
      duplicate_line_numbers := duplicate_line_numbers a;
      entries_by_line := by_line |},
   counts).

(** One pass of the loop body over entry [i]. *)
Definition analyze_entry `{Runtime} (i : Z) (result : json)
    (st : analysis * list (Z * Z)) : outcome (analysis * list (Z * Z)) :=
  o <- observe i result;;
  Return (record_entry i o st).

Fixpoint analyze_loop `{Runtime} (i : Z) (results : list json)
    (st : analysis * list (Z * Z)) : outcome (analysis * list (Z * Z)) :=
  match results with
  | [] => Return st
  | result :: rest =>
      st' <- analyze_entry i result st;;
      analyze_loop (i + 1) rest st'
  end.

Definition initial_analysis (results : list json) : analysis :=
  {| total_entries := Z.of_nat (length results);
     line_numbers := ∅;
     custom_ids := [];
     successful_extractions := 0;
     failed_extractions := 0;
     empty_extractions := 0;
     error_entries := [];
     duplicate_line_numbers := [];
     entries_by_line := ∅ |}.

(** The final loop: the line numbers counted more than once. *)
Definition find_duplicates (counts : list (Z * Z)) : list (Z * Z) :=
  filter (fun kc => 1 < kc.2) counts.

Definition with_duplicates (a : analysis) (dups : list (Z * Z)) : analysis :=
  {| total_entries := total_entries a;
     line_numbers := line_numbers a;
     custom_ids := custom_ids a;
     successful_extractions := successful_extractions a;
     failed_extractions := failed_extractions a;
     empty_extractions := empty_extractions a;
     error_entries := error_entries a;
     duplicate_line_numbers := duplicate_line_numbers a ++ dups;
     entries_by_line := entries_by_line a |}.

Definition analyze_results `{Runtime} (results : list json) : outcome analysis :=
  st <- analyze_loop 0 results (initial_analysis results, []);;
  Return (with_duplicates st.1 (find_duplicates st.2)).

Definition analyze_file_entries `{Runtime} (f : file) : outcome analysis :=
  analyze_results (load_batch_results f).

(** The loop over the files of one directory: the analyses, and the union
    of their line numbers. *)
Fixpoint analyze_files `{Runtime} (files : list file) (acc : list analysis)
    (all_lines : gset Z) : outcome (list analysis * gset Z) :=
  match files with
  | [] => Return (acc, all_lines)
  | f :: rest =>
      a <- analyze_file_entries f;;
      analyze_files rest (acc ++ [a]) (all_lines ∪ line_numbers a)
  end.

Record mismatch_summary : Type := {
  total_mismatches : Z;
  lines_only_in_instruction : Z;
  lines_only_in_output : Z;
  matching_lines : Z
}.

Record mismatch_report : Type := {
  instruction_files : list analysis;
  output_files : list analysis;
  total_instruction_lines : Z;
  total_output_lines : Z;
  common_lines : Z;
  missing_in_output : list Z;
  missing_in_instruction : list Z;
  summary : mismatch_summary
}.

Definition set_len (s : gset Z) : Z := Z.of_nat (size s).

(** The three sets of the comparison. *)
Definition missing_in_output_set (all_instruction_lines all_output_lines : gset Z) : gset Z :=
  all_instruction_lines ∖ all_output_lines.

Definition missing_in_instruction_set (all_instruction_lines all_output_lines : gset Z) : gset Z :=
  all_output_lines ∖ all_instruction_lines.

Definition common_lines_set (all_instruction_lines all_output_lines : gset Z) : gset Z :=
  all_instruction_lines ∩ all_output_lines.

Definition report_of (instruction_analysis output_analysis : list analysis)
    (all_instruction_lines all_output_lines : gset Z) : mismatch_report :=
  let missing_out := missing_in_output_set all_instruction_lines all_output_lines in
  let missing_ins := missing_in_instruction_set all_instruction_lines all_output_lines in
  let common := common_lines_set all_instruction_lines all_output_lines in
  {| instruction_files := instruction_analysis;
     output_files := output_analysis;
     total_instruction_lines := set_len all_instruction_lines;
     total_output_lines := set_len all_output_lines;
     common_lines := set_len common;
     missing_in_output := sorted (elements missing_out);
     missing_in_instruction := sorted (elements missing_ins);
     summary :=
       {| total_mismatches := set_len missing_out + set_len missing_ins;
          lines_only_in_instruction := set_len missing_out;
          lines_only_in_output := set_len missing_ins;
          matching_lines := set_len common |} |}.

(** [find_mismatches] on the [.jsonl] files of the two directories, each
    list in the order of the sorted file names. *)
Definition find_mismatches `{Runtime} (instruction_dir output_dir : list file)
    : outcome mismatch_report :=
  i <- analyze_files instruction_dir [] ∅;;
  o <- analyze_files output_dir [] ∅;;
  Return (report_of i.1 o.1 i.2 o.2).

(** *** Gaps and ranges *)

(** The dict returned by [find_gaps_and_ranges]; the three totals are
    absent from the dict returned for an empty set. *)
Record line_patterns : Type := {
  ranges : list (Z * Z);
  gaps : list (Z * Z);
  min : option Z;
  max : option Z;
  total_expected : option Z;
  total_actual : option Z;
  missing_count : option Z
}.

(** [l[0]] and [l[-1]] on a list. *)
Definition first_item (l : list Z) : outcome Z :=
  match l with
  | x :: _ => Return x
  | [] => Raise IndexError
  end.

Definition last_item (l : list Z) : outcome Z :=
  match last l with
  | Some x => Return x
  | None => Raise IndexError
  end.

(** The loop over [sorted_lines[1:]]; the state is [start], [prev] and the
    two lists. *)
Fixpoint scan (rest : list Z) (start prev : Z) (ranges gaps : list (Z * Z))
    : Z * Z * list (Z * Z) * list (Z * Z) :=
  match rest with
  | [] => (start, prev, ranges, gaps)
  | current :: rest' =>
      if negb (current =? prev + 1) then
        let ranges := ranges ++ [(start, prev)] in
        let gaps := if 1 <? current - prev
                    then gaps ++ [(prev + 1, current - 1)] else gaps in
        scan rest' current current ranges gaps
      else scan rest' start current ranges gaps
  end.

Definition find_gaps_and_ranges (line_numbers : gset Z) : outcome line_patterns :=
  if decide (line_numbers = ∅) then
    Return {| ranges := []; gaps := []; min := None; max := None;
              total_expected := None; total_actual := None;
              missing_count := None |}
  else
    let sorted_lines := sorted (elements line_numbers) in
    min_line <- first_item sorted_lines;;
    max_line <- last_item sorted_lines;;
    start <- first_item sorted_lines;;
    prev <- first_item sorted_lines;;
    let '(start, prev, ranges, gaps) := scan (tail sorted_lines) start prev [] [] in
    let ranges := ranges ++ [(start, prev)] in
    Return {| ranges := ranges; gaps := gaps;
              min := Some min_line; max := Some max_line;
              total_expected := Some (max_line - min_line + 1);
              total_actual := Some (set_len line_numbers);
              missing_count := Some ((max_line - min_line + 1) - set_len line_numbers) |}.

End Mismatch.

(** ** A reference runtime for the closed examples

    The theorems below hold for every [Runtime].  The closed examples need
    one: [Reference.runtime].  Its decoder reads objects, arrays, strings
    with the one-letter escapes, integers and the three literals, and
    rejects every other text with [JSONDecodeError]; like the decoder of
    the interpreter it raises [RecursionError] when it enters an array or
    an object nested too deep, and [ValueError] on an integer of more than
    4300 digits.  On the texts it accepts, and on the texts of the
    examples, it agrees with [json.loads].  Floats, [\u] escapes, [NaN]
    and [Infinity] are outside it. *)

Module Reference.

Definition json_ws (c : ascii) : bool :=
  let n := code c in ((n =? 32) || (n =? 9) || (n =? 10) || (n =? 13))%N.

Fixpoint skip_ws (s : str) : str :=
  match s with
  | c :: s' => if json_ws c then skip_ws s' else s
  | [] => []
  end.

Definition quote : ascii := ascii_of_N 34.
Definition backslash : ascii := ascii_of_N 92.

Definition unescape (c : ascii) : option ascii :=
  let n := code c in
  if (n =? 34)%N then Some quote
  else if (n =? 92)%N then Some backslash
  else if (n =? 47)%N then Some (ascii_of_N 47)
  else if (n =? 98)%N then Some (ascii_of_N 8)
  else if (n =? 102)%N then Some (ascii_of_N 12)
  else if (n =? 110)%N then Some (ascii_of_N 10)
  else if (n =? 114)%N then Some (ascii_of_N 13)
  else if (n =? 116)%N then Some (ascii_of_N 9)
  else None.

(** The characters of a string literal after its opening quote. *)
Fixpoint string_body (s : str) : option (str * str) :=
  match s with
  | [] => None
  | c :: s' =>
      if char_eqb c quote then Some ([], s')
      else if char_eqb c backslash then
        match s' with
        | e :: s'' =>
            match unescape e, string_body s'' with
            | Some x, Some (t, r) => Some (x :: t, r)
            | _, _ => None
            end
        | [] => None
        end
      else if (code c <? 32)%N then None
      else match string_body s' with
           | Some (t, r) => Some (c :: t, r)
           | None => None
           end
  end.

(** The nesting at which the decoder gives up, and the number of digits
    that [int] converts.  The first is the recursion limit of the
    interpreter, 1000 unless it is set; the frames in use lower the
    nesting actually reached by a few, so the examples stay away from the
    limit. *)
Definition recursion_limit : nat := 1000.
Definition max_str_digits : nat := 4300.

(** A string literal where one is due. *)
Definition string_literal (s : str) : outcome (str * str) :=
  match string_body s with
  | Some tr => Return tr
  | None => Raise JSONDecodeError
  end.

(** An integer literal: an optional minus sign, then [0] or a run of
    digits that does not start with [0]; a fraction or an exponent after it
    is not accepted. *)
Definition integer (s : str) : outcome (Z * str) :=
  let (neg, s1) := match strip_prefix (lit "-") s with
                   | Some r => (true, r)
                   | None => (false, s)
                   end in
  let (ds, r) := span isdigit s1 in
  let n := if neg then - int_of_digits ds else int_of_digits ds in
  let converted : outcome (Z * str) :=
    if (max_str_digits <? length ds)%nat then Raise ValueError else Return (n, r) in
  match ds with
  | [] => Raise JSONDecodeError
  | d :: ds' =>
      if char_eqb d (ascii_of_N 48) && negb (length ds' =? 0)%nat
      then Raise JSONDecodeError
      else match r with
           | c :: _ =>
               if ((code c =? 46) || (code c =? 101) || (code c =? 69))%N
               then Raise JSONDecodeError
               else converted
           | [] => converted
           end
  end.

(** [d[k] = v] on a dict: a key that is already there keeps its place. *)
Fixpoint dict_set (k : str) (v : json) (d : list (str * json)) : list (str * json) :=
  match d with
  | [] => [(k, v)]
  | (k', v') :: d' =>
      if str_eqb k k' then (k', v) :: d' else (k', v') :: dict_set k v d'
  end.

(** One value from the head of the text; [depth] is the nesting still
    allowed, [fuel] bounds the recursion and is never used up. *)
Fixpoint value (fuel depth : nat) (s : str) : outcome (json * str) :=
  match fuel with
  | O => Raise JSONDecodeError
  | S fuel' =>
      match skip_ws s with
      | [] => Raise JSONDecodeError
      | c :: r =>
          if char_eqb c quote then
            tr <- string_literal r;; Return (JStr tr.1, tr.2)
          else if (code c =? 91)%N then
            match depth with
            | O => Raise RecursionError
            | S depth' =>
                match skip_ws r with
                | c' :: r' =>
                    if (code c' =? 93)%N then Return (JArr [], r')
                    else lr <- elements_ fuel' depth' r [];; Return (JArr lr.1, lr.2)
                | [] => Raise JSONDecodeError
                end
            end
          else if (code c =? 123)%N then
            match depth with
            | O => Raise RecursionError
            | S depth' =>
                match skip_ws r with
                | c' :: r' =>
                    if (code c' =? 125)%N then Return (JObj [], r')
                    else dr <- members fuel' depth' r [];; Return (JObj dr.1, dr.2)
                | [] => Raise JSONDecodeError
                end
            end
          else
            match strip_prefix (lit "null") (c :: r),
                  strip_prefix (lit "true") (c :: r),
                  strip_prefix (lit "false") (c :: r) with
            | Some r', _, _ => Return (JNull, r')
            | _, Some r', _ => Return (JBool true, r')
            | _, _, Some r' => Return (JBool false, r')
            | None, None, None =>
                nr <- integer (c :: r);; Return (JInt nr.1, nr.2)
            end
      end
  end
with elements_ (fuel depth : nat) (s : str) (acc : list json)
    : outcome (list json * str) :=
  match fuel with
  | O => Raise JSONDecodeError
  | S fuel' =>
      vr <- value fuel' depth s;;
      match skip_ws vr.2 with
      | c :: r' =>
          if (code c =? 44)%N then elements_ fuel' depth r' (acc ++ [vr.1])
          else if (code c =? 93)%N then Return (acc ++ [vr.1], r')
          else Raise JSONDecodeError
      | [] => Raise JSONDecodeError
      end
  end
with members (fuel depth : nat) (s : str) (acc : list (str * json))
    : outcome (list (str * json) * str) :=
  match fuel with
  | O => Raise JSONDecodeError
  | S fuel' =>
      match skip_ws s with
      | q :: r0 =>
          if char_eqb q quote then
            kr <- string_literal r0;;
            match skip_ws kr.2 with
            | colon :: r2 =>
                if (code colon =? 58)%N then
                  vr <- value fuel' depth r2;;
                  match skip_ws vr.2 with
                  | c :: r4 =>
                      if (code c =? 44)%N
                      then members fuel' depth r4 (dict_set kr.1 vr.1 acc)
                      else if (code c =? 125)%N
                      then Return (dict_set kr.1 vr.1 acc, r4)
                      else Raise JSONDecodeError
                  | [] => Raise JSONDecodeError
                  end
                else Raise JSONDecodeError
            | [] => Raise JSONDecodeError
            end
          else Raise JSONDecodeError
      | [] => Raise JSONDecodeError
      end
  end.

(** [json.loads] of the reference runtime. *)
Definition parse (s : str) : outcome json :=
  vr <- value (2 * length s + 2) recursion_limit s;;
  match skip_ws vr.2 with
  | [] => Return vr.1
  | _ => Raise JSONDecodeError
  end.

(** The value of a text that decodes. *)
Definition decode (s : str) : option json :=
  match parse s with
  | Return v => Some v
  | Raise _ => None
  end.

(** [str(e)] is not modelled: the reference runtime renders an exception
    by the name of its class.  No statement rests on this text; the
    analysis tests the prefix [ERROR_EXTRACTING] alone. *)
Definition describe (e : exn) : str :=
  match e with
  | TypeError => lit "TypeError"
  | AttributeError => lit "AttributeError"
  | KeyError => lit "KeyError"
  | IndexError => lit "IndexError"
  | JSONDecodeError => lit "JSONDecodeError"
  | ValueError => lit "ValueError"
  | RecursionError => lit "RecursionError"
  end.

Definition runtime : Runtime :=
  {| json_loads := parse; exn_str := describe |}.

(** The literals of the examples are written with ['] for the double
    quote and [$] for the line break. *)
Definition text (s : string) : str :=
  map (fun c => if (code c =? 39)%N then quote
                else if (code c =? 36)%N then newline
                else c) (lit s).

End Reference.

(** ** Vocabulary of the statements *)

(** *** Numerals, ranges and gaps *)

(** One step of [int_of_digits]. *)
Definition step (acc : Z) (c : ascii) : Z := 10 * acc + digit_val c.

Definition underscore : ascii := ascii_of_N 95.

(** A maximal run of consecutive keys that are present: every key of
    [a..b] is present, and neither [a - 1] nor [b + 1] is. *)
Definition present_run (P : Z -> Prop) (r : Z * Z) : Prop :=
  r.1 <= r.2 /\ (forall k, r.1 <= k <= r.2 -> P k)
  /\ ~ P (r.1 - 1) /\ ~ P (r.2 + 1).

(** A maximal run of consecutive keys that are absent, between two keys
    that are present. *)
Definition absent_run (P : Z -> Prop) (r : Z * Z) : Prop :=
  r.1 <= r.2 /\ (forall k, r.1 <= k <= r.2 -> ~ P k)
  /\ P (r.1 - 1) /\ P (r.2 + 1).

Definition covers (l : list (Z * Z)) (k : Z) : Prop :=
  exists r, r ∈ l /\ r.1 <= k <= r.2.

(** The ranges of a list lie one after the other. *)
Definition ascending (l : list (Z * Z)) : Prop :=
  StronglySorted (fun r1 r2 => r1.2 < r2.1) l.

(** The state of [scan] after the keys up to [prev], for the keys [P]
    whose least one is [m]. *)
Definition scan_inv (P : Z -> Prop) (m start prev : Z) (R G : list (Z * Z)) : Prop :=
  m <= start /\ start <= prev
  /\ (forall k, start <= k <= prev -> P k)
  /\ ~ P (start - 1)
  /\ Forall (present_run P) R
  /\ (forall k, P k -> k < start -> covers R k)
  /\ Forall (fun r => r.2 + 1 < start) R
  /\ ascending R
  /\ Forall (absent_run P) G
  /\ (forall k, m <= k < start -> ~ P k -> covers G k)
  /\ Forall (fun g => g.2 < start) G
  /\ ascending G.

(** *** Envelopes and payload texts *)

(** The two envelope shapes, with [text] the value found at the end of
    the path. *)
Definition has_shape_A (e text : json) : Prop :=
  exists d rd bd cd more md,
    e = JObj d
    /\ lookup_key (lit "response") d = Some (JObj rd)
    /\ lookup_key (lit "body") rd = Some (JObj bd)
    /\ lookup_key (lit "choices") bd = Some (JArr (JObj cd :: more))
    /\ lookup_key (lit "message") cd = Some (JObj md)
    /\ lookup_key (lit "content") md = Some text.

Definition has_shape_B (e text : json) : Prop :=
  exists d rd md fd more,
    e = JObj d
    /\ lookup_key (lit "result") d = Some (JObj rd)
    /\ lookup_key (lit "message") rd = Some (JObj md)
    /\ lookup_key (lit "content") md = Some (JArr (JObj fd :: more))
    /\ lookup_key (lit "text") fd = Some text.

(** A dict without the key [k]. *)
Definition lacks (k : str) (e : json) : Prop :=
  exists d, e = JObj d /\ lookup_key k d = None.

(** The test [k in v and v[k]] on a dict [v]: it fails when the key is
    absent or its value is falsy, and leads to the value otherwise. *)
Definition stops_at (k : str) (v : json) : Prop :=
  exists d, v = JObj d
    /\ (lookup_key k d = None
        \/ exists x, lookup_key k d = Some x /\ truthy x = false).

Definition leads_to (k : str) (v x : json) : Prop :=
  exists d, v = JObj d /\ lookup_key k d = Some x /\ truthy x = true.

(** An envelope in which the chat-completion shape does not match: the
    path [response], [body], [choices], first choice, [message],
    [content] ends at a key that is absent or whose value is falsy. *)
Definition unmatched_A (e : json) : Prop :=
  stops_at (lit "response") e
  \/ exists r, leads_to (lit "response") e r
     /\ (stops_at (lit "body") r
         \/ exists b, leads_to (lit "body") r b
            /\ (stops_at (lit "choices") b
                \/ exists c more, leads_to (lit "choices") b (JArr (c :: more))
                   /\ (stops_at (lit "message") c
                       \/ exists m, leads_to (lit "message") c m
                                    /\ stops_at (lit "content") m))).

(** The same for the message-batch shape: the path [result], [message],
    [content] ends at such a key, or the content is not a list, or its
    first item is not a dict or has no [text]. *)
Definition unmatched_B (e : json) : Prop :=
  stops_at (lit "result") e
  \/ exists r, leads_to (lit "result") e r
     /\ (stops_at (lit "message") r
         \/ exists m, leads_to (lit "message") r m
            /\ (stops_at (lit "content") m
                \/ exists c, leads_to (lit "content") m c
                   /\ (is_list c = false
                       \/ exists f more, c = JArr (f :: more)
                          /\ (is_dict f = false \/ lacks (lit "text") f)))).

(** Result lines of the two shapes, for the examples. *)
Definition line_A (custom_id content : str) : json :=
  JObj [(lit "custom_id", JStr custom_id);
        (lit "response",
         JObj [(lit "body",
                JObj [(lit "choices",
                       JArr [JObj [(lit "message",
                                    JObj [(lit "content", JStr content)])]])])])].

Definition line_B (custom_id text : str) : json :=
  JObj [(lit "custom_id", JStr custom_id);
        (lit "result",
         JObj [(lit "message",
                JObj [(lit "content", JArr [JObj [(lit "text", JStr text)]])])])].

(** A [```json] fence around [inner], followed by [post]. *)
Definition fenced (inner post : str) : str :=
  lit "```json" ++ [newline] ++ inner ++ [newline] ++ lit "```" ++ post.

(** A text of one line that does not begin with white space. *)
Definition one_line (inner : str) : Prop :=
  Forall (fun c => c <> newline) inner
  /\ match inner with c :: _ => isspace c = false | [] => False end.

(** *** The analysis of a file *)

(** The observations of the entries of a file from index [i] on, and the
    state after recording them. *)
Fixpoint observe_all `{Runtime} (i : Z) (results : list json)
    : outcome (list Mismatch.observation) :=
  match results with
  | [] => Return []
  | result :: rest =>
      o <- Mismatch.observe i result;;
      os <- observe_all (i + 1) rest;;
      Return (o :: os)
  end.

Fixpoint record_all (i : Z) (obs : list Mismatch.observation)
    (st : Mismatch.analysis * list (Z * Z)) : Mismatch.analysis * list (Z * Z) :=
  match obs with
  | [] => st
  | o :: os => record_all (i + 1) os (Mismatch.record_entry i o st)
  end.

Definition count_if {A} (f : A -> bool) (l : list A) : Z :=
  Z.of_nat (length (List.filter f l)).

(** The three ways an extracted text is counted. *)
Definition counted_failed (o : Mismatch.observation) : bool :=
  Mismatch.is_failed (Mismatch.ob_text o).

Definition counted_empty (o : Mismatch.observation) : bool :=
  negb (Mismatch.is_failed (Mismatch.ob_text o))
  && Mismatch.is_blank (Mismatch.ob_text o).

Definition counted_successful (o : Mismatch.observation) : bool :=
  negb (Mismatch.is_failed (Mismatch.ob_text o))
  && negb (Mismatch.is_blank (Mismatch.ob_text o)).

(** How often the line number [k] was decoded. *)
Definition occurrences (k : Z) (obs : list Mismatch.observation) : Z :=
  count_if (fun o => bool_decide (Mismatch.ob_line_num o = Some k)) obs.

(** The count kept for [k] in [line_number_counts]. *)
Fixpoint count_of (k : Z) (counts : list (Z * Z)) : Z :=
  match counts with
  | [] => 0
  | (k', c) :: rest => if k' =? k then c else count_of k rest
  end.

(** The counters of an analysis: total, failed, empty and successful
    entries, and the numbers of error entries and of duplicates. *)
Definition counters (r : outcome Mismatch.analysis) : option (list Z) :=
  match r with
  | Return a =>
      Some [Mismatch.total_entries a;
            Mismatch.failed_extractions a;
            Mismatch.empty_extractions a;
            Mismatch.successful_extractions a;
            Z.of_nat (length (Mismatch.error_entries a));
            Z.of_nat (length (Mismatch.duplicate_line_numbers a))]
  | Raise _ => None
  end.

Definition duplicates (r : outcome Mismatch.analysis) : option (list (Z * Z)) :=
  match r with
  | Return a => Some (Mismatch.duplicate_line_numbers a)
  | Raise _ => None
  end.

(** The line number of a result line, as the loading loops obtain it. *)
Definition key_with (decode : json -> outcome (option Z)) (result : json)
    : outcome (option Z) :=
  custom_id <- get_custom_id result [];;
  decode custom_id.

(** A result line without [custom_id], or with one that is a string and
    matches none of the patterns. *)
Definition undecodable (patterns : list str) (result : json) : Prop :=
  exists d, result = JObj d
    /\ (lookup_key (lit "custom_id") d = None
        \/ exists s, lookup_key (lit "custom_id") d = Some (JStr s)
                     /\ first_pattern patterns s = None).

Definition letter_l : ascii := ascii_of_N 108.

(** The counts of [line_number_counts] have distinct keys and are at
    least one. *)
Definition well_counted (counts : list (Z * Z)) : Prop :=
  NoDup (map fst counts) /\ Forall (fun kc => 1 <= kc.2) counts.

(** Sample lines and files for the closed examples. *)
Module Sample.

(** A line with an identifier and no [response]. *)
Definition absent_shape : json :=
  JObj [(lit "custom_id", JStr (lit "ns_line_1"))].

(** A line whose content is neither fenced nor JSON. *)
Definition bare_text : json := line_A (lit "ns_line_2") (lit "not json {").

(** Two lines with the same envelope, one without [custom_id] and one
    with an identifier that decodes to 3. *)
Definition anonymous : json :=
  JObj [(lit "response",
         JObj [(lit "body",
                JObj [(lit "choices",
                       JArr [JObj [(lit "message",
                                    JObj [(lit "content", JStr (lit "Y"))])]])])])].

Definition identified : json := line_A (lit "ns_line_3") (lit "Y").

(** Two files, each with one line for key 7. *)
Definition first_file : file :=
  Some [Reference.text
    "{'custom_id': 'ns_line_7', 'response': {'body': {'choices': [{'message': {'content': 'first'}}]}}}"].

Definition second_file : file :=
  Some [Reference.text
    "{'custom_id': 'ns_line_7', 'response': {'body': {'choices': [{'message': {'content': 'second'}}]}}}"].

(** The same two files in the message-batch shape. *)
Definition first_file_B : file :=
  Some [Reference.text
    "{'custom_id': 'ns_output_line_7', 'result': {'message': {'content': [{'text': 'first'}]}}}"].

Definition second_file_B : file :=
  Some [Reference.text
    "{'custom_id': 'ns_output_line_7', 'result': {'message': {'content': [{'text': 'second'}]}}}"].

(** A text of two thousand opening brackets: it is not JSON, and the
    decoder gives up on its nesting before it finds that out. *)
Definition deep : str := repeat (ascii_of_N 91) 2000.

(** Result directories with the instruction and output results of batch
    1 for line 7, and input results for line 7 in the file of batch 2
    only, a batch that the instruction directory does not have. *)
Definition no_input_for_batch : MergedResults.results_dirs :=
  {| MergedResults.found_batches := [1];
     MergedResults.instruction_file := fun _ => first_file_B;
     MergedResults.input_file := fun b => if b =? 2 then second_file_B else None;
     MergedResults.output_file := fun _ => second_file_B |}.

(** A fence without a language tag around [{"text": "X"}]. *)
Definition untagged : str := Reference.text "```${'text': 'X'}$```".

Definition payload (keys : list Z) (tag : string) : gmap Z str :=
  list_to_map (map (fun k => (k, lit tag ++ str_of_int k)) keys).

End Sample.

(** *** Merged records and key sets *)

(** The record written for key [k]. *)
Definition entry_for (instruction input output : gmap Z str) (k : Z)
    (e : merged_entry) : Prop :=
  exists a b c,
    instruction !! k = Some a /\ input !! k = Some b /\ output !! k = Some c
    /\ e = [(lit "instruction", a); (lit "input", b); (lit "output", c)].

Definition entry_for_two (instruction output : gmap Z str) (k : Z)
    (e : merged_entry) : Prop :=
  exists a c,
    instruction !! k = Some a /\ output !! k = Some c
    /\ e = [(lit "instruction", a); (lit "input", []); (lit "output", c)].

(** The key set of a field in the mismatch finder: the line numbers of
    all its files. *)
Definition key_set (analyses : list Mismatch.analysis) : gset Z :=
  ⋃ (map Mismatch.line_numbers analyses).

(** * Further code of the same files *)

(** ** [batch_processWithInput.py]: building the requests *)

Module Creator.

(** [c.isalnum()] on a code point below 256. *)
Definition isalnum (c : ascii) : bool :=
  let n := code c in
  ((48 <=? n) && (n <=? 57) || (65 <=? n) && (n <=? 90)
   || (97 <=? n) && (n <=? 122) || (n =? 170)
   || (178 <=? n) && (n <=? 179) || (n =? 181)
   || (185 <=? n) && (n <=? 186) || (188 <=? n) && (n <=? 190)
   || (192 <=? n) && (n <=? 214) || (216 <=? n) && (n <=? 246)
   || (248 <=? n))%N.

(** [c.isalnum() or c in "-_."] *)
Definition is_safe (c : ascii) : bool :=
  (isalnum c || (code c =? 45) || (code c =? 95) || (code c =? 46))%N.

Definition sanitize_custom_id (text : str) : str :=
  map (fun c => if is_safe c then c else ascii_of_N 95) text.

(** What stops [create_batch_for_field] or [process_file]: the [ValueError]
    for a field name that is not known, the [AttributeError] of [data.get]
    when the line decodes to something that is not a dict, the
    [ZeroDivisionError] of a batch size of zero, and an exception of
    [json.loads] other than [JSONDecodeError], which nothing catches. *)
Inductive error : Type :=
| UnknownField
| NotADict
| ZeroDivision
| Uncaught (e : exn).

(** One request; the model, the system text, the token limit and the
    temperature are the same constants in every request and are left
    out. *)
Record request : Type := {
  custom_id : str;
  user_content : str
}.

(** One batch file written: field, batch number, requests. *)
Record batch_file : Type := {
  bf_field : str;
  bf_batch : Z;
  bf_requests : list request
}.

Definition fields : list str := [lit "instruction"; lit "input"; lit "output"].

(** [range(n)] *)
Definition range (n : Z) : list Z := map Z.of_nat (seq 0 (Z.to_nat n)).

(** A slice index brought into [0..len]. *)
Definition slice_index (len i : Z) : Z :=
  if i <? 0 then Z.max (i + len) 0 else Z.min i len.

(** [l[start:stop]] *)
Definition slice {A} (l : list A) (start stop : Z) : list A :=
  let n := Z.of_nat (length l) in
  let a := slice_index n start in
  let b := slice_index n stop in
  take (Z.to_nat (b - a)) (drop (Z.to_nat a) l).

(** The loop of [process_file] over the batches: batch number, start
    index and chunk of each. *)
Definition chunks (all_lines : list str) (batch_size : Z)
    : error + list (Z * Z * list str) :=
  if batch_size =? 0 then inl ZeroDivision
  else
    let total := Z.of_nat (length all_lines) in
    let num_batches := (total + batch_size - 1) / batch_size in
    inr (map (fun i =>
                let start := i * batch_size in
                let stop := Z.min (start + batch_size) total in
                (i + 1, start, slice all_lines start stop))
             (range num_batches)).

(** [for x in l: f x], stopping at the first error. *)
Fixpoint collect {A B} (f : A -> error + B) (l : list A) : error + list B :=
  match l with
  | [] => inr []
  | x :: rest =>
      match f x with
      | inl e => inl e
      | inr y => match collect f rest with
                 | inl e => inl e
                 | inr ys => inr (y :: ys)
                 end
      end
  end.

Section Requests.

Context `{Runtime}.

(** The prompt, a constant text, and [str] on the values that are neither
    strings nor [None], booleans or integers. *)
Variable PROMPT_TEMPLATE : str.
Variable repr : json -> str.

(** [str(v)] *)
Definition py_str (v : json) : str :=
  match v with
  | JStr s => s
  | JNull => lit "None"
  | JBool true => lit "True"
  | JBool false => lit "False"
  | JInt n => str_of_int n
  | _ => repr v
  end.

(** The text of the field of one line: empty for a blank line and for a
    line on which [json.loads] raises [JSONDecodeError], the one exception
    that is caught. *)
Definition field_text (field_name line : str) : error + str :=
  let raw := strip line in
  match raw with
  | [] => inr []
  | _ =>
      match loads raw with
      | Raise e => if is_JSONDecodeError e then inr [] else inl (Uncaught e)
      | Return (JObj d) =>
          inr (strip (py_str match lookup_key field_name d with
                             | Some v => v
                             | None => JStr []
                             end))
      | Return _ => inl NotADict
      end
  end.

(** The loop over the lines of a chunk, [global_idx] being the index of
    the line in front. *)
Fixpoint requests (lines_chunk : list str) (field_name original_safe_name : str)
    (global_idx : Z) : error + list request :=
  match lines_chunk with
  | [] => inr []
  | line :: rest =>
      match field_text field_name line with
      | inl e => inl e
      | inr text =>
          match requests rest field_name original_safe_name (global_idx + 1) with
          | inl e => inl e
          | inr rs =>
              inr ({| custom_id :=
                        BatchProcessWithInput.custom_id original_safe_name
                          field_name global_idx;
                      user_content := PROMPT_TEMPLATE ++ text |} :: rs)
          end
      end
  end.

Definition create_batch_for_field (lines_chunk : list str) (field_name : str)
    (batch_idx : Z) (original_safe_name : str) (start_idx_global : Z)
    : error + batch_file :=
  if existsb (str_eqb field_name) fields then
    match requests lines_chunk field_name original_safe_name start_idx_global with
    | inl e => inl e
    | inr rs => inr {| bf_field := field_name; bf_batch := batch_idx;
                       bf_requests := rs |}
    end
  else inl UnknownField.

(** [process_file] on the stem of the file name and the lines of the
    file, [None] when the file does not exist; the result lists the batch
    files in the order they are written. *)
Definition process_file (stem : str) (source : option (list str)) (batch_size : Z)
    : error + list batch_file :=
  match source with
  | None => inr []
  | Some all_lines =>
      let base_safe := sanitize_custom_id stem in
      match chunks all_lines batch_size with
      | inl e => inl e
      | inr cs =>
          match collect
                  (fun c : Z * Z * list str =>
                     collect (fun field_name =>
                                create_batch_for_field c.2 field_name c.1.1
                                  base_safe c.1.2)
                             fields)
                  cs with
          | inl e => inl e
          | inr files => inr (concat files)
          end
      end
  end.

End Requests.

End Creator.

(** ** Finding the result files *)

Module BatchFiles.

(** [s.endswith(suffix)] *)
Definition endswith (s suffix : str) : bool := startswith (rev s) (rev suffix).

(** [s.replace(old, '')] for a text [old] that is not empty: [skip] counts
    the characters of an occurrence that are still to be dropped. *)
Fixpoint remove_from (skip : nat) (old s : str) : str :=
  match s with
  | [] => []
  | c :: s' =>
      match skip with
      | S k => remove_from k old s'
      | O => if startswith s old then remove_from (length old - 1) old s'
             else c :: remove_from 0 old s'
      end
  end.

Definition remove_all (old s : str) : str := remove_from 0 old s.

(** The white space that [int] ignores around a numeral. *)
Definition int_space (c : ascii) : bool :=
  let n := code c in
  ((9 <=? n) && (n <=? 13) || (n =? 32) || (n =? 133) || (n =? 160))%N.

Fixpoint drop_space (s : str) : str :=
  match s with
  | c :: s' => if int_space c then drop_space s' else s
  | [] => []
  end.

(** The digits of a numeral in which single underscores may stand between
    digits. *)
Fixpoint grouped_digits (s : str) : option str :=
  match s with
  | [] => Some []
  | c :: s' =>
      if isdigit c then option_map (cons c) (grouped_digits s')
      else if (code c =? 95)%N then
        match s' with
        | d :: _ => if isdigit d then grouped_digits s' else None
        | [] => None
        end
      else None
  end.

Definition unsigned (s : str) : option Z :=
  match s with
  | c :: _ => if isdigit c then option_map int_of_digits (grouped_digits s) else None
  | [] => None
  end.

(** [int(s)] on a string; [None] stands for [ValueError]. *)
Definition py_int (s : str) : option Z :=
  let t := rev (drop_space (rev (drop_space s))) in
  match t with
  | c :: t' =>
      if (code c =? 45)%N then option_map Z.opp (unsigned t')
      else if (code c =? 43)%N then unsigned t'
      else unsigned t
  | [] => None
  end.

(** The loop of [merged_results.py] over the names of the instruction
    directory: the batch numbers found. *)
Fixpoint scan_batches (names : list str) : list Z :=
  match names with
  | [] => []
  | filename :: rest =>
      if startswith filename (lit "results_batch_") && endswith filename (lit ".jsonl")
      then match py_int (remove_all (lit ".jsonl")
                           (remove_all (lit "results_batch_") filename)) with
           | Some batch_num => batch_num :: scan_batches rest
           | None => scan_batches rest
           end
      else scan_batches rest
  end.

(** [f"results_batch_{batch_num}.jsonl"] *)
Definition results_file_name (batch_num : Z) : str :=
  lit "results_batch_" ++ str_of_int batch_num ++ lit ".jsonl".

(** [a <= b] on strings: the order of the code points. *)
Fixpoint str_leb (a b : str) : bool :=
  match a, b with
  | [], _ => true
  | _ :: _, [] => false
  | x :: a', y :: b' =>
      if (code x <? code y)%N then true
      else if (code x =? code y)%N then str_leb a' b'
      else false
  end.

Definition str_le (a b : str) : Prop := str_leb a b = true.

#[global] Instance str_le_dec (a b : str) : Decision (str_le a b) :=
  bool_eq_dec (str_leb a b) true.

(** [get_available_batch_files] on the names of a directory, [None] when
    the directory does not exist. *)
Definition get_available_batch_files (directory : option (list str)) : list str :=
  match directory with
  | None => []
  | Some names =>
      merge_sort str_le (filter (fun f => endswith f (lit ".jsonl") = true) names)
  end.

End BatchFiles.

(** ** [mismatch.py]: the pattern analysis and the complete run *)

Module Patterns.






(** [set.update] over the analyses of a field. *)
Definition all_lines (analyses : list Mismatch.analysis) : gset Z :=
  fold_left (fun acc a => acc ∪ Mismatch.line_numbers a) analyses ∅.



End Patterns.

(** ** Vocabulary of the further statements *)

(** The run of digits at the end of [s], in front of a final line break
    if there is one. *)
Definition trailing_digits (s : str) : str :=
  let r := rev s in
  let r' := match r with
            | c :: t => if char_eqb c newline then t else r
            | [] => []
            end in
  rev (fst (span isdigit r')).

(** The number of keys that a list of ranges spans. *)
Definition span_size (l : list (Z * Z)) : Z :=
  fold_right (fun r acc => (r.2 - r.1 + 1) + acc) 0 l.

(** A source line that stops [process_file], and the error that leaves the
    function: the line is JSON but not an object, so that [data.get]
    raises, or [json.loads] raises on it an exception other than
    [JSONDecodeError]. *)
Definition stops_with `{Runtime} (line : str) (e : Creator.error) : Prop :=
  strip line <> []
  /\ ((exists v, json_loads (strip line) = Return v /\ is_dict v = false
                 /\ e = Creator.NotADict)
      \/ (exists x, json_loads (strip line) = Raise x /\ is_JSONDecodeError x = false
                    /\ e = Creator.Uncaught x)).

(** A line of a results file on which [json.loads] raises an exception
    other than [JSONDecodeError]. *)
Definition breaks_the_load `{Runtime} (line : str) : Prop :=
  strip line <> []
  /\ exists x, json_loads (strip line) = Raise x /\ is_JSONDecodeError x = false.


(** Sample results for the closed examples. *)
Module Answered.


Definition text (tag : string) (i : Z) : str := lit tag ++ str_of_int i.

End Answered.

(** * Properties *)

Example decode_examples :
  Reference.decode (Reference.text " {'a': [1, -20, 'x\ny'], 'b': null, 'a': true} ")
    = Some (JObj [(lit "a", JBool true); (lit "b", JNull)])
  /\ Reference.decode (lit "Y") = None
  /\ Reference.decode (lit "[1,]") = None
  /\ Reference.decode (lit "01") = None
  /\ Reference.decode (Reference.text "{'text': 'X'}")
     = Some (JObj [(lit "text", JStr (lit "X"))]).
Proof. vm_compute. repeat split. Qed.

(** ** Strings and numerals *)

Lemma char_eqb_refl c : char_eqb c c = true.
Proof. apply Ascii.eqb_refl. Qed.

Lemma char_eqb_true a b : char_eqb a b = true -> a = b.
Proof. apply Ascii.eqb_eq. Qed.

Lemma lstrip_cases s :
  lstrip s = [] \/ exists c t, lstrip s = c :: t /\ isspace c = false.
Proof.
  induction s as [|c s IH]; [now left|]. cbn [lstrip].
  destruct (isspace c) eqn:E; [assumption|]. right. now exists c, s.
Qed.

Lemma lstrip_keeps c t : isspace c = false -> lstrip (c :: t) = c :: t.
Proof. intros E. cbn [lstrip]. now rewrite E. Qed.

Lemma lstrip_app_last x c :
  isspace c = false -> exists t, lstrip (x ++ [c]) = t ++ [c].
Proof.
  intros E. induction x as [|d x IH].
  - exists []. cbn. now rewrite E.
  - cbn [app lstrip]. destruct (isspace d); [assumption|]. now exists (d :: x).
Qed.

Lemma rstrip_keeps_head c s :
  isspace c = false -> exists t, rstrip (c :: s) = c :: t.
Proof.
  intros E. unfold rstrip. cbn [rev].
  destruct (lstrip_app_last (rev s) c E) as (t & ->).
  exists (rev t). now rewrite rev_app_distr.
Qed.

Lemma rstrip_rstrip s : rstrip (rstrip s) = rstrip s.
Proof.
  unfold rstrip. rewrite rev_involutive. f_equal.
  destruct (lstrip_cases (rev s)) as [-> | (c & t & -> & E)]; [reflexivity|].
  now apply lstrip_keeps.
Qed.

(** Trimming a trimmed text changes nothing. *)
Lemma strip_strip s : strip (strip s) = strip s.
Proof.
  unfold strip. destruct (lstrip_cases s) as [-> | (c & t & -> & E)]; [reflexivity|].
  destruct (rstrip_keeps_head c t E) as (t' & Ht).
  assert (Hl : lstrip (rstrip (c :: t)) = rstrip (c :: t))
    by (rewrite Ht; now apply lstrip_keeps).
  rewrite Hl. apply rstrip_rstrip.
Qed.

Lemma strip_prefix_app p s : strip_prefix p (p ++ s) = Some s.
Proof.
  induction p as [|a p IH]; simpl; [reflexivity|].
  now rewrite char_eqb_refl.
Qed.

Lemma strip_prefix_split p : forall s r, strip_prefix p s = Some r -> s = p ++ r.
Proof.
  induction p as [|a p IH]; intros s r; simpl.
  - now intros [= ->].
  - destruct s as [|b s]; [discriminate|].
    destruct (char_eqb a b) eqn:E; [|discriminate].
    apply char_eqb_true in E as ->. intros H. now rewrite (IH _ _ H).
Qed.

Lemma span_all f ds : Forall (fun c => f c = true) ds -> span f ds = (ds, []).
Proof.
  induction 1 as [|c ds Hc _ IH]; simpl; [reflexivity|].
  now rewrite Hc, IH.
Qed.

Lemma span_split f : forall s a b,
  span f s = (a, b) -> s = a ++ b /\ Forall (fun c => f c = true) a.
Proof.
  induction s as [|c s IH]; intros a b; simpl.
  - intros [= <- <-]. split; [reflexivity|constructor].
  - destruct (f c) eqn:E.
    + destruct (span f s) as [a' b']. intros [= <- <-].
      destruct (IH a' b' eq_refl) as [-> Ha]. split; [reflexivity|].
      now constructor.
    + intros [= <- <-]. split; [reflexivity|constructor].
Qed.

Lemma digit_char_code d : 0 <= d < 10 -> code (digit_char d) = Z.to_N (48 + d).
Proof.
  intros Hd. unfold code, digit_char. apply N_ascii_embedding. lia.
Qed.

Lemma digit_val_char d : 0 <= d < 10 -> digit_val (digit_char d) = d.
Proof.
  intros Hd. unfold digit_val. rewrite digit_char_code by assumption. lia.
Qed.

Lemma isdigit_digit_char d : 0 <= d < 10 -> isdigit (digit_char d) = true.
Proof.
  intros Hd. unfold isdigit. rewrite digit_char_code by assumption.
  apply andb_true_intro. split; apply N.leb_le; lia.
Qed.

Lemma digits_aux_value fuel : forall n acc,
  0 <= n < 10 ^ Z.of_nat fuel ->
  fold_left step (digits_aux fuel n acc) 0 = fold_left step acc n.
Proof.
  induction fuel as [|fuel IH]; intros n acc Hn.
  - simpl in Hn. assert (n = 0) as -> by lia. reflexivity.
  - assert (Hmod : 0 <= n mod 10 < 10) by (apply Z.mod_pos_bound; lia).
    simpl digits_aux. destruct (n <? 10) eqn:E.
    + apply Z.ltb_lt in E. simpl. unfold step at 2.
      rewrite digit_val_char by assumption.
      rewrite Z.mod_small by lia. reflexivity.
    + apply Z.ltb_ge in E. rewrite IH.
      * simpl. unfold step at 2. rewrite digit_val_char by assumption.
        f_equal. pose proof (Z.div_mod n 10). lia.
      * rewrite Nat2Z.inj_succ, Z.pow_succ_r in Hn by lia.
        split; [apply Z.div_pos; lia|].
        apply Z.div_lt_upper_bound; lia.
Qed.

Lemma digits_aux_digits fuel : forall n acc,
  Forall (fun c => isdigit c = true) acc ->
  Forall (fun c => isdigit c = true) (digits_aux fuel n acc).
Proof.
  induction fuel as [|fuel IH]; intros n acc Hacc; simpl; [assumption|].
  assert (Hmod : 0 <= n mod 10 < 10) by (apply Z.mod_pos_bound; lia).
  destruct (n <? 10).
  - constructor; [now apply isdigit_digit_char | assumption].
  - apply IH. constructor; [now apply isdigit_digit_char | assumption].
Qed.

Lemma digits_aux_nonempty fuel : forall n acc,
  acc <> [] \/ fuel <> O -> digits_aux fuel n acc <> [].
Proof.
  induction fuel as [|fuel IH]; intros n acc H; simpl.
  - destruct H as [H|H]; [assumption|contradiction].
  - destruct (n <? 10); [discriminate|]. apply IH. left. discriminate.
Qed.

Lemma fuel_enough n : 0 <= n -> n < 10 ^ Z.of_nat (S (Z.to_nat (Z.log2 n))).
Proof.
  intros Hn. rewrite Nat2Z.inj_succ, Z2Nat.id by apply Z.log2_nonneg.
  destruct (Z.eq_dec n 0) as [->|Hne]; [reflexivity|].
  pose proof (Z.log2_spec n ltac:(lia)) as [_ Hup].
  eapply Z.lt_le_trans; [exact Hup|].
  apply Z.pow_le_mono_l. lia.
Qed.

(** [int(str(n)) = n] with [str(n)] a non-empty run of digits. *)
Lemma str_of_int_digits n :
  0 <= n ->
  int_of_digits (str_of_int n) = n
  /\ Forall (fun c => isdigit c = true) (str_of_int n)
  /\ str_of_int n <> [].
Proof.
  intros Hn. unfold str_of_int.
  destruct (n <? 0) eqn:E; [apply Z.ltb_lt in E; lia|].
  split; [|split].
  - unfold int_of_digits. change (fun acc c => 10 * acc + digit_val c) with step.
    rewrite digits_aux_value; [reflexivity|].
    split; [assumption | now apply fuel_enough].
  - apply digits_aux_digits. constructor.
  - apply digits_aux_nonempty. right. discriminate.
Qed.

(** ** The search for the line number *)

Lemma digits_suffix_here_exact p ds :
  Forall (fun c => isdigit c = true) ds -> ds <> [] ->
  Re.digits_suffix_here p (p ++ ds) = Some ds.
Proof.
  intros Hd Hne. unfold Re.digits_suffix_here.
  rewrite strip_prefix_app, (span_all _ _ Hd).
  destruct ds; [contradiction|reflexivity].
Qed.

(** A match leaves only digits and at most a final newline after the
    prefix. *)
Lemma digits_suffix_here_tail p s g :
  Re.digits_suffix_here p s = Some g ->
  exists rest, s = p ++ g ++ rest
    /\ Forall (fun c => isdigit c = true) g
    /\ (rest = [] \/ rest = [newline]).
Proof.
  unfold Re.digits_suffix_here.
  destruct (strip_prefix p s) as [r|] eqn:Hp; [|discriminate].
  apply strip_prefix_split in Hp as ->.
  destruct (span isdigit r) as [ds rest] eqn:Hs.
  apply span_split in Hs as [-> Hds].
  destruct ds as [|d ds]; [discriminate|].
  destruct (Re.at_end rest) eqn:He; [|discriminate].
  intros [= <-]. exists rest. split; [reflexivity|]. split; [assumption|].
  destruct rest as [|c [|c' rest]]; simpl in He; try discriminate.
  - now left.
  - right. now apply char_eqb_true in He as ->.
Qed.

Lemma no_early_line_match c p ds :
  Re.digits_suffix_here (lit "_line_") (c :: p ++ lit "_line_" ++ ds) = None.
Proof.
  destruct (Re.digits_suffix_here _ _) as [g|] eqn:H; [|reflexivity].
  exfalso. apply digits_suffix_here_tail in H as (rest & Heq & Hg & Hrest).
  assert (Hin : In underscore (skipn 6 (c :: p ++ lit "_line_" ++ ds))).
  { change (c :: p ++ lit "_line_" ++ ds)
      with ((c :: p) ++ lit "_line" ++ underscore :: ds).
    rewrite app_assoc, skipn_app. apply in_or_app. right.
    replace (6 - length ((c :: p) ++ lit "_line"))%nat with 0%nat.
    - now left.
    - rewrite length_app. simpl. lia. }
  rewrite Heq in Hin. change (skipn 6 (lit "_line_" ++ g ++ rest)) with (g ++ rest) in Hin.
  apply in_app_or in Hin as [Hin|Hin].
  - rewrite Forall_forall in Hg. apply list_elem_of_In, Hg in Hin. discriminate.
  - destruct Hrest as [->| ->]; simpl in Hin; [contradiction|].
    destruct Hin as [Hin|[]]. discriminate.
Qed.

Lemma search_here f s g : f s = Some g -> Re.search f s = Some g.
Proof. intros H. destruct s; simpl; now rewrite H. Qed.

Lemma search_skip f c s : f (c :: s) = None -> Re.search f (c :: s) = Re.search f s.
Proof. intros H. simpl. now rewrite H. Qed.

Lemma search_line_suffix p ds :
  Forall (fun c => isdigit c = true) ds -> ds <> [] ->
  Re.search_digits_suffix (lit "_line_") (p ++ lit "_line_" ++ ds) = Some ds.
Proof.
  intros Hd Hne. unfold Re.search_digits_suffix.
  induction p as [|c p IH].
  - apply search_here. now apply (digits_suffix_here_exact (lit "_line_") ds).
  - rewrite <- app_comm_cons, search_skip; [assumption|].
    apply no_early_line_match.
Qed.

Lemma first_pattern_custom_id ns f n ps :
  0 <= n ->
  first_pattern (lit "_line_" :: ps) (BatchProcessWithInput.custom_id ns f n) = Some n.
Proof.
  intros Hn. destruct (str_of_int_digits n Hn) as (Hv & Hd & Hne).
  unfold BatchProcessWithInput.custom_id. cbn [first_pattern].
  replace (ns ++ lit "_" ++ f ++ lit "_line_" ++ str_of_int n)
    with ((ns ++ lit "_" ++ f) ++ lit "_line_" ++ str_of_int n)
    by now rewrite <- !app_assoc.
  rewrite search_line_suffix by assumption. now rewrite Hv.
Qed.

(** C3.  For every namespace, field name and non-negative line index, the
    identifier ["{ns}_{f}_line_{n}"] built by the batch creator is decoded
    to [n] by each of the three decoders; in particular
    ["ns_field_line_42"] is decoded to 42. *)
Theorem custom_id_round_trip (ns f : str) (n : Z) :
  0 <= n ->
  MergedResults.extract_line_number_from_custom_id
    (JStr (BatchProcessWithInput.custom_id ns f n)) = Return (Some n)
  /\ InstructOutput.extract_line_number_from_custom_id
       (JStr (BatchProcessWithInput.custom_id ns f n)) = Return (Some n)
  /\ Mismatch.extract_line_number_from_custom_id
       (JStr (BatchProcessWithInput.custom_id ns f n)) = Return (Some n)
  /\ BatchProcessWithInput.custom_id (lit "ns") (lit "field") 42 = lit "ns_field_line_42".
Proof.
  intros Hn.
  unfold MergedResults.extract_line_number_from_custom_id,
    InstructOutput.extract_line_number_from_custom_id,
    Mismatch.extract_line_number_from_custom_id, Mismatch.patterns,
    decode_with, try_except.
  rewrite !first_pattern_custom_id by assumption.
  repeat split.
Qed.

Lemma custom_id_round_trip_witness :
  Mismatch.extract_line_number_from_custom_id (JStr (lit "ns_field_line_42"))
    = Return (Some 42).
Proof.
  pose proof (custom_id_round_trip (lit "ns") (lit "field") 42 ltac:(lia))
    as (_ & _ & H & E).
  rewrite E in H. exact H.
Defined.

(** ** Sorted key sequences *)

Lemma strictly_sorted (l : list Z) :
  StronglySorted Z.le l -> NoDup l -> StronglySorted Z.lt l.
Proof.
  induction 1 as [|x l Hl IH Hx]; intros Hnd; constructor.
  - apply IH. now apply NoDup_cons in Hnd as [_ ?].
  - apply NoDup_cons in Hnd as [Hnot _].
    rewrite Forall_forall in Hx |- *. intros y Hy.
    specialize (Hx y Hy). assert (x <> y) by (intros ->; contradiction). lia.
Qed.

Lemma sorted_spec (l : list Z) :
  NoDup l ->
  StronglySorted Z.lt (sorted l)
  /\ (forall k, k ∈ sorted l <-> k ∈ l)
  /\ length (sorted l) = length l.
Proof.
  intros Hnd. unfold sorted.
  pose proof (merge_sort_Permutation Z.le l) as Hp.
  split; [|split].
  - apply strictly_sorted.
    + apply (StronglySorted_merge_sort Z.le).
    + now rewrite Hp.
  - intros k. now rewrite Hp.
  - now rewrite Hp.
Qed.

Lemma sorted_elements (S : gset Z) :
  StronglySorted Z.lt (sorted (elements S))
  /\ (forall k, k ∈ sorted (elements S) <-> k ∈ S)
  /\ length (sorted (elements S)) = size S.
Proof.
  destruct (sorted_spec (elements S) (NoDup_elements S)) as (Hs & Hm & Hl).
  split; [assumption|]. split; [|assumption].
  intros k. rewrite Hm. apply elem_of_elements.
Qed.

(** ** Ranges and gaps *)

Lemma covers_app l l' k : covers l k \/ covers l' k -> covers (l ++ l') k.
Proof.
  intros [(r & Hr & Hk)|(r & Hr & Hk)]; exists r; (split; [|assumption]);
    apply elem_of_app; [now left | now right].
Qed.

Lemma covers_one r k : r.1 <= k <= r.2 -> covers [r] k.
Proof. intros H. exists r. split; [apply list_elem_of_singleton; reflexivity | assumption]. Qed.

Lemma ascending_snoc l x :
  ascending l -> Forall (fun r => r.2 < x.1) l -> ascending (l ++ [x]).
Proof.
  intros Hl Hx. unfold ascending. apply StronglySorted_app. split; [|split].
  - intros r1 r2 H1 H2. apply list_elem_of_singleton in H2 as ->.
    rewrite Forall_forall in Hx. now apply Hx.
  - assumption.
  - repeat constructor.
Qed.

Lemma scan_inv_extend P m start prev R G c :
  scan_inv P m start prev R G -> c = prev + 1 -> P c ->
  scan_inv P m start c R G.
Proof.
  intros (H1 & H2 & H3 & H4 & H5) -> Hc.
  split; [assumption|]. split; [lia|]. split; [|now split].
  intros k Hk. destruct (Z.eq_dec k (prev + 1)) as [->|]; [assumption|].
  apply H3. lia.
Qed.

Lemma scan_inv_restart P m start prev R G c :
  scan_inv P m start prev R G -> prev + 1 < c -> P c ->
  (forall k, prev < k < c -> ~ P k) ->
  scan_inv P m c c (R ++ [(start, prev)]) (G ++ [(prev + 1, c - 1)]).
Proof.
  intros (H1 & H2 & H3 & H4 & H5 & H6 & H7 & H8 & H9 & H10 & H11 & H12) Hlt Hc Hgap.
  unfold scan_inv. repeat apply conj.
  - lia.
  - lia.
  - intros k Hk. now replace k with c by lia.
  - apply Hgap. lia.
  - apply Forall_app. split; [assumption|]. apply Forall_singleton.
    repeat split; simpl; [assumption..|]. apply Hgap. lia.
  - intros k Hk Hkc. apply covers_app.
    destruct (Z_lt_dec k start) as [Hs|Hs]; [left; now apply H6|].
    right. apply covers_one. simpl.
    destruct (Z_le_dec k prev); [lia|]. exfalso. apply (Hgap k); [lia|assumption].
  - apply Forall_app. split.
    + eapply Forall_impl; [exact H7|]. simpl. intros; lia.
    + apply Forall_singleton. simpl. lia.
  - apply ascending_snoc; [assumption|].
    eapply Forall_impl; [exact H7|]. simpl. intros; lia.
  - apply Forall_app. split; [assumption|]. apply Forall_singleton.
    repeat split; simpl.
    + lia.
    + intros k Hk. apply Hgap. lia.
    + replace (prev + 1 - 1) with prev by lia. apply H3. lia.
    + now replace (c - 1 + 1) with c by lia.
  - intros k Hk Hnk. apply covers_app.
    destruct (Z_lt_dec k start) as [Hs|Hs]; [left; apply H10; [lia|assumption]|].
    right. apply covers_one. simpl.
    destruct (Z_le_dec k prev); [|lia]. exfalso. apply Hnk, H3. lia.
  - apply Forall_app. split.
    + eapply Forall_impl; [exact H11|]. simpl. intros; lia.
    + apply Forall_singleton. simpl. lia.
  - apply ascending_snoc; [assumption|].
    eapply Forall_impl; [exact H11|]. simpl. intros; lia.
Qed.

Lemma scan_spec P m : forall rest start prev R G,
  scan_inv P m start prev R G ->
  StronglySorted Z.lt (prev :: rest) ->
  (forall k, k ∈ rest -> P k) ->
  (forall k, P k -> k <= prev \/ k ∈ rest) ->
  exists start' prev' R' G',
    Mismatch.scan rest start prev R G = (start', prev', R', G')
    /\ scan_inv P m start' prev' R' G'
    /\ (forall k, P k -> k <= prev')
    /\ last (prev :: rest) = Some prev'.
Proof.
  induction rest as [|c rest IH]; intros start prev R G Hinv Hs Hin Hlow.
  - exists start, prev, R, G.
    split; [reflexivity|]. split; [assumption|]. split; [|reflexivity].
    intros k Hk. destruct (Hlow k Hk) as [?|H]; [assumption|]. inversion H.
  - apply StronglySorted_cons in Hs as [Hprev Hs].
    assert (Hpc : prev < c) by (rewrite Forall_forall in Hprev; apply Hprev; left).
    assert (Hc : P c) by (apply Hin; left).
    assert (Hin' : forall k, k ∈ rest -> P k) by (intros k Hk; apply Hin; now right).
    assert (Hrest : forall k, k ∈ rest -> c < k).
    { apply StronglySorted_cons in Hs as [Hf _].
      rewrite Forall_forall in Hf. exact Hf. }
    assert (Hlow' : forall k, P k -> k <= c \/ k ∈ rest).
    { intros k Hk. destruct (Hlow k Hk) as [?|H]; [left; lia|].
      apply elem_of_cons in H as [->|H]; [left; lia | now right]. }
    assert (Hgap : forall k, prev < k < c -> ~ P k).
    { intros k Hk HP. destruct (Hlow k HP) as [?|H]; [lia|].
      apply elem_of_cons in H as [->|H]; [lia|]. specialize (Hrest k H). lia. }
    cbn [Mismatch.scan]. destruct (c =? prev + 1) eqn:E; cbn [negb].
    + apply Z.eqb_eq in E.
      destruct (IH start c R G) as (s' & p' & R' & G' & Heq & Hinv' & Hmax & Hlast);
        [now apply (scan_inv_extend P m start prev) | assumption..|].
      exists s', p', R', G'. now repeat (split; [assumption|]).
    + apply Z.eqb_neq in E.
      assert (Hlt : (1 <? c - prev) = true) by (apply Z.ltb_lt; lia).
      rewrite Hlt.
      destruct (IH c c (R ++ [(start, prev)]) (G ++ [(prev + 1, c - 1)]))
        as (s' & p' & R' & G' & Heq & Hinv' & Hmax & Hlast);
        [apply scan_inv_restart; [assumption | lia | assumption..] | assumption..|].
      exists s', p', R', G'. now repeat (split; [assumption|]).
Qed.

Lemma present_run_unique P r r' k :
  present_run P r -> present_run P r' ->
  r.1 <= k <= r.2 -> r'.1 <= k <= r'.2 -> r = r'.
Proof.
  destruct r as [a b], r' as [a' b']. unfold present_run. simpl.
  intros (Hab & Hin & Hl & Hr) (Hab' & Hin' & Hl' & Hr') Hk Hk'.
  assert (a = a').
  { destruct (Z_lt_dec a a'); [exfalso; apply Hl', Hin; lia|].
    destruct (Z_lt_dec a' a); [exfalso; apply Hl, Hin'; lia|]. lia. }
  assert (b = b').
  { destruct (Z_lt_dec b b'); [exfalso; apply Hr, Hin'; lia|].
    destruct (Z_lt_dec b' b); [exfalso; apply Hr', Hin; lia|]. lia. }
  congruence.
Qed.

Lemma absent_run_unique P r r' k :
  absent_run P r -> absent_run P r' ->
  r.1 <= k <= r.2 -> r'.1 <= k <= r'.2 -> r = r'.
Proof.
  destruct r as [a b], r' as [a' b']. unfold absent_run. simpl.
  intros (Hab & Hin & Hl & Hr) (Hab' & Hin' & Hl' & Hr') Hk Hk'.
  assert (a = a').
  { destruct (Z_lt_dec a a'); [exfalso; apply (Hin (a' - 1)); [lia|assumption]|].
    destruct (Z_lt_dec a' a); [exfalso; apply (Hin' (a - 1)); [lia|assumption]|]. lia. }
  assert (b = b').
  { destruct (Z_lt_dec b b'); [exfalso; apply (Hin' (b + 1)); [lia|assumption]|].
    destruct (Z_lt_dec b' b); [exfalso; apply (Hin (b' + 1)); [lia|assumption]|]. lia. }
  congruence.
Qed.

Lemma scan_final P m start prev R G :
  scan_inv P m start prev R G ->
  (forall k, P k -> m <= k <= prev) ->
  (forall r, r ∈ R ++ [(start, prev)] <-> present_run P r)
  /\ ascending (R ++ [(start, prev)])
  /\ (forall r, r ∈ G <-> absent_run P r)
  /\ ascending G.
Proof.
  intros (H1 & H2 & H3 & H4 & H5 & H6 & H7 & H8 & H9 & H10 & H11 & H12) Hb.
  assert (Hlast : present_run P (start, prev)).
  { repeat split; simpl; [assumption..|]. intros HP. apply Hb in HP. lia. }
  assert (Hall : Forall (present_run P) (R ++ [(start, prev)])).
  { apply Forall_app. split; [assumption | now apply Forall_singleton]. }
  split; [|split; [|split]].
  - intros r. split.
    + intros Hr. rewrite Forall_forall in Hall. now apply Hall.
    + intros Hr. assert (HP : P r.1) by (apply Hr; destruct Hr; lia).
      assert (Hc : covers (R ++ [(start, prev)]) r.1).
      { apply covers_app. destruct (Z_lt_dec r.1 start); [left; now apply H6|].
        right. apply covers_one. simpl. specialize (Hb _ HP). lia. }
      destruct Hc as (r' & Hr' & Hk).
      rewrite Forall_forall in Hall.
      rewrite (present_run_unique P r r' r.1); [assumption | assumption | now apply Hall | | assumption].
      destruct Hr; lia.
  - apply ascending_snoc; [assumption|].
    eapply Forall_impl; [exact H7|]. simpl. intros; lia.
  - intros r. split.
    + intros Hr. rewrite Forall_forall in H9. now apply H9.
    + intros Hr. pose proof Hr as (Hab & Hin & Hl & Hrr).
      apply Hb in Hl. apply Hb in Hrr.
      assert (Hlt : r.1 < start).
      { destruct (Z_lt_dec r.1 start); [assumption|].
        exfalso. apply (Hin r.1); [lia|]. apply H3. lia. }
      destruct (H10 r.1) as (r' & Hr' & Hk); [lia | apply Hin; lia |].
      rewrite Forall_forall in H9.
      rewrite (absent_run_unique P r r' r.1); [assumption | assumption | now apply H9 | lia | assumption].
  - assumption.
Qed.

(** With its guard [find_gaps_and_ranges] returns for every set. *)
Lemma find_gaps_and_ranges_returns (S : gset Z) :
  exists p, Mismatch.find_gaps_and_ranges S = Return p.
Proof.
  unfold Mismatch.find_gaps_and_ranges.
  destruct (decide (S = ∅)) as [?|Hne]; [eauto|].
  destruct (sorted_elements S) as (_ & Hm & _).
  destruct (sorted (elements S)) as [|x0 rest] eqn:EL.
  { exfalso. apply Hne. apply set_eq. intros k. rewrite <- Hm.
    split; intros H; inversion H. }
  unfold Mismatch.first_item, Mismatch.last_item.
  destruct (last (x0 :: rest)) as [mx|] eqn:El.
  - cbn [bind tail].
    destruct (Mismatch.scan rest x0 x0 [] []) as [[[start prev] R] G]. eauto.
  - apply last_None in El. discriminate.
Qed.

(** C9.  For a set of keys that is not empty, [find_gaps_and_ranges]
    returns the least and the greatest key, as ranges exactly the maximal
    runs of consecutive present keys, as gaps exactly the maximal runs of
    consecutive absent keys between two present keys, each run as one
    [(start, end)] pair and both lists in ascending order, and as missing
    count [(max - min + 1)] minus the number of keys. *)
Theorem gaps_and_ranges_exact (S : gset Z) :
  S <> ∅ ->
  exists p mn mx,
    Mismatch.find_gaps_and_ranges S = Return p
    /\ Mismatch.min p = Some mn /\ Mismatch.max p = Some mx
    /\ mn ∈ S /\ mx ∈ S /\ (forall k, k ∈ S -> mn <= k <= mx)
    /\ (forall r, r ∈ Mismatch.ranges p <-> present_run (fun k => k ∈ S) r)
    /\ ascending (Mismatch.ranges p)
    /\ (forall r, r ∈ Mismatch.gaps p <-> absent_run (fun k => k ∈ S) r)
    /\ ascending (Mismatch.gaps p)
    /\ Mismatch.missing_count p = Some ((mx - mn + 1) - Z.of_nat (size S)).
Proof.
  intros Hne. unfold Mismatch.find_gaps_and_ranges.
  destruct (decide (S = ∅)) as [?|_]; [contradiction|].
  destruct (sorted_elements S) as (Hs & Hm & _).
  destruct (sorted (elements S)) as [|x0 rest] eqn:EL.
  { exfalso. apply Hne. apply set_eq. intros k. rewrite <- Hm.
    split; intros H; inversion H. }
  pose proof Hs as Hs'. apply StronglySorted_cons in Hs' as [Hx0 _].
  rewrite Forall_forall in Hx0.
  assert (Hleast : forall k, k ∈ S -> x0 <= k).
  { intros k Hk. apply Hm in Hk. apply elem_of_cons in Hk as [->|Hk]; [lia|].
    specialize (Hx0 k Hk). lia. }
  assert (Hmem0 : x0 ∈ S) by (apply Hm; left).
  destruct (scan_spec (fun k => k ∈ S) x0 rest x0 x0 [] [])
    as (s' & p' & R' & G' & Heq & Hinv & Hmax & Hlast).
  { unfold scan_inv. repeat apply conj; try constructor; try lia.
    - intros k Hk. now replace k with x0 by lia.
    - intros HP. apply Hleast in HP. lia.
    - intros k Hk Hlt. apply Hleast in Hk. lia. }
  { assumption. }
  { intros k Hk. apply Hm. now right. }
  { intros k Hk. apply Hm in Hk. apply elem_of_cons in Hk as [->|Hk]; [left; lia | now right]. }
  assert (Hp' : p' ∈ S).
  { destruct Hinv as (_ & Hsp & Hrun & _). apply Hrun. lia. }
  destruct (scan_final _ _ _ _ _ _ Hinv) as (HR & HRa & HG & HGa).
  { intros k Hk. split; [now apply Hleast | now apply Hmax]. }
  unfold Mismatch.first_item, Mismatch.last_item. rewrite Hlast.
  cbn [bind tail]. rewrite Heq.
  eexists _, x0, p'. split; [reflexivity|]. cbn.
  repeat (split; [first [reflexivity | assumption]|]).
  split; [intros k Hk; split; [now apply Hleast | now apply Hmax]|].
  repeat (split; [assumption|]).
  reflexivity.
Qed.

Example gaps_and_ranges_sample :
  Mismatch.find_gaps_and_ranges {[1; 2; 3; 7; 8; 12]}
  = Return {| Mismatch.ranges := [(1, 3); (7, 8); (12, 12)];
              Mismatch.gaps := [(4, 6); (9, 11)];
              Mismatch.min := Some 1; Mismatch.max := Some 12;
              Mismatch.total_expected := Some 12;
              Mismatch.total_actual := Some 6;
              Mismatch.missing_count := Some 6 |}.
Proof. vm_compute. reflexivity. Qed.

Lemma gaps_and_ranges_exact_witness :
  exists p mn mx,
    Mismatch.find_gaps_and_ranges {[1; 2; 3; 7; 8; 12]} = Return p
    /\ Mismatch.min p = Some mn /\ Mismatch.max p = Some mx
    /\ Mismatch.missing_count p = Some ((mx - mn + 1) - 6).
Proof.
  destruct (gaps_and_ranges_exact {[1; 2; 3; 7; 8; 12]})
    as (p & mn & mx & H1 & H2 & H3 & _ & _ & _ & _ & _ & _ & _ & H4).
  - intros H. assert (H1 : (1 : Z) ∈ (∅ : gset Z)) by (rewrite <- H; set_solver).
    set_solver.
  - exists p, mn, mx. repeat (split; [assumption|]). exact H4.
Defined.

(** C10.  On the empty set [find_gaps_and_ranges] returns the dict with
    empty ranges and gaps and no minimum and maximum; the guard is what
    keeps it from indexing the empty sorted sequence, and with it the
    function returns for every set. *)
Theorem gaps_and_ranges_total :
  Mismatch.find_gaps_and_ranges ∅
  = Return {| Mismatch.ranges := []; Mismatch.gaps := [];
              Mismatch.min := None; Mismatch.max := None;
              Mismatch.total_expected := None;
              Mismatch.total_actual := None;
              Mismatch.missing_count := None |}
  /\ Mismatch.first_item (sorted (elements (∅ : gset Z))) = Raise IndexError
  /\ forall S : gset Z, exists p, Mismatch.find_gaps_and_ranges S = Return p.
Proof.
  split; [|split].
  - unfold Mismatch.find_gaps_and_ranges.
    destruct (decide ((∅ : gset Z) = ∅)); [reflexivity | contradiction].
  - reflexivity.
  - apply find_gaps_and_ranges_returns.
Qed.

(** ** Payload extraction *)

Lemma lookup_nonempty k d (v : json) : lookup_key k d = Some v -> truthy (JObj d) = true.
Proof. destruct d; [discriminate|reflexivity]. Qed.

Lemma has_truthy_obj k d v :
  lookup_key k d = Some v -> has_truthy k (JObj d) = Return (truthy v).
Proof. intros H. unfold has_truthy, py_in, getitem. now rewrite H. Qed.

Lemma has_truthy_lacks k d :
  lookup_key k d = None -> has_truthy k (JObj d) = Return false.
Proof. intros H. unfold has_truthy, py_in. now rewrite H. Qed.

Lemma getitem_obj k d v : lookup_key k d = Some v -> getitem (JObj d) k = Return v.
Proof. intros H. unfold getitem. now rewrite H. Qed.

Lemma py_in_obj k d v : lookup_key k d = Some v -> py_in k (JObj d) = Return true.
Proof. intros H. unfold py_in. now rewrite H. Qed.

Section Extraction.
Context `{Runtime}.

(** One step down a path of nested dicts: the test [k in v and v[k]]
    succeeds on the dict found under [H], which is not empty because it has
    the key of [Hnext], and [v[k]] is then read. *)
Ltac enter H Hnext :=
  rewrite (has_truthy_obj _ _ _ H), (lookup_nonempty _ _ _ Hnext);
  cbn [bind negb];
  rewrite (getitem_obj _ _ _ H);
  cbn [bind].

Ltac first_of_list x more :=
  replace (0 <? Z.of_nat (length (x :: more))) with true
    by (symmetry; apply Z.ltb_lt; simpl; lia).

Lemma shape_B_run e text :
  has_shape_B e text ->
  Extract.shape_B e
  = (s <- Extract.parse_text Re.search_fence3 (fun t => t) text;; Return (Some s)).
Proof.
  intros (d & rd & md & fd & more & -> & H1 & H2 & H3 & H4).
  unfold Extract.shape_B.
  enter H1 H2. enter H2 H3.
  rewrite (has_truthy_obj _ _ _ H3). cbn [bind negb truthy].
  rewrite (getitem_obj _ _ _ H3). cbn [bind is_list negb len getitem0 is_dict].
  first_of_list (JObj fd) more.
  cbn [negb]. rewrite (py_in_obj _ _ _ H4). cbn [bind negb].
  now rewrite (getitem_obj _ _ _ H4).
Qed.

Lemma shape_A_run e text :
  has_shape_A e text ->
  Extract.shape_A e
  = if truthy text
    then (s <- Extract.parse_text Re.search_fence2 Extract.cleaned_content text;;
          Return (Some s))
    else Return None.
Proof.
  intros (d & rd & bd & cd & more & md & -> & H1 & H2 & H3 & H4 & H5).
  unfold Extract.shape_A, Extract.has_nonempty.
  enter H1 H2. enter H2 H3.
  rewrite (has_truthy_obj _ _ _ H3). cbn [bind negb truthy].
  rewrite (getitem_obj _ _ _ H3). cbn [bind len].
  first_of_list (JObj cd) more.
  cbn [bind negb getitem0].
  enter H4 H5.
  rewrite (has_truthy_obj _ _ _ H5). cbn [bind].
  destruct (truthy text); cbn [negb]; [|reflexivity].
  now rewrite (getitem_obj _ _ _ H5).
Qed.

Lemma shape_A_lacks e : lacks (lit "response") e -> Extract.shape_A e = Return None.
Proof.
  intros (d & -> & Hd). unfold Extract.shape_A.
  now rewrite (has_truthy_lacks _ _ Hd).
Qed.

Lemma shape_B_lacks e : lacks (lit "result") e -> Extract.shape_B e = Return None.
Proof.
  intros (d & -> & Hd). unfold Extract.shape_B.
  now rewrite (has_truthy_lacks _ _ Hd).
Qed.

Lemma text_field_str d v :
  lookup_key (lit "text") d = Some (JStr v) ->
  Extract.text_field (JObj d) = Return (Some (strip v)).
Proof.
  intros Hd. unfold Extract.text_field. cbn [is_dict].
  now rewrite (py_in_obj _ _ _ Hd), (getitem_obj _ _ _ Hd).
Qed.

Lemma parse_text_fenced find clean t g d v :
  find t = Some g ->
  json_loads (strip g) = Return (JObj d) ->
  lookup_key (lit "text") d = Some (JStr v) ->
  Extract.parse_text find clean (JStr t) = Return (strip v).
Proof.
  intros Hf Hl Hd. unfold Extract.parse_text, loads.
  rewrite Hf, Hl. cbn [bind]. now rewrite (text_field_str _ _ Hd).
Qed.

Lemma parse_text_raw find clean t :
  find t = None -> json_loads (clean t) = Raise JSONDecodeError ->
  Extract.parse_text find clean (JStr t) = Return (strip t).
Proof.
  intros Hf Hl. unfold Extract.parse_text, loads. now rewrite Hf, Hl.
Qed.

(** Whatever happens inside, the three extractors return a string. *)
Lemma extractors_return e :
  (exists s, MergedResults.extract_text_from_result e = Return s)
  /\ (exists s, InstructOutput.extract_text_from_result e = Return s)
  /\ (exists s, Mismatch.extract_text_from_result e = Return s).
Proof.
  unfold MergedResults.extract_text_from_result,
    InstructOutput.extract_text_from_result, Mismatch.extract_text_from_result.
  repeat split.
  - destruct (Extract.shape_B e) as [[s|]|x]; cbn; eauto.
  - destruct (Extract.shape_A e) as [[s|]|x]; cbn; eauto.
    destruct (Extract.shape_B e) as [[s|]|x]; cbn; eauto.
  - destruct (Extract.shape_A e) as [[s|]|x]; cbn; eauto.
Qed.

(** The two outcomes of the test [k in v and v[k]] on a dict. *)
Lemma has_truthy_stops k v : stops_at k v -> has_truthy k v = Return false.
Proof.
  intros (d & -> & [Hd|(x & Hd & Hx)]).
  - now apply has_truthy_lacks.
  - now rewrite (has_truthy_obj _ _ _ Hd), Hx.
Qed.

Lemma has_truthy_leads k v x :
  leads_to k v x -> has_truthy k v = Return true /\ getitem v k = Return x.
Proof.
  intros (d & -> & Hd & Hx). split.
  - now rewrite (has_truthy_obj _ _ _ Hd), Hx.
  - now apply getitem_obj.
Qed.

(** One step down a path: the test succeeds and the value is read. *)
Ltac follow H :=
  let Ht := fresh in let Hg := fresh in
  destruct (has_truthy_leads _ _ _ H) as [Ht Hg];
  rewrite Ht; cbn [bind negb]; rewrite Hg; cbn [bind]; clear Ht Hg.

Ltac stop H := rewrite (has_truthy_stops _ _ H); reflexivity.

Lemma shape_A_unmatched e : unmatched_A e -> Extract.shape_A e = Return None.
Proof.
  unfold Extract.shape_A.
  intros [H1|(r & H1 & [H2|(b & H2 & H3)])]; [stop H1 | follow H1; stop H2 |].
  follow H1. follow H2. unfold Extract.has_nonempty.
  destruct H3 as [H3|(c & more & H3 & H4)]; [stop H3|].
  follow H3. cbn [len bind]. first_of_list c more. cbn [bind negb getitem0].
  destruct H4 as [H4|(m & H4 & H5)]; [stop H4|].
  follow H4. stop H5.
Qed.

Lemma shape_B_unmatched e : unmatched_B e -> Extract.shape_B e = Return None.
Proof.
  unfold Extract.shape_B.
  intros [H1|(r & H1 & [H2|(m & H2 & H3)])]; [stop H1 | follow H1; stop H2 |].
  follow H1. follow H2.
  destruct H3 as [H3|(c & H3 & H4)]; [stop H3|].
  follow H3. destruct H4 as [->|(f & more & -> & H4)]; [reflexivity|].
  cbn [is_list negb len bind getitem0]. first_of_list f more. cbn [negb].
  destruct H4 as [->|(d & -> & Hd)]; [reflexivity|].
  cbn [is_dict negb py_in]. now rewrite Hd.
Qed.

Lemma lacks_stops k e : lacks k e -> stops_at k e.
Proof. intros (d & -> & Hd). exists d. auto. Qed.

(** The inner handler catches [JSONDecodeError] alone: another exception
    of [json.loads] leaves [parse_text]. *)
Lemma parse_text_fault find clean t x :
  find t = None -> json_loads (clean t) = Raise x -> is_JSONDecodeError x = false ->
  Extract.parse_text find clean (JStr t) = Raise x.
Proof.
  intros Hf Hl Hx. unfold Extract.parse_text, loads.
  rewrite Hf, Hl. cbn [bind try_except]. now rewrite Hx.
Qed.

End Extraction.

(** The text in front of the closing fence, when it has no line break. *)
Lemma lazy_until_one_line close inner tail :
  Forall (fun c => c <> newline) inner ->
  startswith tail (newline :: close) = true ->
  Re.lazy_until (newline :: close) (inner ++ tail) = Some inner.
Proof.
  intros Hin Htail. induction Hin as [|c inner Hc _ IH].
  - cbn [app]. destruct tail as [|x tail]; [discriminate Htail|].
    cbn [Re.lazy_until]. now rewrite Htail.
  - cbn [app Re.lazy_until]. unfold startswith at 1. cbn [strip_prefix].
    destruct (char_eqb newline c) eqn:E.
    + apply char_eqb_true in E. congruence.
    + now rewrite IH.
Qed.

Lemma ws_newline_group_one_line close inner tail :
  one_line inner ->
  startswith tail (newline :: close) = true ->
  Re.ws_newline_group (newline :: close) (newline :: inner ++ tail) = Some inner.
Proof.
  intros [Hnl Hfirst] Htail. destruct inner as [|c inner]; [contradiction|].
  cbn [Re.ws_newline_group app].
  change (isspace newline) with true. cbv iota. rewrite Hfirst.
  rewrite char_eqb_refl.
  now apply (lazy_until_one_line close (c :: inner) tail).
Qed.

Lemma search_fence_one_line inner post :
  one_line inner ->
  Re.search_fence2 (fenced inner post) = Some inner
  /\ Re.search_fence3 (fenced inner post) = Some inner.
Proof.
  intros Hone. split; apply search_here.
  - unfold Re.fence2_here, fenced.
    change (lit "```json" ++ [newline] ++ inner ++ [newline] ++ lit "```" ++ post)
      with (lit "``" ++ lit "`json" ++ newline :: inner ++ newline :: lit "```" ++ post).
    rewrite strip_prefix_app, strip_prefix_app.
    now rewrite (ws_newline_group_one_line (lit "``") inner (newline :: lit "```" ++ post)).
  - unfold Re.fence3_here, fenced.
    change (lit "```json" ++ [newline] ++ inner ++ [newline] ++ lit "```" ++ post)
      with (lit "```json" ++ newline :: inner ++ newline :: lit "```" ++ post).
    rewrite strip_prefix_app.
    now rewrite (ws_newline_group_one_line (lit "```") inner (newline :: lit "```" ++ post)).
Qed.

Lemma search_found_nonempty f t (g : str) :
  f [] = None -> Re.search f t = Some g -> truthy (JStr t) = true.
Proof. intros Hf Hs. destruct t; [simpl in Hs; rewrite Hf in Hs; discriminate | reflexivity]. Qed.

(** An exception raised under way ends in the outer handler. *)
Lemma extract_handlers `{Runtime} (e : json) (x : exn) :
  (Extract.shape_B e = Raise x ->
   MergedResults.extract_text_from_result e = Return [])
  /\ (Extract.shape_A e = Raise x ->
      Mismatch.extract_text_from_result e
      = Return (Mismatch.error_prefix ++ lit ": " ++ exn_str x)
      /\ InstructOutput.extract_text_from_result e = Return [])
  /\ (Extract.shape_A e = Return None -> Extract.shape_B e = Raise x ->
      InstructOutput.extract_text_from_result e = Return []).
Proof.
  unfold MergedResults.extract_text_from_result,
    InstructOutput.extract_text_from_result, Mismatch.extract_text_from_result.
  split; [|split].
  - now intros ->.
  - intros ->. now split.
  - now intros -> ->.
Qed.

Lemma bare_text_shape_A `{Runtime} (e : json) (Y : str) :
  has_shape_A e (JStr Y) ->
  Re.search_fence2 Y = None ->
  json_loads (Extract.cleaned_content Y) = Raise JSONDecodeError ->
  Mismatch.extract_text_from_result e = Return (strip Y)
  /\ (Y <> [] -> InstructOutput.extract_text_from_result e = Return (strip Y)).
Proof.
  intros Hshape Hfind Hjson.
  unfold Mismatch.extract_text_from_result, InstructOutput.extract_text_from_result.
  rewrite (shape_A_run _ _ Hshape).
  destruct Y as [|c Y]; cbn [truthy].
  - split; [reflexivity | contradiction].
  - rewrite (parse_text_raw _ _ _ Hfind Hjson). split; reflexivity.
Qed.

(** C6, as amended.  The three extractors return a string for every
    envelope.  On an envelope of the shape that the script reads, with a
    text [Y] in which no fenced block is found and on which [json.loads]
    raises [JSONDecodeError], the extractor returns [Y] trimmed: shape B in
    [merged_results.py], shape A in [mismatch.py], shape A and then shape B
    in [instructOutput.py].  When [json.loads] raises another exception on
    [Y], and whenever an exception is raised under way, the outer handler
    returns the empty string, in [mismatch.py] the text that begins with
    [ERROR_EXTRACTING].  An envelope in which the shape does not match
    yields the empty string; [mismatch.py] does not read shape B, so that
    it returns the empty string on an envelope of shape B that has no
    [response]. *)
Theorem extraction_degrades_gracefully `{Runtime} (e : json) :
  ((exists s, MergedResults.extract_text_from_result e = Return s)
   /\ (exists s, InstructOutput.extract_text_from_result e = Return s)
   /\ (exists s, Mismatch.extract_text_from_result e = Return s))
  /\ (forall Y, has_shape_B e (JStr Y) -> Re.search_fence3 Y = None ->
        (json_loads Y = Raise JSONDecodeError ->
         MergedResults.extract_text_from_result e = Return (strip Y)
         /\ (unmatched_A e ->
             InstructOutput.extract_text_from_result e = Return (strip Y)))
        /\ (forall x, json_loads Y = Raise x -> is_JSONDecodeError x = false ->
              MergedResults.extract_text_from_result e = Return []
              /\ (unmatched_A e ->
                  InstructOutput.extract_text_from_result e = Return [])))
  /\ (forall Y, has_shape_A e (JStr Y) -> Y <> [] -> Re.search_fence2 Y = None ->
        (json_loads (Extract.cleaned_content Y) = Raise JSONDecodeError ->
         Mismatch.extract_text_from_result e = Return (strip Y)
         /\ InstructOutput.extract_text_from_result e = Return (strip Y))
        /\ (forall x, json_loads (Extract.cleaned_content Y) = Raise x ->
              is_JSONDecodeError x = false ->
              Mismatch.extract_text_from_result e
              = Return (Mismatch.error_prefix ++ lit ": " ++ exn_str x)
              /\ InstructOutput.extract_text_from_result e = Return []))
  /\ (forall x,
        (Extract.shape_B e = Raise x ->
         MergedResults.extract_text_from_result e = Return [])
        /\ (Extract.shape_A e = Raise x ->
            Mismatch.extract_text_from_result e
            = Return (Mismatch.error_prefix ++ lit ": " ++ exn_str x)
            /\ InstructOutput.extract_text_from_result e = Return []))
  /\ (unmatched_B e -> MergedResults.extract_text_from_result e = Return [])
  /\ (unmatched_A e ->
      Mismatch.extract_text_from_result e = Return []
      /\ (unmatched_B e -> InstructOutput.extract_text_from_result e = Return [])).
Proof.
  split; [apply extractors_return|].
  split; [|split; [|split; [|split]]].
  - intros Y Hshape Hfind. split.
    + intros Hjson.
      assert (HB : Extract.shape_B e = Return (Some (strip Y))).
      { rewrite (shape_B_run _ _ Hshape), (parse_text_raw _ _ _ Hfind Hjson).
        reflexivity. }
      split.
      * unfold MergedResults.extract_text_from_result. now rewrite HB.
      * intros Hun. unfold InstructOutput.extract_text_from_result.
        now rewrite (shape_A_unmatched _ Hun), HB.
    + intros x Hjson Hx.
      assert (HB : Extract.shape_B e = Raise x).
      { rewrite (shape_B_run _ _ Hshape), (parse_text_fault _ _ _ _ Hfind Hjson Hx).
        reflexivity. }
      destruct (extract_handlers e x) as (HM & _ & HI).
      split; [now apply HM|]. intros Hun. apply HI; [|assumption].
      now apply shape_A_unmatched.
  - intros Y Hshape HY Hfind. split.
    + intros Hjson. destruct (bare_text_shape_A e Y Hshape Hfind Hjson) as [HM HI].
      split; [assumption | now apply HI].
    + intros x Hjson Hx.
      assert (HA : Extract.shape_A e = Raise x).
      { rewrite (shape_A_run _ _ Hshape). destruct Y as [|c Y]; [contradiction|].
        cbn [truthy]. now rewrite (parse_text_fault _ _ _ _ Hfind Hjson Hx). }
      now apply (extract_handlers e x).
  - intros x. destruct (extract_handlers e x) as (HM & HA & _). now split.
  - intros Hun. unfold MergedResults.extract_text_from_result.
    now rewrite (shape_B_unmatched _ Hun).
  - intros Hun. unfold Mismatch.extract_text_from_result,
      InstructOutput.extract_text_from_result.
    rewrite (shape_A_unmatched _ Hun). split; [reflexivity|].
    intros HunB. now rewrite (shape_B_unmatched _ HunB).
Qed.

Lemma extraction_degrades_gracefully_witness :
  @MergedResults.extract_text_from_result Reference.runtime
     (line_B (lit "ns_output_line_3") (lit " Y "))
  = Return (lit "Y")
  /\ @MergedResults.extract_text_from_result Reference.runtime
       (line_B (lit "ns_output_line_3") Sample.deep)
     = Return []
  /\ @Mismatch.extract_text_from_result Reference.runtime
       (line_A (lit "ns_line_3") (lit " Y "))
     = Return (lit "Y").
Proof.
  pose proof (@extraction_degrades_gracefully Reference.runtime
                (line_B (lit "ns_output_line_3") (lit " Y ")))
    as (_ & HB & _).
  pose proof (@extraction_degrades_gracefully Reference.runtime
                (line_B (lit "ns_output_line_3") Sample.deep))
    as (_ & HD & _).
  pose proof (@extraction_degrades_gracefully Reference.runtime
                (line_A (lit "ns_line_3") (lit " Y ")))
    as (_ & _ & HA & _).
  split; [|split].
  - refine (proj1 (proj1 (HB (lit " Y ") _ _) _)).
    + unfold has_shape_B, line_B. repeat eexists.
    + reflexivity.
    + reflexivity.
  - refine (proj1 (proj2 (HD Sample.deep _ _) RecursionError _ _)).
    + unfold has_shape_B, line_B. repeat eexists.
    + vm_compute. reflexivity.
    + vm_compute. reflexivity.
    + reflexivity.
  - refine (proj1 (proj1 (HA (lit " Y ") _ _ _) _)).
    + unfold has_shape_A, line_A. repeat eexists.
    + discriminate.
    + reflexivity.
    + reflexivity.
Defined.

(** C6 as stated has the bare text of a shape-B envelope returned by the
    extractor.  [mismatch.py] reads shape A only: on the shape-B envelope
    with the text [Y], which is not JSON, it returns the empty string,
    where [merged_results.py] returns [Y].  And [merged_results.py]
    itself returns the empty string for the text of two thousand opening
    brackets, which is not JSON either: [json.loads] raises
    [RecursionError] on it, which the inner handler does not catch. *)
Lemma bare_text_is_not_always_returned :
  has_shape_B (line_B (lit "ns_output_line_3") (lit "Y")) (JStr (lit "Y"))
  /\ Reference.parse (lit "Y") = Raise JSONDecodeError
  /\ @MergedResults.extract_text_from_result Reference.runtime
       (line_B (lit "ns_output_line_3") (lit "Y")) = Return (lit "Y")
  /\ @Mismatch.extract_text_from_result Reference.runtime
       (line_B (lit "ns_output_line_3") (lit "Y")) = Return []
  /\ has_shape_B (line_B (lit "ns_output_line_3") Sample.deep) (JStr Sample.deep)
  /\ Reference.parse Sample.deep = Raise RecursionError
  /\ @MergedResults.extract_text_from_result Reference.runtime
       (line_B (lit "ns_output_line_3") Sample.deep) = Return []
  /\ strip Sample.deep <> [].
Proof.
  split; [unfold has_shape_B, line_B; repeat eexists|].
  split; [reflexivity|]. split; [reflexivity|]. split; [reflexivity|].
  split; [unfold has_shape_B, line_B; repeat eexists|].
  split; [vm_compute; reflexivity|]. split; [vm_compute; reflexivity|].
  vm_compute. discriminate.
Qed.

(** C7, as amended.  When the pattern of the source finds a fenced block
    in the payload text (the opening fence carries the tag [json]) and the
    enclosed text, trimmed, parses as a JSON object whose ["text"] value is
    a string, the extractors that read the shape of the envelope return
    that value, trimmed.  A [```json] fence around a one-line text is such
    a block, and the enclosed text is that line. *)
Theorem fenced_json_text_extracted `{Runtime} (e : json) (t g v : str)
    (d : list (str * json)) :
  json_loads (strip g) = Return (JObj d) ->
  lookup_key (lit "text") d = Some (JStr v) ->
  (has_shape_A e (JStr t) -> Re.search_fence2 t = Some g ->
     Mismatch.extract_text_from_result e = Return (strip v)
     /\ InstructOutput.extract_text_from_result e = Return (strip v))
  /\ (has_shape_B e (JStr t) -> Re.search_fence3 t = Some g ->
        MergedResults.extract_text_from_result e = Return (strip v)
        /\ (lacks (lit "response") e ->
            InstructOutput.extract_text_from_result e = Return (strip v)))
  /\ (forall inner post, one_line inner ->
        Re.search_fence2 (fenced inner post) = Some inner
        /\ Re.search_fence3 (fenced inner post) = Some inner).
Proof.
  intros Hjson Htext. split; [|split].
  - intros Hshape Hfind.
    assert (HA : Extract.shape_A e = Return (Some (strip v))).
    { rewrite (shape_A_run _ _ Hshape).
      rewrite (search_found_nonempty Re.fence2_here t g eq_refl Hfind).
      now rewrite (parse_text_fenced _ _ _ _ _ _ Hfind Hjson Htext). }
    unfold Mismatch.extract_text_from_result, InstructOutput.extract_text_from_result.
    now rewrite HA.
  - intros Hshape Hfind.
    assert (HB : Extract.shape_B e = Return (Some (strip v))).
    { rewrite (shape_B_run _ _ Hshape).
      now rewrite (parse_text_fenced _ _ _ _ _ _ Hfind Hjson Htext). }
    unfold MergedResults.extract_text_from_result, InstructOutput.extract_text_from_result.
    rewrite HB. split; [reflexivity|].
    intros Hlacks. now rewrite (shape_A_lacks _ Hlacks).
  - apply search_fence_one_line.
Qed.

(** A chat-completion envelope whose content wraps [{"text": "X"}] in a
    [```json] block extracts to [X]. *)
Lemma fenced_json_text_extracted_witness :
  @Mismatch.extract_text_from_result Reference.runtime
     (line_A (lit "ns_line_3") (fenced (Reference.text "{'text': 'X'}") []))
  = Return (lit "X").
Proof.
  refine (proj1 (proj1 (@fenced_json_text_extracted Reference.runtime
            (line_A (lit "ns_line_3") (fenced (Reference.text "{'text': 'X'}") []))
            (fenced (Reference.text "{'text': 'X'}") [])
            (Reference.text "{'text': 'X'}") (lit "X")
            [(lit "text", JStr (lit "X"))] _ _) _ _)).
  - reflexivity.
  - reflexivity.
  - unfold has_shape_A, line_A. repeat eexists.
  - reflexivity.
Defined.

(** C7 as stated fails for a fence without a language tag: the enclosed
    text parses as an object with a ["text"] key, and still the whole raw
    text comes back, fences included.  It also fails, inside a [```json]
    fence, for a ["text"] value that is not a string: [strip] raises, and
    the result is the empty string or a text that begins with
    [ERROR_EXTRACTING]. *)
Lemma untagged_fence_stays_raw :
  Sample.untagged
  = lit "```" ++ [newline] ++ Reference.text "{'text': 'X'}" ++ [newline] ++ lit "```"
  /\ Reference.decode (Reference.text "{'text': 'X'}")
     = Some (JObj [(lit "text", JStr (lit "X"))])
  /\ @Mismatch.extract_text_from_result Reference.runtime
       (line_A (lit "ns_line_3") Sample.untagged) = Return Sample.untagged
  /\ @InstructOutput.extract_text_from_result Reference.runtime
       (line_A (lit "ns_line_3") Sample.untagged) = Return Sample.untagged
  /\ @MergedResults.extract_text_from_result Reference.runtime
       (line_B (lit "ns_line_3") Sample.untagged) = Return Sample.untagged
  /\ Sample.untagged <> lit "X"
  /\ Reference.decode (Reference.text "{'text': 5}")
     = Some (JObj [(lit "text", JInt 5)])
  /\ @MergedResults.extract_text_from_result Reference.runtime
       (line_B (lit "ns_line_3") (fenced (Reference.text "{'text': 5}") []))
     = Return []
  /\ match @Mismatch.extract_text_from_result Reference.runtime
             (line_A (lit "ns_line_3") (fenced (Reference.text "{'text': 5}") [])) with
     | Return t => Mismatch.is_failed t
     | Raise _ => false
     end = true.
Proof.
  repeat split; try (vm_compute; reflexivity).
  vm_compute. discriminate.
Qed.

(** ** The analysis loop *)

Section Analysis.
Context `{Runtime}.

Lemma analyze_loop_observed : forall results i st st',
  Mismatch.analyze_loop i results st = Return st' ->
  exists obs, observe_all i results = Return obs /\ st' = record_all i obs st.
Proof.
  induction results as [|r rest IH]; intros i st st' Hrun.
  - injection Hrun as <-. now exists [].
  - cbn [Mismatch.analyze_loop] in Hrun. unfold Mismatch.analyze_entry in Hrun.
    destruct (Mismatch.observe i r) as [o|x] eqn:Ho; [|discriminate].
    cbn [bind] in Hrun. destruct (IH _ _ _ Hrun) as (os & Hos & ->).
    exists (o :: os). cbn [observe_all record_all]. now rewrite Ho, Hos.
Qed.

Lemma record_entry_tallies i o a counts :
  let a' := (Mismatch.record_entry i o (a, counts)).1 in
  Mismatch.failed_extractions a'
    = Mismatch.failed_extractions a + (if counted_failed o then 1 else 0)
  /\ Mismatch.empty_extractions a'
     = Mismatch.empty_extractions a + (if counted_empty o then 1 else 0)
  /\ Mismatch.successful_extractions a'
     = Mismatch.successful_extractions a + (if counted_successful o then 1 else 0)
  /\ Mismatch.total_entries a' = Mismatch.total_entries a
  /\ Mismatch.duplicate_line_numbers a' = Mismatch.duplicate_line_numbers a.
Proof.
  unfold counted_failed, counted_empty, counted_successful, Mismatch.record_entry.
  destruct (Mismatch.ob_line_num o); cbn;
    destruct (Mismatch.is_failed _), (Mismatch.is_blank _); cbn;
    repeat split; first [reflexivity | lia].
Qed.

Lemma count_if_cons {A} (f : A -> bool) x l :
  count_if f (x :: l) = (if f x then 1 else 0) + count_if f l.
Proof. unfold count_if. simpl. destruct (f x); simpl; lia. Qed.

Lemma record_all_tallies : forall obs i a counts,
  let a' := (record_all i obs (a, counts)).1 in
  Mismatch.failed_extractions a'
    = Mismatch.failed_extractions a + count_if counted_failed obs
  /\ Mismatch.empty_extractions a'
     = Mismatch.empty_extractions a + count_if counted_empty obs
  /\ Mismatch.successful_extractions a'
     = Mismatch.successful_extractions a + count_if counted_successful obs
  /\ Mismatch.total_entries a' = Mismatch.total_entries a
  /\ Mismatch.duplicate_line_numbers a' = Mismatch.duplicate_line_numbers a.
Proof.
  induction obs as [|o os IH]; intros i a counts.
  - cbn. unfold count_if. cbn. repeat split; first [reflexivity | lia].
  - cbn [record_all].
    destruct (Mismatch.record_entry i o (a, counts)) as [a1 c1] eqn:E.
    pose proof (record_entry_tallies i o a counts) as Hstep.
    rewrite E in Hstep. cbn [fst] in Hstep.
    destruct Hstep as (F & Em & Su & To & Du).
    destruct (IH (i + 1) a1 c1) as (F' & Em' & Su' & To' & Du').
    rewrite !count_if_cons.
    repeat split; [rewrite F', F | rewrite Em', Em | rewrite Su', Su
                   | rewrite To', To | rewrite Du', Du]; try reflexivity; lia.
Qed.

Lemma observe_all_length : forall results i obs,
  observe_all i results = Return obs -> length obs = length results.
Proof.
  induction results as [|r rest IH]; intros i obs Hobs.
  - now injection Hobs as <-.
  - cbn [observe_all] in Hobs.
    destruct (Mismatch.observe i r) as [o|x]; [|discriminate].
    cbn [bind] in Hobs.
    destruct (observe_all (i + 1) rest) as [os|x] eqn:Hos; [|discriminate].
    injection Hobs as <-. simpl. f_equal. now apply (IH (i + 1)).
Qed.

Lemma count_if_partition (obs : list Mismatch.observation) :
  count_if counted_failed obs + count_if counted_empty obs
  + count_if counted_successful obs = Z.of_nat (length obs).
Proof.
  induction obs as [|o os IH]; [reflexivity|].
  rewrite !count_if_cons. cbn [length]. rewrite Nat2Z.inj_succ.
  unfold counted_failed, counted_empty, counted_successful in *.
  destruct (Mismatch.is_failed _), (Mismatch.is_blank _); cbn; lia.
Qed.

(** Each observation holds the text extracted from its entry. *)
Lemma observe_all_texts : forall results i obs,
  observe_all i results = Return obs ->
  Forall2 (fun r o => Mismatch.extract_text_from_result r = Return (Mismatch.ob_text o))
    results obs.
Proof.
  induction results as [|r rest IH]; intros i obs Hobs.
  - injection Hobs as <-. constructor.
  - cbn [observe_all] in Hobs.
    destruct (Mismatch.observe i r) as [o|x] eqn:Ho; [|discriminate].
    cbn [bind] in Hobs.
    destruct (observe_all (i + 1) rest) as [os|x] eqn:Hos; [|discriminate].
    injection Hobs as <-. constructor; [|now apply (IH (i + 1))].
    unfold Mismatch.observe in Ho.
    destruct (get_custom_id r _) as [cid|x]; [|discriminate]. cbn [bind] in Ho.
    destruct (Mismatch.extract_line_number_from_custom_id cid) as [n|x]; [|discriminate].
    cbn [bind] in Ho.
    destruct (Mismatch.extract_text_from_result r) as [t|x]; [|discriminate].
    now injection Ho as <-.
Qed.

(** How a trimmed text is counted when it does not begin with the error
    prefix: empty when nothing is left of it, successful otherwise. *)
Lemma is_blank_strip (Y : str) :
  Mismatch.is_blank (strip Y) = bool_decide (strip Y = []).
Proof.
  unfold Mismatch.is_blank, str_eqb. rewrite strip_strip.
  destruct (strip Y); [reflexivity|]. now rewrite bool_decide_eq_false_2.
Qed.

(** The texts that the extractor of [mismatch.py] returns: the error text
    for an exception raised under way, the empty string for an envelope in
    which the shape does not match, the trimmed raw text after a JSON
    decode failure. *)
Lemma mismatch_extract_cases (e : json) :
  (forall x, Extract.shape_A e = Raise x ->
     Mismatch.extract_text_from_result e
     = Return (Mismatch.error_prefix ++ lit ": " ++ exn_str x)
     /\ Mismatch.is_failed (Mismatch.error_prefix ++ lit ": " ++ exn_str x) = true)
  /\ (unmatched_A e -> Mismatch.extract_text_from_result e = Return [])
  /\ (forall Y, has_shape_A e (JStr Y) -> Y <> [] ->
        Re.search_fence2 Y = None ->
        json_loads (Extract.cleaned_content Y) = Raise JSONDecodeError ->
        Mismatch.extract_text_from_result e = Return (strip Y)).
Proof.
  unfold Mismatch.extract_text_from_result. split; [|split].
  - intros x Hx. rewrite Hx. split; [reflexivity|].
    unfold Mismatch.is_failed, startswith. now rewrite strip_prefix_app.
  - intros Hun. now rewrite (shape_A_unmatched _ Hun).
  - intros Y Hshape HY Hfind Hjson. rewrite (shape_A_run _ _ Hshape).
    destruct Y as [|c Y]; [contradiction|]. cbn [truthy].
    now rewrite (parse_text_raw _ _ _ Hfind Hjson).
Qed.

(** C8, as amended.  In the analysis of a file every entry is counted in
    exactly one of three tallies, by its extracted text alone: failed when
    the text begins with [ERROR_EXTRACTING]; empty when it is not failed
    and is blank after trimming; successful otherwise.  The three tallies
    add up to the number of entries.  An exception raised during
    extraction yields a text that begins with [ERROR_EXTRACTING], so that
    the entry is counted failed.  An envelope in which the shape does not
    match, the path [response], [body], [choices], first choice,
    [message], [content] ending at a key that is absent or whose value is
    falsy, yields the empty string and is counted empty.  A content [Y]
    in which no fenced block is found and on which [json.loads] raises
    [JSONDecodeError] yields [Y] trimmed, which is counted successful
    unless nothing is left of it, when it is counted empty, or it begins
    with [ERROR_EXTRACTING], when it is counted failed.  The extractor of
    [merged_results.py] marks nothing: it returns the empty string for an
    envelope in which its shape does not match and for an exception raised
    during extraction alike. *)
Theorem tallies_follow_extracted_text (results : list json) (a : Mismatch.analysis) :
  Mismatch.analyze_results results = Return a ->
  (exists obs,
     observe_all 0 results = Return obs
     /\ Forall2 (fun r o => Mismatch.extract_text_from_result r
                            = Return (Mismatch.ob_text o)) results obs
     /\ Mismatch.failed_extractions a = count_if counted_failed obs
     /\ Mismatch.empty_extractions a = count_if counted_empty obs
     /\ Mismatch.successful_extractions a = count_if counted_successful obs)
  /\ Mismatch.failed_extractions a + Mismatch.empty_extractions a
     + Mismatch.successful_extractions a = Mismatch.total_entries a
  /\ Mismatch.total_entries a = Z.of_nat (length results)
  /\ (forall e : json,
        (unmatched_B e -> MergedResults.extract_text_from_result e = Return [])
        /\ (forall x, Extract.shape_B e = Raise x ->
              MergedResults.extract_text_from_result e = Return []))
  /\ forall (e : json) (o : Mismatch.observation),
       Mismatch.extract_text_from_result e = Return (Mismatch.ob_text o) ->
       (counted_failed o = true /\ counted_empty o = false
          /\ counted_successful o = false
        \/ counted_failed o = false /\ counted_empty o = true
           /\ counted_successful o = false
        \/ counted_failed o = false /\ counted_empty o = false
           /\ counted_successful o = true)
       /\ ((exists x, Extract.shape_A e = Raise x) -> counted_failed o = true)
       /\ (unmatched_A e -> Mismatch.ob_text o = [] /\ counted_empty o = true)
       /\ (forall Y, has_shape_A e (JStr Y) -> Y <> [] ->
             Re.search_fence2 Y = None ->
             json_loads (Extract.cleaned_content Y) = Raise JSONDecodeError ->
             Mismatch.ob_text o = strip Y
             /\ (Mismatch.is_failed (strip Y) = true -> counted_failed o = true)
             /\ (Mismatch.is_failed (strip Y) = false -> strip Y = [] ->
                 counted_empty o = true)
             /\ (Mismatch.is_failed (strip Y) = false -> strip Y <> [] ->
                 counted_successful o = true)).
Proof.
  intros Hrun. unfold Mismatch.analyze_results in Hrun.
  destruct (Mismatch.analyze_loop 0 results _) as [st|x] eqn:Hloop; [|discriminate].
  injection Hrun as <-.
  destruct (analyze_loop_observed _ _ _ _ Hloop) as (obs & Hobs & ->).
  destruct (record_all_tallies obs 0 (Mismatch.initial_analysis results) [])
    as (F & Em & Su & To & _).
  cbn [Mismatch.with_duplicates Mismatch.failed_extractions
       Mismatch.empty_extractions Mismatch.successful_extractions
       Mismatch.total_entries].
  cbn [Mismatch.initial_analysis Mismatch.failed_extractions
       Mismatch.empty_extractions Mismatch.successful_extractions
       Mismatch.total_entries] in F, Em, Su, To.
  split; [|split; [|split; [|split]]].
  - exists obs. split; [assumption|]. split; [now apply (observe_all_texts _ 0)|].
    repeat split; lia.
  - rewrite F, Em, Su, To.
    pose proof (count_if_partition obs). rewrite (observe_all_length _ _ _ Hobs) in *. lia.
  - assumption.
  - intros e. unfold MergedResults.extract_text_from_result. split.
    + intros Hun. now rewrite (shape_B_unmatched _ Hun).
    + now intros x ->.
  - intros e o Ho. destruct (mismatch_extract_cases e) as (Hx & Hun & Hraw).
    unfold counted_failed, counted_empty, counted_successful.
    split; [|split; [|split]].
    + destruct (Mismatch.is_failed _), (Mismatch.is_blank _); cbn; auto.
    + intros [x Hraise]. destruct (Hx x Hraise) as [Ht Hf].
      rewrite Ht in Ho. injection Ho as <-. exact Hf.
    + intros Hu. rewrite (Hun Hu) in Ho. injection Ho as <-. now split.
    + intros Y Hshape HY Hfind Hjson.
      rewrite (Hraw Y Hshape HY Hfind Hjson) in Ho. injection Ho as <-.
      split; [reflexivity|]. rewrite is_blank_strip.
      split; [auto|]. split.
      * intros -> ->. reflexivity.
      * intros -> Hne. now rewrite bool_decide_eq_false_2.
Qed.

End Analysis.

(** C8 as stated has an envelope in which no shape matches, and a text
    that fails to decode as JSON, counted as extraction errors.  The
    analysis counts the first as empty and the second as successful, and
    neither as failed.  The lists are total, failed, empty, successful,
    error entries, duplicates. *)
Lemma absent_shape_counted_empty :
  counters (@Mismatch.analyze_results Reference.runtime [Sample.absent_shape])
  = Some [1; 0; 1; 0; 0; 0]
  /\ lacks (lit "response") Sample.absent_shape
  /\ counters (@Mismatch.analyze_results Reference.runtime [Sample.bare_text])
     = Some [1; 0; 0; 1; 0; 0]
  /\ Reference.decode (lit "not json {") = None.
Proof.
  repeat split; try (vm_compute; reflexivity).
  exists [(lit "custom_id", JStr (lit "ns_line_1"))]. split; reflexivity.
Qed.

Lemma tallies_follow_extracted_text_witness :
  exists a,
    @Mismatch.analyze_results Reference.runtime [Sample.absent_shape; Sample.bare_text]
    = Return a
    /\ Mismatch.failed_extractions a + Mismatch.empty_extractions a
       + Mismatch.successful_extractions a = Mismatch.total_entries a.
Proof.
  destruct (@Mismatch.analyze_results Reference.runtime
              [Sample.absent_shape; Sample.bare_text]) as [a|x] eqn:E.
  - exists a. split; [reflexivity|].
    exact (proj1 (proj2 (@tallies_follow_extracted_text Reference.runtime _ a E))).
  - vm_compute in E. discriminate.
Defined.

(** ** Identifiers that do not decode *)

Lemma search_needs_char c p s :
  In c p -> ~ In c s -> Re.search_digits_suffix p s = None.
Proof.
  intros Hp. unfold Re.search_digits_suffix.
  assert (Hhere : forall s', ~ In c s' -> Re.digits_suffix_here p s' = None).
  { intros s' Hs'. destruct (Re.digits_suffix_here p s') as [g|] eqn:E; [|reflexivity].
    exfalso. apply digits_suffix_here_tail in E as (rest & -> & _).
    apply Hs', in_or_app. now left. }
  induction s as [|a s IH]; intros Hs.
  - simpl. now rewrite Hhere.
  - cbn [Re.search]. rewrite (Hhere _ Hs). apply IH.
    intros Hin. apply Hs. now right.
Qed.

Lemma first_pattern_needs_char c ps s :
  Forall (In c) ps -> ~ In c s -> first_pattern ps s = None.
Proof.
  intros Hps Hs. induction Hps as [|p ps Hp _ IH]; [reflexivity|].
  cbn [first_pattern]. now rewrite (search_needs_char c p s Hp Hs).
Qed.

Lemma str_of_int_no_letter i : ~ In letter_l (str_of_int i).
Proof.
  assert (Hd : forall fuel n, ~ In letter_l (digits_aux fuel n [])).
  { intros fuel n Hin.
    pose proof (digits_aux_digits fuel n [] ltac:(constructor)) as Hall.
    rewrite Forall_forall in Hall. apply list_elem_of_In, Hall in Hin. discriminate. }
  unfold str_of_int. destruct (i <? 0).
  - intros Hin. apply in_app_or in Hin as [Hin|Hin].
    + destruct Hin as [Hin|[]]. discriminate.
    + now apply Hd in Hin.
  - apply Hd.
Qed.

(** The stand-in identifier [unknown_<i>] never decodes. *)
Lemma unknown_undecodable i :
  first_pattern Mismatch.patterns (lit "unknown_" ++ str_of_int i) = None.
Proof.
  apply (first_pattern_needs_char letter_l).
  - unfold Mismatch.patterns. repeat constructor; cbv; tauto.
  - intros Hin. apply in_app_or in Hin as [Hin|Hin].
    + cbv in Hin. repeat (destruct Hin as [Hin|Hin]; [discriminate|]). exact Hin.
    + now apply str_of_int_no_letter in Hin.
Qed.

Lemma undecodable_key patterns default result handled h :
  undecodable patterns result ->
  first_pattern patterns default = None ->
  exists custom_id,
    get_custom_id result default = Return custom_id
    /\ try_except (decode_with patterns custom_id) handled h = Return None.
Proof.
  intros (d & -> & [Hd|(s & Hd & Hs)]) Hdef; cbn [get_custom_id]; rewrite Hd.
  - exists (JStr default). split; [reflexivity|]. cbn. now rewrite Hdef.
  - exists (JStr s). split; [reflexivity|]. cbn. now rewrite Hs.
Qed.

Section Loops.
Context `{Runtime}.

Lemma load_results_skip patterns handled h extract result rest all :
  undecodable patterns result ->
  first_pattern patterns [] = None ->
  load_results_with (fun c => try_except (decode_with patterns c) handled h)
    extract (result :: rest) all
  = load_results_with (fun c => try_except (decode_with patterns c) handled h)
      extract rest all.
Proof.
  intros Hu Hdef.
  destruct (undecodable_key patterns [] result handled h Hu Hdef) as (cid & Hc & Hk).
  cbn [load_results_with]. rewrite Hc. cbn [bind]. now rewrite Hk.
Qed.

(** C5, as amended.  A result line that is an object whose [custom_id] is
    absent, or is a string that matches none of the patterns, is left out
    of the stream: the mergers go on with the remaining lines from the same
    dict, and the analysis goes on with the same line numbers, entries by
    line and counts.  The analysis still records the observation of the
    entry; no count of such lines is kept. *)
Theorem undecodable_entry_is_skipped (result : json) (rest : list json)
    (all : gmap Z str) (i : Z) (st : Mismatch.analysis * list (Z * Z)) :
  (undecodable [lit "_line_"] result ->
     MergedResults.load_results (result :: rest) all
     = MergedResults.load_results rest all)
  /\ (undecodable [lit "_line_"; lit "alpaca_data_line_"; lit "line_"] result ->
        InstructOutput.load_results (result :: rest) all
        = InstructOutput.load_results rest all)
  /\ (undecodable Mismatch.patterns result ->
        exists o,
          Mismatch.observe i result = Return o
          /\ Mismatch.ob_line_num o = None
          /\ Mismatch.analyze_loop i (result :: rest) st
             = Mismatch.analyze_loop (i + 1) rest (Mismatch.record_entry i o st)
          /\ Mismatch.line_numbers (Mismatch.record_entry i o st).1
             = Mismatch.line_numbers st.1
          /\ Mismatch.entries_by_line (Mismatch.record_entry i o st).1
             = Mismatch.entries_by_line st.1
          /\ (Mismatch.record_entry i o st).2 = st.2
          /\ Mismatch.custom_ids (Mismatch.record_entry i o st).1
             = Mismatch.custom_ids st.1 ++ [Mismatch.ob_custom_id o]).
Proof.
  split; [|split].
  - intros Hu. now apply load_results_skip.
  - intros Hu. now apply load_results_skip.
  - intros Hu.
    destruct (undecodable_key Mismatch.patterns (lit "unknown_" ++ str_of_int i)
                result (fun e => is_ValueError e || is_AttributeError e)
                (fun _ => Return None) Hu (unknown_undecodable i))
      as (cid & Hc & Hk).
    destruct (extractors_return result) as (_ & _ & t & Ht).
    exists {| Mismatch.ob_custom_id := cid; Mismatch.ob_line_num := None;
              Mismatch.ob_text := t |}.
    assert (Ho : Mismatch.observe i result
                 = Return {| Mismatch.ob_custom_id := cid;
                             Mismatch.ob_line_num := None;
                             Mismatch.ob_text := t |}).
    { unfold Mismatch.observe, Mismatch.extract_line_number_from_custom_id.
      rewrite Hc. cbn [bind]. rewrite Hk. cbn [bind]. now rewrite Ht. }
    split; [assumption|]. split; [reflexivity|]. split.
    + cbn [Mismatch.analyze_loop]. unfold Mismatch.analyze_entry. now rewrite Ho.
    + destruct st as [a counts]. repeat split.
Qed.

End Loops.

Lemma undecodable_entry_is_skipped_witness :
  @MergedResults.load_results Reference.runtime
     [Sample.anonymous; line_B (lit "ns_output_line_7") (lit "second")] ∅
  = @MergedResults.load_results Reference.runtime
      [line_B (lit "ns_output_line_7") (lit "second")] ∅.
Proof.
  refine (proj1 (@undecodable_entry_is_skipped Reference.runtime
                   Sample.anonymous _ ∅ 0 (Mismatch.initial_analysis [], [])) _).
  eexists. split; [reflexivity|]. now left.
Defined.

(** C5 as stated asks for a counter of unparseable identifiers.  The
    analysis of a file whose only line has no identifier and the analysis
    of a file whose only line has one that decodes give the same counters,
    so no counter tells the two apart; and a merger that loads the line
    without identifier returns the same dict as for no line at all. *)
Lemma no_unparseable_counter :
  undecodable Mismatch.patterns Sample.anonymous
  /\ Mismatch.extract_line_number_from_custom_id (JStr (lit "ns_line_3"))
     = Return (Some 3)
  /\ counters (@Mismatch.analyze_results Reference.runtime [Sample.anonymous])
     = Some [1; 0; 0; 1; 0; 0]
  /\ counters (@Mismatch.analyze_results Reference.runtime [Sample.identified])
     = Some [1; 0; 0; 1; 0; 0]
  /\ @InstructOutput.load_results Reference.runtime [Sample.anonymous] ∅
     = @InstructOutput.load_results Reference.runtime [] ∅.
Proof.
  repeat split; try (vm_compute; reflexivity).
  eexists. split; [reflexivity|]. now left.
Qed.

(** ** Recurring keys *)

Section Recurring.
Context `{Runtime}.
Variable decode : json -> outcome (option Z).
Variable extract : json -> outcome str.

Lemma load_results_with_app : forall a b all,
  load_results_with decode extract (a ++ b) all
  = (m <- load_results_with decode extract a all;;
     load_results_with decode extract b m).
Proof.
  induction a as [|r a IH]; intros b all; [reflexivity|].
  cbn [app load_results_with].
  destruct (get_custom_id r []) as [cid|x]; [|reflexivity]. cbn [bind].
  destruct (decode cid) as [[n|]|x]; cbn [bind]; [|apply IH|reflexivity].
  destruct (extract r) as [t|x]; cbn [bind]; [apply IH|reflexivity].
Qed.

Lemma load_field_with_concat : forall files all,
  load_field_with decode extract files all
  = load_results_with decode extract (concat (map load_batch_results files)) all.
Proof.
  induction files as [|f files IH]; intros all; [reflexivity|].
  cbn [load_field_with map concat]. rewrite load_results_with_app.
  destruct (load_results_with decode extract (load_batch_results f) all);
    cbn [bind]; [apply IH|reflexivity].
Qed.

Lemma load_results_with_keeps k : forall post m0 m,
  load_results_with decode extract post m0 = Return m ->
  (forall r, r ∈ post -> key_with decode r <> Return (Some k)) ->
  m !! k = m0 !! k.
Proof.
  induction post as [|r post IH]; intros m0 m Hrun Hpost.
  - now injection Hrun as <-.
  - assert (Hr : key_with decode r <> Return (Some k)) by (apply Hpost; left).
    assert (Hpost' : forall r', r' ∈ post -> key_with decode r' <> Return (Some k))
      by (intros r' Hr'; apply Hpost; now right).
    cbn [load_results_with] in Hrun. unfold key_with in Hr.
    destruct (get_custom_id r []) as [cid|x]; [|discriminate]. cbn [bind] in Hrun, Hr.
    destruct (decode cid) as [[n|]|x]; cbn [bind] in Hrun; [| |discriminate].
    + destruct (extract r) as [t|x]; cbn [bind] in Hrun; [|discriminate].
      rewrite (IH _ _ Hrun Hpost'). apply lookup_insert_ne. congruence.
    + apply (IH _ _ Hrun Hpost').
Qed.

(** The payload of the last line that decodes to [k] is the one stored. *)
Lemma last_occurrence_stored files all m pre r post k t :
  load_field_with decode extract files all = Return m ->
  concat (map load_batch_results files) = pre ++ r :: post ->
  key_with decode r = Return (Some k) ->
  extract r = Return t ->
  (forall r', r' ∈ post -> key_with decode r' <> Return (Some k)) ->
  m !! k = Some t.
Proof.
  intros Hrun Hsplit Hkey Ht Hpost.
  rewrite load_field_with_concat, Hsplit, load_results_with_app in Hrun.
  destruct (load_results_with decode extract pre all) as [m1|x]; [|discriminate].
  cbn [bind load_results_with] in Hrun. unfold key_with in Hkey.
  destruct (get_custom_id r []) as [cid|x]; [|discriminate]. cbn [bind] in Hrun, Hkey.
  rewrite Hkey, Ht in Hrun. cbn [bind] in Hrun.
  rewrite (load_results_with_keeps k _ _ _ Hrun Hpost). apply lookup_insert_eq.
Qed.

End Recurring.

Lemma count_of_count_up k n counts :
  count_of k (Mismatch.count_up n counts)
  = count_of k counts + (if bool_decide (Some n = Some k) then 1 else 0).
Proof.
  induction counts as [|[k' c] rest IH]; cbn [Mismatch.count_up count_of].
  - destruct (Z.eqb_spec n k) as [->|Hne].
    + rewrite bool_decide_eq_true_2 by reflexivity. lia.
    + rewrite bool_decide_eq_false_2 by congruence. lia.
  - destruct (Z.eqb_spec k' n) as [->|Hne]; cbn [count_of].
    + destruct (Z.eqb_spec n k) as [->|Hne].
      * rewrite bool_decide_eq_true_2 by reflexivity. lia.
      * rewrite bool_decide_eq_false_2 by congruence. lia.
    + destruct (Z.eqb_spec k' k) as [->|Hne'].
      * rewrite bool_decide_eq_false_2 by congruence. lia.
      * apply IH.
Qed.

Lemma count_up_keys n counts :
  forall k, In k (map fst (Mismatch.count_up n counts)) <-> k = n \/ In k (map fst counts).
Proof.
  induction counts as [|[k' c] rest IH]; intros k; cbn [Mismatch.count_up].
  - simpl. intuition.
  - destruct (Z.eqb_spec k' n) as [->|Hne]; cbn [map fst In].
    + intuition.
    + rewrite IH. intuition.
Qed.

Lemma count_up_well_counted n counts :
  well_counted counts -> well_counted (Mismatch.count_up n counts).
Proof.
  intros [Hnd Hpos]. induction counts as [|[k' c] rest IH]; cbn [Mismatch.count_up].
  - split; [repeat constructor; intros H; inversion H | repeat constructor; simpl; lia].
  - cbn [map fst] in Hnd. apply NoDup_cons in Hnd as [Hk' Hnd].
    apply Forall_cons in Hpos as [Hc Hpos]. cbn [snd] in Hc.
    destruct (Z.eqb_spec k' n) as [->|Hne].
    + split; [cbn [map fst]; now apply NoDup_cons | constructor; [simpl; lia | assumption]].
    + destruct (IH Hnd Hpos) as [Hnd' Hpos']. split.
      * cbn [map fst]. apply NoDup_cons. split; [|assumption].
        intros Hin. apply list_elem_of_In, count_up_keys in Hin as [?|Hin]; [congruence|].
        apply Hk'. now apply list_elem_of_In.
      * constructor; [simpl; lia | assumption].
Qed.

Lemma elem_of_counts counts k c :
  well_counted counts ->
  (k, c) ∈ counts <-> count_of k counts = c /\ 1 <= c.
Proof.
  intros [Hnd Hpos]. induction counts as [|[k' c'] rest IH]; cbn [count_of].
  - split; [intros Hin; inversion Hin | intros [<- ?]; lia].
  - cbn [map fst] in Hnd. apply NoDup_cons in Hnd as [Hk' Hnd].
    apply Forall_cons in Hpos as [Hc Hpos]. cbn [snd] in Hc.
    rewrite elem_of_cons, (IH Hnd Hpos).
    destruct (Z.eqb_spec k' k) as [->|Hne].
    + split.
      * intros [Heq|[Hcount Hle]]; [inversion Heq; subst; split; [reflexivity|lia]|].
        exfalso. apply Hk'.
        assert (Hin : (k, c) ∈ rest) by (apply (IH Hnd Hpos); now split).
        apply list_elem_of_In in Hin. apply (in_map fst) in Hin.
        now apply list_elem_of_In.
      * intros [-> _]. now left.
    + split.
      * intros [Heq|?]; [inversion Heq; subst; contradiction|assumption].
      * intros ?. now right.
Qed.

Lemma record_all_counts : forall obs i a counts,
  well_counted counts ->
  well_counted (record_all i obs (a, counts)).2
  /\ forall k, count_of k (record_all i obs (a, counts)).2
               = count_of k counts + occurrences k obs.
Proof.
  induction obs as [|o os IH]; intros i a counts Hwc.
  - split; [assumption|]. intros k. unfold occurrences, count_if. cbn. lia.
  - cbn [record_all].
    destruct (Mismatch.record_entry i o (a, counts)) as [a1 c1] eqn:E.
    assert (Hc1 : c1 = match Mismatch.ob_line_num o with
                       | Some n => Mismatch.count_up n counts
                       | None => counts
                       end).
    { unfold Mismatch.record_entry in E.
      destruct (Mismatch.ob_line_num o); now injection E as _ <-. }
    assert (Hwc1 : well_counted c1).
    { rewrite Hc1. destruct (Mismatch.ob_line_num o); [now apply count_up_well_counted | assumption]. }
    destruct (IH (i + 1) a1 c1 Hwc1) as [Hwc' Hcount]. split; [assumption|].
    intros k. rewrite Hcount. unfold occurrences. rewrite count_if_cons. rewrite Hc1.
    destruct (Mismatch.ob_line_num o) as [n|].
    + rewrite count_of_count_up. lia.
    + rewrite bool_decide_eq_false_2 by discriminate. lia.
Qed.

(** The duplicates reported for a file are the line numbers decoded more
    than once in it, each with its number of occurrences. *)
Lemma duplicates_of_file `{Runtime} (results : list json) (a : Mismatch.analysis) :
  Mismatch.analyze_results results = Return a ->
  exists obs,
    observe_all 0 results = Return obs
    /\ forall k c, (k, c) ∈ Mismatch.duplicate_line_numbers a
                   <-> c = occurrences k obs /\ 1 < c.
Proof.
  intros Hrun. unfold Mismatch.analyze_results in Hrun.
  destruct (Mismatch.analyze_loop 0 results _) as [st|x] eqn:Hloop; [|discriminate].
  injection Hrun as <-.
  destruct (analyze_loop_observed _ _ _ _ Hloop) as (obs & Hobs & ->).
  exists obs. split; [assumption|]. intros k c.
  destruct (record_all_tallies obs 0 (Mismatch.initial_analysis results) [])
    as (_ & _ & _ & _ & Hd).
  destruct (record_all_counts obs 0 (Mismatch.initial_analysis results) [])
    as [Hwc Hcount].
  { split; constructor. }
  cbn [Mismatch.with_duplicates Mismatch.duplicate_line_numbers].
  fold (Mismatch.duplicate_line_numbers
          (record_all 0 obs (Mismatch.initial_analysis results, [])).1).
  rewrite Hd. cbn [Mismatch.initial_analysis Mismatch.duplicate_line_numbers app].
  unfold Mismatch.find_duplicates. rewrite list_elem_of_filter. cbn [snd].
  rewrite (elem_of_counts _ k c Hwc), Hcount. cbn [count_of].
  split; [intros [? [<- ?]] | intros [-> ?]]; repeat split; lia.
Qed.

(** C4, as amended.  In the stream that a merger builds from a sequence of
    files, the payload stored for a key is the one of the last line, in
    file order and then line order, that decodes to the key.  The mergers
    record nothing about the lines they overwrite.  The analysis of one
    file reports each line number decoded more than once in that file,
    with its number of occurrences. *)
Theorem later_occurrence_wins `{Runtime} (files : list file) (m : gmap Z str)
    (pre post : list json) (r : json) (k : Z) (t : str) :
  concat (map load_batch_results files) = pre ++ r :: post ->
  (MergedResults.load_field files ∅ = Return m ->
   key_with MergedResults.extract_line_number_from_custom_id r = Return (Some k) ->
   MergedResults.extract_text_from_result r = Return t ->
   (forall r', r' ∈ post ->
      key_with MergedResults.extract_line_number_from_custom_id r' <> Return (Some k)) ->
   m !! k = Some t)
  /\ (InstructOutput.load_field files ∅ = Return m ->
      key_with InstructOutput.extract_line_number_from_custom_id r = Return (Some k) ->
      InstructOutput.extract_text_from_result r = Return t ->
      (forall r', r' ∈ post ->
         key_with InstructOutput.extract_line_number_from_custom_id r' <> Return (Some k)) ->
      m !! k = Some t)
  /\ (forall results a,
        Mismatch.analyze_results results = Return a ->
        exists obs,
          observe_all 0 results = Return obs
          /\ forall k' c, (k', c) ∈ Mismatch.duplicate_line_numbers a
                          <-> c = occurrences k' obs /\ 1 < c).
Proof.
  intros Hsplit. split; [|split].
  - intros Hrun Hkey Ht Hpost.
    exact (last_occurrence_stored _ _ files ∅ m pre r post k t Hrun Hsplit Hkey Ht Hpost).
  - intros Hrun Hkey Ht Hpost.
    exact (last_occurrence_stored _ _ files ∅ m pre r post k t Hrun Hsplit Hkey Ht Hpost).
  - intros results a. apply duplicates_of_file.
Qed.

(** Two files with one line each for key 7: the payload of the second
    file is the one stored. *)
Lemma later_occurrence_wins_witness :
  match @InstructOutput.load_field Reference.runtime
          [Sample.first_file; Sample.second_file] ∅ with
  | Return m => m !! 7
  | Raise _ => None
  end = Some (lit "second").
Proof.
  destruct (@InstructOutput.load_field Reference.runtime
              [Sample.first_file; Sample.second_file] ∅) as [m|x] eqn:Hm.
  - refine (proj1 (proj2 (@later_occurrence_wins Reference.runtime
              [Sample.first_file; Sample.second_file] m
              [line_A (lit "ns_line_7") (lit "first")] []
              (line_A (lit "ns_line_7") (lit "second")) 7 (lit "second") _)) Hm _ _ _).
    + reflexivity.
    + reflexivity.
    + reflexivity.
    + intros r' Hr'. inversion Hr'.
  - vm_compute in Hm. discriminate.
Defined.

(** C4 as stated asks that the overwrite be recorded.  For two files with
    one line each for key 7 the merger returns the dict with the payload of
    the second file and nothing else, and the analysis reports no duplicate
    for either file, nor in the report over both. *)
Lemma cross_file_overwrite_unrecorded :
  @InstructOutput.load_field Reference.runtime
     [Sample.first_file; Sample.second_file] ∅
  = Return {[ 7 := lit "second" ]}
  /\ @MergedResults.load_field Reference.runtime
       [Sample.first_file_B; Sample.second_file_B] ∅
     = Return {[ 7 := lit "second" ]}
  /\ duplicates (@Mismatch.analyze_file_entries Reference.runtime Sample.first_file)
     = Some []
  /\ duplicates (@Mismatch.analyze_file_entries Reference.runtime Sample.second_file)
     = Some []
  /\ match @Mismatch.find_mismatches Reference.runtime
             [Sample.first_file; Sample.second_file] [] with
     | Return report =>
         map Mismatch.duplicate_line_numbers (Mismatch.instruction_files report)
     | Raise _ => []
     end = [[]; []].
Proof.
  repeat split; vm_compute; reflexivity.
Qed.

(** ** The merge writer *)

Lemma merged_results_three (I N O : gmap Z str) : forall lines,
  (forall k, k ∈ lines -> k ∈ dom I ∩ dom N ∩ dom O) ->
  exists entries,
    MergedResults.merged_results lines I N O = Return entries
    /\ Forall2 (entry_for I N O) lines entries.
Proof.
  induction lines as [|k lines IH]; intros Hin.
  - exists []. split; [reflexivity|constructor].
  - destruct IH as (entries & Hrun & Hall); [intros k' Hk'; apply Hin; now right|].
    assert (Hk : k ∈ dom I ∩ dom N ∩ dom O) by (apply Hin; left).
    apply elem_of_intersection in Hk as [Hk HO].
    apply elem_of_intersection in Hk as [HI HN].
    apply elem_of_dom in HI as [a Ha], HN as [b Hb], HO as [c Hc].
    exists (make_entry a b c :: entries). split.
    + cbn [MergedResults.merged_results]. unfold at_line.
      rewrite Ha, Hb, Hc. cbn [bind]. now rewrite Hrun.
    + constructor; [|assumption]. now exists a, b, c.
Qed.

Lemma merged_results_two (I O : gmap Z str) : forall lines,
  (forall k, k ∈ lines -> k ∈ dom I ∩ dom O) ->
  exists entries,
    InstructOutput.merged_results lines I O = Return entries
    /\ Forall2 (entry_for_two I O) lines entries.
Proof.
  induction lines as [|k lines IH]; intros Hin.
  - exists []. split; [reflexivity|constructor].
  - destruct IH as (entries & Hrun & Hall); [intros k' Hk'; apply Hin; now right|].
    assert (Hk : k ∈ dom I ∩ dom O) by (apply Hin; left).
    apply elem_of_intersection in Hk as [HI HO].
    apply elem_of_dom in HI as [a Ha], HO as [c Hc].
    exists (make_entry a [] c :: entries). split.
    + cbn [InstructOutput.merged_results]. unfold at_line.
      rewrite Ha, Hc. cbn [bind]. now rewrite Hrun.
    + constructor; [|assumption]. now exists a, c.
Qed.

(** The two scripts load their streams and hand them to [merge]. *)
Lemma create_single_merged_file_merges `{Runtime} (d : MergedResults.results_dirs)
    (instruction_files output_files : list file) (I N O : gmap Z str) :
  (MergedResults.found_batches d <> [] ->
   MergedResults.load_field
     (map (MergedResults.instruction_file d) (sorted (MergedResults.found_batches d))) ∅
   = Return I ->
   MergedResults.load_field
     (map (MergedResults.input_file d) (sorted (MergedResults.found_batches d))) ∅
   = Return N ->
   MergedResults.load_field
     (map (MergedResults.output_file d) (sorted (MergedResults.found_batches d))) ∅
   = Return O ->
   MergedResults.create_single_merged_file d = MergedResults.merge I N O)
  /\ (instruction_files <> [] -> output_files <> [] ->
      InstructOutput.load_field instruction_files ∅ = Return I ->
      InstructOutput.load_field output_files ∅ = Return O ->
      InstructOutput.create_single_merged_file (Some instruction_files) (Some output_files)
      = InstructOutput.merge I O).
Proof.
  split.
  - intros Hne HI HN HO. unfold MergedResults.create_single_merged_file.
    destruct (MergedResults.found_batches d); [contradiction|].
    now rewrite HI, HN, HO.
  - intros Hi Ho HI HO. unfold InstructOutput.create_single_merged_file.
    destruct instruction_files; [contradiction|].
    destruct output_files; [contradiction|].
    now rewrite HI, HO.
Qed.

(** C1.  From the loaded streams the merge writer writes one record per
    key of the intersection of their key sets and no other record, in
    ascending order of the keys; the record of a key holds exactly the
    fields [instruction], [input] and [output], in that order, with the
    payloads stored for the key (the empty string as [input] in the
    two-stream variant).  When the intersection is empty it returns without
    writing, which is no record at all. *)
Theorem merge_writes_common_keys (I N O : gmap Z str) :
  (dom I ∩ dom N ∩ dom O = ∅ -> MergedResults.merge I N O = Return None)
  /\ (dom I ∩ dom N ∩ dom O <> ∅ ->
        exists keys entries,
          MergedResults.merge I N O = Return (Some entries)
          /\ StronglySorted Z.lt keys
          /\ (forall k, k ∈ keys <-> k ∈ dom I ∩ dom N ∩ dom O)
          /\ Forall2 (entry_for I N O) keys entries
          /\ length entries = size (dom I ∩ dom N ∩ dom O))
  /\ (dom I ∩ dom O = ∅ -> InstructOutput.merge I O = Return None)
  /\ (dom I ∩ dom O <> ∅ ->
        exists keys entries,
          InstructOutput.merge I O = Return (Some entries)
          /\ StronglySorted Z.lt keys
          /\ (forall k, k ∈ keys <-> k ∈ dom I ∩ dom O)
          /\ Forall2 (entry_for_two I O) keys entries
          /\ length entries = size (dom I ∩ dom O)).
Proof.
  unfold MergedResults.merge, InstructOutput.merge,
    MergedResults.common_lines, InstructOutput.common_lines.
  split; [|split; [|split]].
  - intros Hempty. now rewrite decide_True.
  - intros Hne. rewrite decide_False by assumption.
    destruct (sorted_elements (dom I ∩ dom N ∩ dom O)) as (Hs & Hm & Hl).
    destruct (merged_results_three I N O (sorted (elements (dom I ∩ dom N ∩ dom O))))
      as (entries & Hrun & Hall); [intros k; apply Hm|].
    exists (sorted (elements (dom I ∩ dom N ∩ dom O))), entries.
    rewrite Hrun. repeat split; try assumption; try apply Hm.
    rewrite <- Hl. symmetry. exact (Forall2_length _ _ _ Hall).
  - intros Hempty. now rewrite decide_True.
  - intros Hne. rewrite decide_False by assumption.
    destruct (sorted_elements (dom I ∩ dom O)) as (Hs & Hm & Hl).
    destruct (merged_results_two I O (sorted (elements (dom I ∩ dom O))))
      as (entries & Hrun & Hall); [intros k; apply Hm|].
    exists (sorted (elements (dom I ∩ dom O))), entries.
    rewrite Hrun. repeat split; try assumption; try apply Hm.
    rewrite <- Hl. symmetry. exact (Forall2_length _ _ _ Hall).
Qed.

(** Three streams over the keys 1, 2, 3: three records, in key order. *)
Example merge_three_streams :
  MergedResults.merge (Sample.payload [3; 1; 2; 5] "i") (Sample.payload [2; 3; 1] "n")
    (Sample.payload [4; 1; 2; 3] "o")
  = Return (Some [make_entry (lit "i1") (lit "n1") (lit "o1");
                  make_entry (lit "i2") (lit "n2") (lit "o2");
                  make_entry (lit "i3") (lit "n3") (lit "o3")]).
Proof. vm_compute. reflexivity. Qed.

Lemma merge_writes_common_keys_witness :
  exists keys entries,
    MergedResults.merge (Sample.payload [3; 1; 2; 5] "i") (Sample.payload [2; 3; 1] "n")
      (Sample.payload [4; 1; 2; 3] "o") = Return (Some entries)
    /\ StronglySorted Z.lt keys
    /\ length entries = 3%nat.
Proof.
  destruct (proj1 (proj2 (merge_writes_common_keys
              (Sample.payload [3; 1; 2; 5] "i") (Sample.payload [2; 3; 1] "n")
              (Sample.payload [4; 1; 2; 3] "o"))))
    as (keys & entries & Hrun & Hs & _ & _ & Hlen).
  - intros Hempty.
    assert (Hin : 1 ∈ dom (Sample.payload [3; 1; 2; 5] "i")
                      ∩ dom (Sample.payload [2; 3; 1] "n")
                      ∩ dom (Sample.payload [4; 1; 2; 3] "o")).
    { rewrite !elem_of_intersection, !elem_of_dom. repeat split; vm_compute; eauto. }
    rewrite Hempty in Hin. inversion Hin.
  - exists keys, entries. split; [assumption|]. split; [assumption|].
    rewrite Hlen. vm_compute. reflexivity.
Defined.

(** ** The reconciler *)

Lemma key_set_app l1 l2 : key_set (l1 ++ l2) = key_set l1 ∪ key_set l2.
Proof. unfold key_set. rewrite map_app. apply union_list_app_L. Qed.

Lemma analyze_files_union `{Runtime} : forall files acc all acc' all',
  Mismatch.analyze_files files acc all = Return (acc', all') ->
  exists new, acc' = acc ++ new /\ all' = all ∪ key_set new.
Proof.
  induction files as [|f files IH]; intros acc all acc' all' Hrun.
  - injection Hrun as <- <-. exists []. rewrite app_nil_r. split; [reflexivity|].
    unfold key_set. simpl. set_solver.
  - cbn [Mismatch.analyze_files] in Hrun.
    destruct (Mismatch.analyze_file_entries f) as [a|x]; [|discriminate].
    cbn [bind] in Hrun. destruct (IH _ _ _ _ Hrun) as (new & -> & ->).
    exists (a :: new). split; [now rewrite <- app_assoc|].
    change (a :: new) with ([a] ++ new). rewrite key_set_app.
    unfold key_set at 2. simpl. set_solver.
Qed.

Lemma sorted_difference (X Y : gset Z) :
  StronglySorted Z.lt (sorted (elements (X ∖ Y)))
  /\ forall k, k ∈ sorted (elements (X ∖ Y)) <-> k ∈ X /\ k ∉ X ∩ Y.
Proof.
  destruct (sorted_elements (X ∖ Y)) as (Hs & Hm & _). split; [assumption|].
  intros k. rewrite Hm. set_solver.
Qed.

(** C2, as amended.  The mismatch finder compares two fields: with the key
    set of a field the union of the line numbers of its files, the common
    lines are the intersection of the two key sets, and the lines reported
    as missing in the other field are, for each of the two fields
    separately and in ascending order, its key set minus the intersection.
    The three-stream merger computes the intersection of the three key
    sets, [{1,2,3}] for [{1,2,3,5}], [{1,2,3}] and [{1,2,3,4}]. *)
Theorem reconciler_compares_key_sets `{Runtime} (instruction_dir output_dir : list file)
    (report : Mismatch.mismatch_report) (A B C : gmap Z str) :
  (Mismatch.find_mismatches instruction_dir output_dir = Return report ->
   let I := key_set (Mismatch.instruction_files report) in
   let O := key_set (Mismatch.output_files report) in
   Mismatch.common_lines report = Z.of_nat (size (I ∩ O))
   /\ (forall k, k ∈ Mismatch.common_lines_set I O <-> k ∈ I /\ k ∈ O)
   /\ StronglySorted Z.lt (Mismatch.missing_in_output report)
   /\ (forall k, k ∈ Mismatch.missing_in_output report <-> k ∈ I /\ k ∉ I ∩ O)
   /\ StronglySorted Z.lt (Mismatch.missing_in_instruction report)
   /\ (forall k, k ∈ Mismatch.missing_in_instruction report <-> k ∈ O /\ k ∉ I ∩ O))
  /\ (forall k, k ∈ MergedResults.common_lines A B C
                <-> k ∈ dom A /\ k ∈ dom B /\ k ∈ dom C)
  /\ (dom A = {[1; 2; 3; 5]} -> dom B = {[1; 2; 3]} -> dom C = {[1; 2; 3; 4]} ->
      MergedResults.common_lines A B C = {[1; 2; 3]}).
Proof.
  split; [|split].
  - intros Hrun. unfold Mismatch.find_mismatches in Hrun.
    destruct (Mismatch.analyze_files instruction_dir [] ∅) as [[ia il]|x] eqn:Hi;
      [|discriminate].
    cbn [bind] in Hrun.
    destruct (Mismatch.analyze_files output_dir [] ∅) as [[oa ol]|x] eqn:Ho;
      [|discriminate].
    injection Hrun as <-.
    destruct (analyze_files_union _ _ _ _ _ Hi) as (ni & -> & ->).
    destruct (analyze_files_union _ _ _ _ _ Ho) as (no & -> & ->).
    cbn [fst snd app Mismatch.report_of Mismatch.instruction_files
         Mismatch.output_files Mismatch.common_lines Mismatch.missing_in_output
         Mismatch.missing_in_instruction].
    rewrite !union_empty_l_L.
    unfold Mismatch.common_lines_set, Mismatch.missing_in_output_set,
      Mismatch.missing_in_instruction_set, Mismatch.set_len.
    destruct (sorted_difference (key_set ni) (key_set no)) as [Hs1 Hm1].
    destruct (sorted_difference (key_set no) (key_set ni)) as [Hs2 Hm2].
    split; [reflexivity|]. split; [intros k; apply elem_of_intersection|].
    split; [assumption|]. split; [assumption|]. split; [assumption|].
    intros k. rewrite Hm2. set_solver.
  - intros k. unfold MergedResults.common_lines. set_solver.
  - intros HA HB HC. unfold MergedResults.common_lines. rewrite HA, HB, HC.
    apply set_eq. intros k. set_solver.
Qed.

Lemma reconciler_compares_key_sets_witness :
  MergedResults.common_lines (Sample.payload [1; 2; 3; 5] "i")
    (Sample.payload [1; 2; 3] "n") (Sample.payload [1; 2; 3; 4] "o")
  = {[1; 2; 3]}.
Proof.
  refine (proj2 (proj2 (@reconciler_compares_key_sets Reference.runtime [] []
            (Mismatch.report_of [] [] ∅ ∅) _ _ _)) _ _ _);
    vm_compute; reflexivity.
Defined.

(** C2 as stated has every collection of streams reconciled, with the
    keys only in one field reported per field.  The one function that
    takes three streams returns, for the key sets [{1,2,3,5}], [{1,2,3}]
    and [{1,2,3,4}], what it returns when every stream has the keys
    [{1,2,3}] alone: the keys 5 and 4 leave no trace in it. *)
Lemma three_streams_report_no_only_in :
  MergedResults.merge (Sample.payload [1; 2; 3; 5] "i")
    (Sample.payload [1; 2; 3] "n") (Sample.payload [1; 2; 3; 4] "o")
  = MergedResults.merge (Sample.payload [1; 2; 3] "i")
      (Sample.payload [1; 2; 3] "n") (Sample.payload [1; 2; 3] "o")
  /\ dom (Sample.payload [1; 2; 3; 5] "i")
       ∖ MergedResults.common_lines (Sample.payload [1; 2; 3; 5] "i")
           (Sample.payload [1; 2; 3] "n") (Sample.payload [1; 2; 3; 4] "o")
     = {[5]}
  /\ dom (Sample.payload [1; 2; 3] "i")
       ∖ MergedResults.common_lines (Sample.payload [1; 2; 3] "i")
           (Sample.payload [1; 2; 3] "n") (Sample.payload [1; 2; 3] "o")
     = ∅.
Proof.
  repeat split; vm_compute; reflexivity.
Qed.

(** * Further properties *)

(** ** The decoders *)

Lemma search_sound f : forall s g,
  Re.search f s = Some g -> exists pre suf, s = pre ++ suf /\ f suf = Some g.
Proof.
  induction s as [|c s IH]; intros g; cbn [Re.search].
  - destruct (f []) eqn:E; [|discriminate]. intros [= <-]. now exists [], [].
  - destruct (f (c :: s)) eqn:E.
    + intros [= <-]. now exists [], (c :: s).
    + intros Hs. destruct (IH _ Hs) as (pre & suf & -> & Hf).
      now exists (c :: pre), suf.
Qed.

Lemma search_complete f suf g : forall pre,
  f suf = Some g -> exists g', Re.search f (pre ++ suf) = Some g'.
Proof.
  intros pre Hf. induction pre as [|c pre IH].
  - exists g. now apply search_here.
  - cbn [app Re.search]. destruct (f (c :: pre ++ suf)); eauto.
Qed.

Lemma span_app_stop f a c b :
  Forall (fun x => f x = true) a -> f c = false ->
  span f (a ++ c :: b) = (a, c :: b).
Proof.
  intros Ha Hc. induction Ha as [|x a Hx _ IH]; cbn [app span].
  - now rewrite Hc.
  - now rewrite Hx, IH.
Qed.

Lemma digits_suffix_here_nonempty p s g :
  Re.digits_suffix_here p s = Some g -> g <> [].
Proof.
  unfold Re.digits_suffix_here.
  destruct (strip_prefix p s); [|discriminate].
  destruct (span isdigit l) as [ds rest].
  destruct ds; [discriminate|]. destruct (Re.at_end rest); [|discriminate].
  now intros [= <-].
Qed.

Lemma digits_suffix_here_build q g rest :
  Forall (fun c => isdigit c = true) g -> g <> [] ->
  rest = [] \/ rest = [newline] ->
  Re.digits_suffix_here q (q ++ g ++ rest) = Some g.
Proof.
  intros Hg Hne Hrest. unfold Re.digits_suffix_here. rewrite strip_prefix_app.
  destruct Hrest as [-> | ->].
  - rewrite app_nil_r, (span_all _ _ Hg). now destruct g.
  - rewrite (span_app_stop isdigit g newline [] Hg eq_refl). now destruct g.
Qed.

Lemma digit_not_newline c : isdigit c = true -> char_eqb c newline = false.
Proof.
  intros Hc. destruct (char_eqb c newline) eqn:E; [|reflexivity].
  apply char_eqb_true in E as ->. discriminate.
Qed.

(** Wherever a pattern that ends in an underscore matches, its group is
    the run of digits at the end of the string. *)
Lemma match_group_canonical q0 pre suf g :
  Re.digits_suffix_here (q0 ++ [underscore]) suf = Some g ->
  trailing_digits (pre ++ suf) = g.
Proof.
  intros Hm. pose proof (digits_suffix_here_nonempty _ _ _ Hm) as Hne.
  apply digits_suffix_here_tail in Hm as (rest & -> & Hg & Hrest).
  assert (Hrev : Forall (fun c => isdigit c = true) (rev g))
    by now apply List.Forall_rev.
  unfold trailing_digits.
  replace (rev (pre ++ (q0 ++ [underscore]) ++ g ++ rest))
    with (rev rest ++ rev g ++ underscore :: rev q0 ++ rev pre)
    by (rewrite !rev_app_distr; simpl; now rewrite <- !app_assoc).
  destruct Hrest as [-> | ->]; cbn [rev app].
  - destruct (rev g) as [|d r] eqn:Er.
    { apply (f_equal (@rev ascii)) in Er. rewrite rev_involutive in Er. contradiction. }
    cbn [app]. apply Forall_cons in Hrev as Hd. destruct Hd as [Hd _].
    rewrite (digit_not_newline _ Hd).
    change (d :: r ++ underscore :: rev q0 ++ rev pre)
      with ((d :: r) ++ underscore :: rev q0 ++ rev pre).
    rewrite (span_app_stop isdigit _ underscore _ Hrev eq_refl). cbn [fst].
    rewrite <- Er. apply rev_involutive.
  - rewrite char_eqb_refl.
    rewrite (span_app_stop isdigit _ underscore _ Hrev eq_refl). cbn [fst].
    apply rev_involutive.
Qed.

(** A match of a longer pattern is a match of each of its tails, with the
    same group. *)
Lemma search_pattern_tail a q0 s g :
  Re.search_digits_suffix (a ++ q0 ++ [underscore]) s = Some g ->
  Re.search_digits_suffix (q0 ++ [underscore]) s = Some g.
Proof.
  unfold Re.search_digits_suffix. intros Hs.
  destruct (search_sound _ _ _ Hs) as (pre & suf & -> & Hm).
  pose proof Hm as Hm'. rewrite app_assoc in Hm'.
  pose proof (match_group_canonical (a ++ q0) pre suf g Hm') as Hcanon.
  pose proof (digits_suffix_here_nonempty _ _ _ Hm) as Hne.
  apply digits_suffix_here_tail in Hm as (rest & -> & Hg & Hrest).
  pose proof (digits_suffix_here_build (q0 ++ [underscore]) g rest Hg Hne Hrest) as Hq.
  destruct (search_complete _ _ _ (pre ++ a) Hq) as (g' & Hs').
  replace (pre ++ (a ++ q0 ++ [underscore]) ++ g ++ rest)
    with ((pre ++ a) ++ (q0 ++ [underscore]) ++ g ++ rest) in *
    by now rewrite <- !app_assoc.
  rewrite Hs'. f_equal.
  destruct (search_sound _ _ _ Hs') as (pre' & suf' & Heq & Hm2).
  rewrite <- Hcanon, Heq. symmetry.
  exact (match_group_canonical q0 pre' suf' g' Hm2).
Qed.

Lemma first_pattern_line s :
  first_pattern Mismatch.patterns s = first_pattern [lit "line_"] s
  /\ first_pattern [lit "_line_"; lit "alpaca_data_line_"; lit "line_"] s
     = first_pattern [lit "line_"] s
  /\ forall n, first_pattern [lit "_line_"] s = Some n ->
               first_pattern [lit "line_"] s = Some n.
Proof.
  pose proof (search_pattern_tail (lit "_") (lit "line") s) as H1.
  pose proof (search_pattern_tail (lit "alpaca_data") (lit "_line") s) as H2.
  pose proof (search_pattern_tail (lit "data_") (lit "line") s) as H3.
  change (lit "_" ++ lit "line" ++ [underscore]) with (lit "_line_") in H1.
  change (lit "alpaca_data" ++ lit "_line" ++ [underscore])
    with (lit "alpaca_data_line_") in H2.
  change (lit "data_" ++ lit "line" ++ [underscore]) with (lit "data_line_") in H3.
  change (lit "line" ++ [underscore]) with (lit "line_") in H1, H3.
  change (lit "_line" ++ [underscore]) with (lit "_line_") in H2.
  unfold Mismatch.patterns. cbn [first_pattern].
  destruct (Re.search_digits_suffix (lit "_line_") s) as [g|] eqn:E1.
  - rewrite (H1 g eq_refl). repeat split. intros n Hn. exact Hn.
  - destruct (Re.search_digits_suffix (lit "alpaca_data_line_") s) as [g|] eqn:E2.
    { specialize (H2 g eq_refl). congruence. }
    destruct (Re.search_digits_suffix (lit "line_") s) as [g|] eqn:E3.
    + repeat split. discriminate.
    + destruct (Re.search_digits_suffix (lit "data_line_") s) as [g|] eqn:E4.
      { specialize (H3 g eq_refl). congruence. }
      repeat split. discriminate.
Qed.

(** X1.  The decoder of [mismatch.py], with four patterns, and the decoder
    of [instructOutput.py], with three, return the same for every
    identifier, and whenever the decoder of [merged_results.py] finds a
    line number the other two find the same one. *)
Theorem decoders_agree (custom_id : json) :
  Mismatch.extract_line_number_from_custom_id custom_id
  = InstructOutput.extract_line_number_from_custom_id custom_id
  /\ forall n,
       MergedResults.extract_line_number_from_custom_id custom_id = Return (Some n) ->
       InstructOutput.extract_line_number_from_custom_id custom_id = Return (Some n).
Proof.
  unfold Mismatch.extract_line_number_from_custom_id,
    InstructOutput.extract_line_number_from_custom_id,
    MergedResults.extract_line_number_from_custom_id, decode_with.
  destruct custom_id as [| | | |s| |];
    try (cbn; split; [reflexivity | discriminate]).
  cbv beta iota delta [try_except].
  destruct (first_pattern_line s) as (H4 & H3 & H1).
  split.
  - now rewrite H4, H3.
  - intros n [= Hn]. rewrite H3. do 2 f_equal. now apply H1.
Qed.

Lemma decoders_agree_witness :
  InstructOutput.extract_line_number_from_custom_id (JStr (lit "alpaca_data_line_12"))
  = Return (Some 12).
Proof.
  apply (proj2 (decoders_agree (JStr (lit "alpaca_data_line_12"))) 12).
  reflexivity.
Defined.

Lemma int_of_digits_nonneg g :
  Forall (fun c => isdigit c = true) g -> 0 <= int_of_digits g.
Proof.
  intros Hg. unfold int_of_digits.
  assert (Hacc : forall acc, 0 <= acc ->
            0 <= fold_left (fun acc c => 10 * acc + digit_val c) g acc).
  { induction Hg as [|c g Hc _ IH]; intros acc Hacc; cbn [fold_left]; [assumption|].
    apply IH. unfold digit_val. unfold isdigit in Hc.
    apply andb_prop in Hc as [Hlo _]. apply N.leb_le in Hlo. lia. }
  apply Hacc. lia.
Qed.

Lemma first_pattern_nonneg ps s n : first_pattern ps s = Some n -> 0 <= n.
Proof.
  induction ps as [|p ps IH]; cbn [first_pattern]; [discriminate|].
  destruct (Re.search_digits_suffix p s) as [g|] eqn:E; [|assumption].
  intros [= <-]. unfold Re.search_digits_suffix in E.
  destruct (search_sound _ _ _ E) as (pre & suf & _ & Hm).
  apply digits_suffix_here_tail in Hm as (rest & _ & Hg & _).
  now apply int_of_digits_nonneg.
Qed.

(** X2.  A line number that any of the three decoders returns is not
    negative. *)
Theorem decoded_key_nonnegative (custom_id : json) (n : Z) :
  MergedResults.extract_line_number_from_custom_id custom_id = Return (Some n)
  \/ InstructOutput.extract_line_number_from_custom_id custom_id = Return (Some n)
  \/ Mismatch.extract_line_number_from_custom_id custom_id = Return (Some n) ->
  0 <= n.
Proof.
  unfold Mismatch.extract_line_number_from_custom_id,
    InstructOutput.extract_line_number_from_custom_id,
    MergedResults.extract_line_number_from_custom_id, decode_with.
  destruct custom_id as [| | | |s| |];
    try (cbn; intros [H|[H|H]]; discriminate).
  cbv beta iota delta [try_except].
  intros [H|[H|H]]; injection H as H.
  - exact (first_pattern_nonneg [lit "_line_"] s n H).
  - exact (first_pattern_nonneg
             [lit "_line_"; lit "alpaca_data_line_"; lit "line_"] s n H).
  - exact (first_pattern_nonneg Mismatch.patterns s n H).
Qed.

Lemma decoded_key_nonnegative_witness : 0 <= 42.
Proof.
  apply (decoded_key_nonnegative (JStr (lit "ns_field_line_42")) 42).
  left. reflexivity.
Defined.

(** ** Trimmed texts *)

Lemma bind_Return {A B} (m : outcome A) (k : A -> outcome B) (b : B) :
  bind m k = Return b -> exists a, m = Return a /\ k a = Return b.
Proof. destruct m as [a|x]; [|discriminate]. intros Hk. now exists a. Qed.

(** One step of the inversion of a chain of tests that returned. *)
Ltac step_down H :=
  match type of H with
  | bind ?m _ = Return _ =>
      let E := fresh "E" in
      destruct m eqn:E; cbn [bind] in H; [|discriminate H]
  | (if negb ?b then _ else _) = Return _ =>
      destruct b; cbn [negb] in H; [|discriminate H]
  end.

Section Trimmed.
Context `{Runtime}.

Lemma text_field_trimmed v s :
  Extract.text_field v = Return (Some s) -> strip s = s.
Proof.
  unfold Extract.text_field. destruct (is_dict v); [|discriminate].
  intros Hv. step_down Hv. destruct a; [|discriminate].
  repeat step_down Hv. injection Hv as <-.
  unfold strip_method in E1. destruct a; try discriminate.
  injection E1 as <-. apply strip_strip.
Qed.

Lemma loads_text_field_trimmed x s :
  (parsed_json <- loads x;; Extract.text_field parsed_json) = Return (Some s) ->
  strip s = s.
Proof.
  intros Hx. step_down Hx. now apply text_field_trimmed in Hx.
Qed.

Lemma parse_text_trimmed find clean text s :
  Extract.parse_text find clean text = Return s -> strip s = s.
Proof.
  unfold Extract.parse_text. destruct text as [| | | |t| |]; try discriminate.
  intros Hp. step_down Hp.
  assert (Ha : match a with Some s' => strip s' = s' | None => True end).
  { unfold try_except in E.
    destruct (find t) as [g|].
    - destruct (parsed_json <- loads (strip g);; Extract.text_field parsed_json)
        as [[s1|]|x] eqn:E1; cbn [bind] in E.
      + injection E as <-. now apply loads_text_field_trimmed in E1.
      + destruct (parsed_json <- loads (clean t);; Extract.text_field parsed_json)
          as [[s2|]|x] eqn:E2.
        * injection E as <-. now apply loads_text_field_trimmed in E2.
        * now injection E as <-.
        * destruct (is_JSONDecodeError x); [|discriminate].
          injection E as <-. apply strip_strip.
      + destruct (is_JSONDecodeError x); [|discriminate].
        injection E as <-. apply strip_strip.
    - cbn [bind] in E.
      destruct (parsed_json <- loads (clean t);; Extract.text_field parsed_json)
        as [[s2|]|x] eqn:E2.
      + injection E as <-. now apply loads_text_field_trimmed in E2.
      + now injection E as <-.
      + destruct (is_JSONDecodeError x); [|discriminate].
        injection E as <-. apply strip_strip. }
  destruct a as [s'|]; injection Hp as <-; [assumption | apply strip_strip].
Qed.

Lemma shape_B_trimmed e s : Extract.shape_B e = Return (Some s) -> strip s = s.
Proof.
  unfold Extract.shape_B. intros He. repeat step_down He.
  injection He as <-.
  match goal with
  | E : Extract.parse_text _ _ _ = Return _ |- _ => now apply parse_text_trimmed in E
  end.
Qed.

Lemma shape_A_trimmed e s : Extract.shape_A e = Return (Some s) -> strip s = s.
Proof.
  unfold Extract.shape_A. intros He. repeat step_down He.
  injection He as <-.
  match goal with
  | E : Extract.parse_text _ _ _ = Return _ |- _ => now apply parse_text_trimmed in E
  end.
Qed.

(** X3.  A text extracted by [merged_results.py] or [instructOutput.py]
    never begins or ends with white space: trimming it again changes
    nothing.  The same holds in [mismatch.py] unless the text is the error
    text of an exception. *)
Theorem extracted_text_is_trimmed (e : json) (s : str) :
  (MergedResults.extract_text_from_result e = Return s -> strip s = s)
  /\ (InstructOutput.extract_text_from_result e = Return s -> strip s = s)
  /\ (Mismatch.extract_text_from_result e = Return s ->
      strip s = s
      \/ exists x, s = Mismatch.error_prefix ++ lit ": " ++ exn_str x).
Proof.
  unfold MergedResults.extract_text_from_result,
    InstructOutput.extract_text_from_result,
    Mismatch.extract_text_from_result, try_except.
  split; [|split].
  - destruct (Extract.shape_B e) as [[s'|]|x] eqn:EB; cbn; intros [= <-];
      [now apply shape_B_trimmed in EB | reflexivity..].
  - destruct (Extract.shape_A e) as [[s'|]|x] eqn:EA; cbn.
    + intros [= <-]. now apply shape_A_trimmed in EA.
    + destruct (Extract.shape_B e) as [[s'|]|x] eqn:EB; cbn; intros [= <-];
        [now apply shape_B_trimmed in EB | reflexivity..].
    + now intros [= <-].
  - destruct (Extract.shape_A e) as [[s'|]|x] eqn:EA; cbn; intros [= <-].
    + left. now apply shape_A_trimmed in EA.
    + now left.
    + right. now exists x.
Qed.

End Trimmed.

Lemma extracted_text_is_trimmed_witness : strip (lit "Y") = lit "Y".
Proof.
  apply (proj1 (@extracted_text_is_trimmed Reference.runtime
                  (line_B (lit "ns_output_line_3") (lit " Y ")) (lit "Y"))).
  reflexivity.
Defined.

(** ** Sizes of the ranges and gaps *)

Lemma span_size_app a b : span_size (a ++ b) = span_size a + span_size b.
Proof.
  unfold span_size. induction a as [|r a IH]; [reflexivity|].
  cbn [app fold_right]. rewrite IH. lia.
Qed.

(** [prev] ends at the last key. *)
Lemma scan_last : forall rest start prev R G,
  last (prev :: rest) = Some (Mismatch.scan rest start prev R G).1.1.2.
Proof.
  induction rest as [|c rest IH]; intros start prev R G; [reflexivity|].
  cbn [Mismatch.scan]. change (last (prev :: c :: rest)) with (last (c :: rest)).
  destruct (negb (c =? prev + 1)); apply IH.
Qed.

(** What the loop adds to the sizes: every key extends the ranges by one,
    and ranges and gaps together grow with the distance covered. *)
Lemma scan_sums : forall rest start prev R G s' p' R' G',
  StronglySorted Z.lt (prev :: rest) ->
  Mismatch.scan rest start prev R G = (s', p', R', G') ->
  span_size R' + (p' - s' + 1)
    = span_size R + (prev - start + 1) + Z.of_nat (length rest)
  /\ span_size R' + span_size G' + (p' - s' + 1)
    = span_size R + span_size G + (prev - start + 1) + (p' - prev)
  /\ (length R' + length G = length R + length G')%nat.
Proof.
  induction rest as [|c rest IH]; intros start prev R G s' p' R' G' Hs Heq.
  - cbn in Heq. injection Heq as <- <- <- <-. cbn. lia.
  - apply StronglySorted_cons in Hs as [Hprev Hs].
    apply Forall_inv in Hprev as Hlt.
    cbn [Mismatch.scan] in Heq.
    destruct (c =? prev + 1) eqn:Ec; cbn [negb] in Heq.
    + apply Z.eqb_eq in Ec.
      destruct (IH _ _ _ _ _ _ _ _ Hs Heq) as (H1 & H2 & H3).
      cbn [length]. repeat split; lia.
    + apply Z.eqb_neq in Ec.
      assert (Hgap : (1 <? c - prev) = true) by (apply Z.ltb_lt; lia).
      rewrite Hgap in Heq.
      destruct (IH _ _ _ _ _ _ _ _ Hs Heq) as (H1 & H2 & H3).
      repeat rewrite span_size_app in H1. repeat rewrite span_size_app in H2.
      repeat rewrite length_app in H3.
      change (span_size [(start, prev)]) with (prev - start + 1 + 0) in H1, H2.
      change (span_size [(prev + 1, c - 1)]) with (c - 1 - (prev + 1) + 1 + 0) in H2.
      cbn [length] in *. repeat split; lia.
Qed.

(** The dict returned for a set that is not empty. *)
Lemma find_gaps_and_ranges_form (S : gset Z) :
  S <> ∅ ->
  exists x0 rest s' p' R G,
    sorted (elements S) = x0 :: rest
    /\ Mismatch.scan rest x0 x0 [] [] = (s', p', R, G)
    /\ last (x0 :: rest) = Some p'
    /\ Mismatch.find_gaps_and_ranges S
       = Return {| Mismatch.ranges := R ++ [(s', p')];
                   Mismatch.gaps := G;
                   Mismatch.min := Some x0;
                   Mismatch.max := Some p';
                   Mismatch.total_expected := Some (p' - x0 + 1);
                   Mismatch.total_actual := Some (Mismatch.set_len S);
                   Mismatch.missing_count :=
                     Some ((p' - x0 + 1) - Mismatch.set_len S) |}.
Proof.
  intros Hne. unfold Mismatch.find_gaps_and_ranges.
  destruct (decide (S = ∅)) as [?|_]; [contradiction|].
  destruct (sorted_elements S) as (_ & Hm & _).
  destruct (sorted (elements S)) as [|x0 rest] eqn:EL.
  { exfalso. apply Hne. apply set_eq. intros k. rewrite <- Hm.
    split; intros H; inversion H. }
  pose proof (scan_last rest x0 x0 [] []) as Hlast.
  destruct (Mismatch.scan rest x0 x0 [] []) as [[[s' p'] R] G] eqn:Heq.
  cbn [fst snd] in Hlast.
  exists x0, rest, s', p', R, G. repeat (split; [first [reflexivity | assumption]|]).
  unfold Mismatch.first_item, Mismatch.last_item. rewrite Hlast.
  cbn [bind tail]. now rewrite Heq.
Qed.

(** X4.  For a set of keys that is not empty, the ranges returned by
    [find_gaps_and_ranges] span as many keys as the set has, the gaps span
    exactly the missing count, there is one range more than there are
    gaps, and the expected total is the keys of the ranges and of the gaps
    together. *)
Theorem ranges_and_gaps_add_up (S : gset Z) (p : Mismatch.line_patterns) :
  S <> ∅ ->
  Mismatch.find_gaps_and_ranges S = Return p ->
  span_size (Mismatch.ranges p) = Z.of_nat (size S)
  /\ Mismatch.total_actual p = Some (span_size (Mismatch.ranges p))
  /\ Mismatch.missing_count p = Some (span_size (Mismatch.gaps p))
  /\ Mismatch.total_expected p
     = Some (span_size (Mismatch.ranges p) + span_size (Mismatch.gaps p))
  /\ length (Mismatch.ranges p) = Datatypes.S (length (Mismatch.gaps p)).
Proof.
  intros Hne Hp.
  destruct (find_gaps_and_ranges_form S Hne)
    as (x0 & rest & s' & p' & R & G & EL & Heq & Hlast & Hform).
  rewrite Hform in Hp. injection Hp as <-.
  cbn [Mismatch.ranges Mismatch.gaps Mismatch.total_actual
       Mismatch.missing_count Mismatch.total_expected].
  destruct (sorted_elements S) as (Hs & _ & Hlen).
  rewrite EL in Hs, Hlen.
  destruct (scan_sums _ _ _ _ _ _ _ _ _ Hs Heq) as (H1 & H2 & H3).
  rewrite span_size_app, length_app.
  change (span_size [(s', p')]) with (p' - s' + 1 + 0).
  change (span_size []) with 0 in H1, H2. cbn [length] in *.
  unfold Mismatch.set_len.
  repeat split; try (f_equal; lia); lia.
Qed.

Lemma ranges_and_gaps_add_up_witness :
  span_size [(1, 3); (7, 8); (12, 12)] = 6
  /\ Some 6 = Some (span_size [(4, 6); (9, 11)]).
Proof.
  assert (Hne : ({[1; 2; 3; 7; 8; 12]} : gset Z) <> ∅).
  { intros H. assert (H1 : (1 : Z) ∈ (∅ : gset Z)) by (rewrite <- H; set_solver).
    set_solver. }
  destruct (ranges_and_gaps_add_up {[1; 2; 3; 7; 8; 12]}
              {| Mismatch.ranges := [(1, 3); (7, 8); (12, 12)];
                 Mismatch.gaps := [(4, 6); (9, 11)];
                 Mismatch.min := Some 1; Mismatch.max := Some 12;
                 Mismatch.total_expected := Some 12;
                 Mismatch.total_actual := Some 6;
                 Mismatch.missing_count := Some 6 |} Hne)
    as (H0 & _ & H2 & _).
  - vm_compute. reflexivity.
  - split; [exact H0 | exact H2].
Defined.

(** ** Lines that the loader drops *)

Section Dropped.
Context `{Runtime}.

Lemma load_lines_app : forall a b results,
  load_lines (a ++ b) results = (r <- load_lines a results;; load_lines b r).
Proof.
  induction a as [|l a IH]; intros b results; [reflexivity|].
  cbn [app load_lines]. destruct (strip l); [apply IH|].
  destruct (try_except _ _ _) as [r|x]; cbn [bind]; [apply IH | reflexivity].
Qed.

Lemma load_lines_drop bad b results :
  strip bad = [] \/ json_loads (strip bad) = Raise JSONDecodeError ->
  load_lines (bad :: b) results = load_lines b results.
Proof.
  intros Hbad. cbn [load_lines].
  destruct (strip bad) as [|c s] eqn:E; [reflexivity|].
  destruct Hbad as [? | Hbad]; [discriminate|].
  unfold loads. now rewrite Hbad.
Qed.

(** An exception that the loop does not catch leaves it, whatever the
    lines in front have given. *)
Lemma load_lines_breaks : forall lines results,
  Exists breaks_the_load lines -> exists x, load_lines lines results = Raise x.
Proof.
  intros lines results Hex. revert results.
  induction Hex as [l lines (Hne & x & Hx & Hnot)|l lines _ IH]; intros results;
    cbn [load_lines].
  - destruct (strip l) as [|c s]; [contradiction|].
    unfold loads. rewrite Hx. cbn [bind try_except]. rewrite Hnot. now exists x.
  - destruct (strip l) as [|c s]; [apply IH|].
    destruct (try_except _ _ _) as [r|x]; cbn [bind]; [apply IH | now exists x].
Qed.

Lemma load_field_with_files decode extract (files files' : list file) all :
  map load_batch_results files = map load_batch_results files' ->
  load_field_with decode extract files all = load_field_with decode extract files' all.
Proof. intros Heq. now rewrite !load_field_with_concat, Heq. Qed.

(** X5.  A line that is blank, or on which [json.loads] raises
    [JSONDecodeError], leaves no trace: the loader returns the same results
    as for the file without the line, and so do the loading loops of the
    two mergers, wherever the file stands in the sequence, and the
    analysis of the file.  A line on which [json.loads] raises another
    exception costs the whole file: the outer handler returns the empty
    list, whatever the other lines hold. *)
Theorem unreadable_line_leaves_no_trace (a b : list str) (bad : str) :
  strip bad = [] \/ json_loads (strip bad) = Raise JSONDecodeError ->
  load_batch_results (Some (a ++ bad :: b)) = load_batch_results (Some (a ++ b))
  /\ (forall pre post all,
        MergedResults.load_field (pre ++ Some (a ++ bad :: b) :: post) all
        = MergedResults.load_field (pre ++ Some (a ++ b) :: post) all)
  /\ (forall pre post all,
        InstructOutput.load_field (pre ++ Some (a ++ bad :: b) :: post) all
        = InstructOutput.load_field (pre ++ Some (a ++ b) :: post) all)
  /\ Mismatch.analyze_file_entries (Some (a ++ bad :: b))
     = Mismatch.analyze_file_entries (Some (a ++ b))
  /\ (forall lines, Exists breaks_the_load lines ->
        load_batch_results (Some lines) = []).
Proof.
  intros Hbad.
  assert (Hload : load_batch_results (Some (a ++ bad :: b))
                  = load_batch_results (Some (a ++ b))).
  { cbn [load_batch_results]. rewrite !load_lines_app.
    destruct (load_lines a []) as [r|x]; cbn [bind]; [|reflexivity].
    now rewrite load_lines_drop. }
  split; [assumption|].
  split; [|split; [|split]].
  - intros pre post all. apply load_field_with_files.
    rewrite !map_app. cbn [map]. now rewrite Hload.
  - intros pre post all. apply load_field_with_files.
    rewrite !map_app. cbn [map]. now rewrite Hload.
  - unfold Mismatch.analyze_file_entries. now rewrite Hload.
  - intros lines Hex. cbn [load_batch_results].
    now destruct (load_lines_breaks lines [] Hex) as [x ->].
Qed.

End Dropped.

Lemma unreadable_line_leaves_no_trace_witness :
  @load_batch_results Reference.runtime
    (Some [Reference.text "{'custom_id': 'ns_line_7'}"; lit "not json {"])
  = @load_batch_results Reference.runtime
      (Some [Reference.text "{'custom_id': 'ns_line_7'}"])
  /\ @load_batch_results Reference.runtime
       (Some [Reference.text "{'custom_id': 'ns_line_7'}"; Sample.deep]) = [].
Proof.
  destruct (@unreadable_line_leaves_no_trace Reference.runtime
              [Reference.text "{'custom_id': 'ns_line_7'}"] []
              (lit "not json {") (or_intror eq_refl))
    as (Hsame & _ & _ & _ & Hbreak).
  split; [exact Hsame|]. apply Hbreak.
  apply Exists_cons_tl, Exists_cons_hd. split; [discriminate|].
  exists RecursionError. split; [vm_compute; reflexivity | reflexivity].
Defined.

(** ** The counts of the mismatch report *)

Lemma size_split (X Y : gset Z) :
  Z.of_nat (size X) = Z.of_nat (size (X ∩ Y)) + Z.of_nat (size (X ∖ Y)).
Proof.
  assert (HX : X = (X ∩ Y) ∪ (X ∖ Y)).
  { apply set_eq. intros k. destruct (decide (k ∈ Y)); set_solver. }
  rewrite HX at 1. rewrite size_union by set_solver. lia.
Qed.

Lemma analyze_files_length `{Runtime} : forall files acc all acc' all',
  Mismatch.analyze_files files acc all = Return (acc', all') ->
  length acc' = (length acc + length files)%nat.
Proof.
  induction files as [|f files IH]; intros acc all acc' all' Hrun.
  - injection Hrun as <- _. cbn. lia.
  - cbn [Mismatch.analyze_files] in Hrun.
    destruct (Mismatch.analyze_file_entries f) as [a|x]; [|discriminate].
    cbn [bind] in Hrun. rewrite (IH _ _ _ _ Hrun), length_app. cbn. lia.
Qed.

(** X6.  The counts of a mismatch report are consistent: each total is the
    common lines plus the lines found on that side only, the two lists of
    missing line numbers have the lengths that the summary gives and share
    no line number, and the report holds one analysis per file. *)
Theorem mismatch_counts_consistent `{Runtime} (instruction_dir output_dir : list file)
    (r : Mismatch.mismatch_report) :
  Mismatch.find_mismatches instruction_dir output_dir = Return r ->
  let s := Mismatch.summary r in
  Mismatch.total_instruction_lines r
    = Mismatch.common_lines r + Mismatch.lines_only_in_instruction s
  /\ Mismatch.total_output_lines r
     = Mismatch.common_lines r + Mismatch.lines_only_in_output s
  /\ Mismatch.total_mismatches s
     = Z.of_nat (length (Mismatch.missing_in_output r))
       + Z.of_nat (length (Mismatch.missing_in_instruction r))
  /\ Z.of_nat (length (Mismatch.missing_in_output r))
     = Mismatch.lines_only_in_instruction s
  /\ Z.of_nat (length (Mismatch.missing_in_instruction r))
     = Mismatch.lines_only_in_output s
  /\ (forall k, k ∈ Mismatch.missing_in_output r ->
                k ∉ Mismatch.missing_in_instruction r)
  /\ length (Mismatch.instruction_files r) = length instruction_dir
  /\ length (Mismatch.output_files r) = length output_dir.
Proof.
  intros Hrun s. subst s. unfold Mismatch.find_mismatches in Hrun.
  destruct (Mismatch.analyze_files instruction_dir [] ∅) as [[ia I]|x] eqn:Hi;
    [|discriminate].
  destruct (Mismatch.analyze_files output_dir [] ∅) as [[oa O]|x] eqn:Ho;
    [|discriminate].
  cbn [bind fst snd] in Hrun. injection Hrun as <-.
  apply analyze_files_length in Hi, Ho. cbn [length Nat.add] in Hi, Ho.
  unfold Mismatch.report_of.
  cbn [Mismatch.summary Mismatch.total_instruction_lines Mismatch.total_output_lines
       Mismatch.common_lines Mismatch.lines_only_in_instruction
       Mismatch.lines_only_in_output Mismatch.total_mismatches
       Mismatch.missing_in_output Mismatch.missing_in_instruction
       Mismatch.instruction_files Mismatch.output_files].
  unfold Mismatch.set_len, Mismatch.common_lines_set,
    Mismatch.missing_in_output_set, Mismatch.missing_in_instruction_set.
  destruct (sorted_elements (I ∖ O)) as (_ & Hmo & Hlo).
  destruct (sorted_elements (O ∖ I)) as (_ & Hmi & Hli).
  rewrite Hlo, Hli.
  split; [apply size_split|].
  split; [replace (I ∩ O) with (O ∩ I) by set_solver; apply size_split|].
  repeat (split; [reflexivity|]).
  split; [|split; assumption].
  intros k Hk Hk'. apply Hmo in Hk. apply Hmi in Hk'. set_solver.
Qed.

Lemma mismatch_counts_consistent_witness :
  match @Mismatch.find_mismatches Reference.runtime
          [Sample.first_file; Sample.second_file] [] with
  | Return r =>
      Mismatch.total_instruction_lines r
      = Mismatch.common_lines r
        + Mismatch.lines_only_in_instruction (Mismatch.summary r)
  | Raise _ => False
  end.
Proof.
  destruct (@Mismatch.find_mismatches Reference.runtime
              [Sample.first_file; Sample.second_file] []) as [r|x] eqn:E.
  - exact (proj1 (@mismatch_counts_consistent Reference.runtime _ _ r E)).
  - vm_compute in E. discriminate.
Defined.

(** ** The books of an analysis *)

Lemma size_list_to_set_le (l : list Z) :
  (size (list_to_set l : gset Z) <= length l)%nat.
Proof.
  induction l as [|x l IH]; [cbn [list_to_set]; rewrite size_empty; cbn; lia|].
  cbn [list_to_set length]. rewrite size_union_alt, size_singleton.
  pose proof (subseteq_size (list_to_set l ∖ {[x]}) (list_to_set l : gset Z)) as Hle.
  assert (Hsub : (list_to_set l ∖ {[x]} : gset Z) ⊆ list_to_set l) by set_solver.
  specialize (Hle Hsub). lia.
Qed.

Lemma omap_length_le {A B} (f : A -> option B) (l : list A) :
  (length (omap f l) <= length l)%nat.
Proof.
  induction l as [|x l IH]; [reflexivity|]. cbn [omap list_omap length].
  destruct (f x); cbn [length]; fold (omap f l); lia.
Qed.

Lemma occurrences_found k : forall obs,
  0 < occurrences k obs ->
  exists o, o ∈ obs /\ Mismatch.ob_line_num o = Some k.
Proof.
  unfold occurrences.
  induction obs as [|o obs IH]; [unfold count_if; cbn; lia|].
  rewrite count_if_cons. destruct (bool_decide_reflect (Mismatch.ob_line_num o = Some k)).
  - intros _. exists o. split; [left | assumption].
  - intros Hpos. destruct IH as (o' & Hin & Ho'); [lia|].
    exists o'. split; [now right | assumption].
Qed.

(** What one pass of the loop adds to the lists and sets of the
    analysis. *)
Lemma record_entry_books i o a counts :
  let a' := (Mismatch.record_entry i o (a, counts)).1 in
  Mismatch.custom_ids a' = Mismatch.custom_ids a ++ [Mismatch.ob_custom_id o]
  /\ Mismatch.line_numbers a'
     = Mismatch.line_numbers a ∪ list_to_set (omap Mismatch.ob_line_num [o])
  /\ dom (Mismatch.entries_by_line a')
     = dom (Mismatch.entries_by_line a) ∪ list_to_set (omap Mismatch.ob_line_num [o])
  /\ Z.of_nat (length (Mismatch.error_entries a'))
     = Z.of_nat (length (Mismatch.error_entries a)) + count_if counted_failed [o]
  /\ (Forall (fun ee => Mismatch.is_failed (Mismatch.ee_error ee) = true)
        (Mismatch.error_entries a) ->
      Forall (fun ee => Mismatch.is_failed (Mismatch.ee_error ee) = true)
        (Mismatch.error_entries a')).
Proof.
  unfold Mismatch.record_entry, count_if, counted_failed. cbn [omap list_omap List.filter].
  destruct (Mismatch.ob_line_num o) as [n|];
    destruct (Mismatch.is_failed (Mismatch.ob_text o)) eqn:Ef;
    cbn [fst Mismatch.custom_ids Mismatch.line_numbers Mismatch.entries_by_line
         Mismatch.error_entries length list_to_set];
    rewrite ?dom_insert_L, ?length_app; cbn [length];
    (split; [reflexivity|]); (split; [set_solver|]); (split; [set_solver|]);
    (split; [lia|]); intros Hall; try assumption;
    (apply Forall_app; split; [assumption | constructor; [assumption | constructor]]).
Qed.

Lemma record_all_books : forall obs i a counts,
  let a' := (record_all i obs (a, counts)).1 in
  Mismatch.custom_ids a' = Mismatch.custom_ids a ++ map Mismatch.ob_custom_id obs
  /\ Mismatch.line_numbers a'
     = Mismatch.line_numbers a ∪ list_to_set (omap Mismatch.ob_line_num obs)
  /\ dom (Mismatch.entries_by_line a')
     = dom (Mismatch.entries_by_line a) ∪ list_to_set (omap Mismatch.ob_line_num obs)
  /\ Z.of_nat (length (Mismatch.error_entries a'))
     = Z.of_nat (length (Mismatch.error_entries a)) + count_if counted_failed obs
  /\ (Forall (fun ee => Mismatch.is_failed (Mismatch.ee_error ee) = true)
        (Mismatch.error_entries a) ->
      Forall (fun ee => Mismatch.is_failed (Mismatch.ee_error ee) = true)
        (Mismatch.error_entries a')).
Proof.
  induction obs as [|o os IH]; intros i a counts.
  - cbn. unfold count_if. cbn. rewrite app_nil_r.
    repeat split; first [set_solver | lia | tauto].
  - cbn [record_all].
    destruct (Mismatch.record_entry i o (a, counts)) as [a1 c1] eqn:E.
    pose proof (record_entry_books i o a counts) as Hstep.
    rewrite E in Hstep. cbn [fst] in Hstep.
    destruct Hstep as (Hc & Hl & Hd & He & Hf).
    destruct (IH (i + 1) a1 c1) as (Hc' & Hl' & Hd' & He' & Hf').
    rewrite Hc', Hl', Hd', He', Hc, Hl, Hd, He. rewrite !count_if_cons.
    change (count_if counted_failed []) with 0.
    cbn [map omap list_omap] in *.
    split; [now rewrite <- app_assoc|].
    split; [destruct (Mismatch.ob_line_num o); set_solver|].
    split; [destruct (Mismatch.ob_line_num o); set_solver|].
    split; [lia|]. tauto.
Qed.

(** X7.  The books of the analysis of a file balance: one custom id is
    kept per entry, the line numbers are the keys decoded from the
    entries and are exactly the keys of [entries_by_line], there are at
    most as many of them as entries, the error entries are as many as the
    failed extractions and each carries an error text, and every line
    number reported as duplicate is among the line numbers. *)
Theorem analysis_books_balance `{Runtime} (results : list json) (a : Mismatch.analysis) :
  Mismatch.analyze_results results = Return a ->
  exists obs,
    observe_all 0 results = Return obs
    /\ Mismatch.custom_ids a = map Mismatch.ob_custom_id obs
    /\ length (Mismatch.custom_ids a) = length results
    /\ (forall k, k ∈ Mismatch.line_numbers a
                  <-> exists o, o ∈ obs /\ Mismatch.ob_line_num o = Some k)
    /\ dom (Mismatch.entries_by_line a) = Mismatch.line_numbers a
    /\ Z.of_nat (size (Mismatch.line_numbers a)) <= Mismatch.total_entries a
    /\ Z.of_nat (length (Mismatch.error_entries a)) = Mismatch.failed_extractions a
    /\ Forall (fun ee => Mismatch.is_failed (Mismatch.ee_error ee) = true)
         (Mismatch.error_entries a)
    /\ (forall k c, (k, c) ∈ Mismatch.duplicate_line_numbers a ->
                    k ∈ Mismatch.line_numbers a /\ 2 <= c <= Mismatch.total_entries a).
Proof.
  intros Hrun.
  destruct (duplicates_of_file results a Hrun) as (obs & Hobs & Hdup).
  unfold Mismatch.analyze_results in Hrun.
  destruct (Mismatch.analyze_loop 0 results _) as [st|x] eqn:Hloop; [|discriminate].
  injection Hrun as <-.
  destruct (analyze_loop_observed _ _ _ _ Hloop) as (obs' & Hobs' & ->).
  assert (obs' = obs) as -> by congruence.
  exists obs. split; [assumption|].
  destruct (record_all_books obs 0 (Mismatch.initial_analysis results) [])
    as (Hc & Hl & Hd & He & Hf).
  destruct (record_all_tallies obs 0 (Mismatch.initial_analysis results) [])
    as (F & _ & _ & To & _).
  cbn [Mismatch.initial_analysis Mismatch.custom_ids Mismatch.line_numbers
       Mismatch.entries_by_line Mismatch.error_entries Mismatch.failed_extractions
       Mismatch.total_entries length app] in Hc, Hl, Hd, He, Hf, F, To.
  rewrite dom_empty_L in Hd.
  cbn [Mismatch.with_duplicates Mismatch.custom_ids Mismatch.line_numbers
       Mismatch.entries_by_line Mismatch.error_entries Mismatch.failed_extractions
       Mismatch.total_entries] in *.
  pose proof (observe_all_length _ _ _ Hobs) as Hlen.
  assert (Hmem : forall k,
             k ∈ Mismatch.line_numbers (record_all 0 obs (Mismatch.initial_analysis results, [])).1
             <-> exists o, o ∈ obs /\ Mismatch.ob_line_num o = Some k).
  { intros k. rewrite Hl, elem_of_union, elem_of_list_to_set, list_elem_of_omap.
    split; [intros [Hk|Hk]; [set_solver | exact Hk] | intros Hk; now right]. }
  assert (Hocc : forall k, occurrences k obs <= Z.of_nat (length obs)).
  { intros k. unfold occurrences, count_if.
    pose proof (filter_length_le
                  (fun o => bool_decide (Mismatch.ob_line_num o = Some k)) obs). lia. }
  split; [assumption|].
  split; [now rewrite Hc, length_map|].
  split; [assumption|].
  split; [now rewrite Hd, Hl|].
  split.
  { rewrite Hl, To. replace (∅ ∪ list_to_set (omap Mismatch.ob_line_num obs))
      with (list_to_set (omap Mismatch.ob_line_num obs) : gset Z) by set_solver.
    pose proof (size_list_to_set_le (omap Mismatch.ob_line_num obs)) as Hs.
    pose proof (omap_length_le Mismatch.ob_line_num obs) as Ho. lia. }
  split; [lia|].
  split; [apply Hf; constructor|].
  intros k c Hkc. apply Hdup in Hkc as [-> Hc2]. split.
  - apply Hmem. apply occurrences_found. lia.
  - rewrite To. specialize (Hocc k). lia.
Qed.

Lemma analysis_books_balance_witness :
  match @Mismatch.analyze_results Reference.runtime
          [Sample.identified; Sample.anonymous; Sample.identified] with
  | Return a => dom (Mismatch.entries_by_line a) = Mismatch.line_numbers a
  | Raise _ => False
  end.
Proof.
  destruct (@Mismatch.analyze_results Reference.runtime
              [Sample.identified; Sample.anonymous; Sample.identified])
    as [a|x] eqn:E.
  - destruct (@analysis_books_balance Reference.runtime _ a E)
      as (obs & _ & _ & _ & _ & Hd & _). exact Hd.
  - vm_compute in E. discriminate.
Defined.

(** ** The entry kept for a line number *)

Lemma record_all_app : forall pre post i st,
  record_all i (pre ++ post) st
  = record_all (i + Z.of_nat (length pre)) post (record_all i pre st).
Proof.
  induction pre as [|o pre IH]; intros post i st.
  - cbn. now rewrite Z.add_0_r.
  - cbn [app record_all length]. rewrite IH. f_equal. lia.
Qed.

Lemma record_all_keeps_entry k : forall post i st,
  (forall o, o ∈ post -> Mismatch.ob_line_num o <> Some k) ->
  Mismatch.entries_by_line (record_all i post st).1 !! k
  = Mismatch.entries_by_line st.1 !! k.
Proof.
  induction post as [|o post IH]; intros i st Hpost; [reflexivity|].
  cbn [record_all]. rewrite IH by (intros o' Ho'; apply Hpost; now right).
  assert (Ho : Mismatch.ob_line_num o <> Some k) by (apply Hpost; left).
  destruct st as [a counts]. unfold Mismatch.record_entry.
  destruct (Mismatch.ob_line_num o) as [n|]; cbn [fst Mismatch.entries_by_line];
    [|reflexivity].
  apply lookup_insert_ne. congruence.
Qed.

(** X8.  When several entries of a file decode to the same line number,
    [entries_by_line] keeps the last of them: its custom id, its text, the
    length of the text, and as entry index its position in the file. *)
Theorem entry_kept_is_the_last `{Runtime} (results : list json) (a : Mismatch.analysis)
    (pre post : list Mismatch.observation) (o : Mismatch.observation) (k : Z) :
  Mismatch.analyze_results results = Return a ->
  observe_all 0 results = Return (pre ++ o :: post) ->
  Mismatch.ob_line_num o = Some k ->
  (forall o', o' ∈ post -> Mismatch.ob_line_num o' <> Some k) ->
  Mismatch.entries_by_line a !! k
  = Some {| Mismatch.ei_custom_id := Mismatch.ob_custom_id o;
            Mismatch.ei_extracted_text := Mismatch.ob_text o;
            Mismatch.ei_text_length := Z.of_nat (length (Mismatch.ob_text o));
            Mismatch.ei_entry_index := Z.of_nat (length pre) |}.
Proof.
  intros Hrun Hobs Hk Hpost. unfold Mismatch.analyze_results in Hrun.
  destruct (Mismatch.analyze_loop 0 results _) as [st|x] eqn:Hloop; [|discriminate].
  injection Hrun as <-.
  destruct (analyze_loop_observed _ _ _ _ Hloop) as (obs & Hobs' & ->).
  assert (obs = pre ++ o :: post) as -> by congruence.
  cbn [Mismatch.with_duplicates Mismatch.entries_by_line].
  rewrite record_all_app. cbn [record_all].
  rewrite record_all_keeps_entry by assumption.
  destruct (record_all 0 pre (Mismatch.initial_analysis results, [])) as [a1 c1].
  unfold Mismatch.record_entry. rewrite Hk. cbn [fst Mismatch.entries_by_line].
  rewrite Z.add_0_l. apply lookup_insert_eq.
Qed.

Lemma entry_kept_is_the_last_witness :
  match @Mismatch.analyze_results Reference.runtime
          [Sample.identified; Sample.anonymous; Sample.identified] with
  | Return a => option_map Mismatch.ei_entry_index (Mismatch.entries_by_line a !! 3)
  | Raise _ => None
  end = Some 2.
Proof.
  destruct (@Mismatch.analyze_results Reference.runtime
              [Sample.identified; Sample.anonymous; Sample.identified])
    as [a|x] eqn:E.
  - rewrite (@entry_kept_is_the_last Reference.runtime _ a
               [ {| Mismatch.ob_custom_id := JStr (lit "ns_line_3");
                    Mismatch.ob_line_num := Some 3;
                    Mismatch.ob_text := lit "Y" |};
                 {| Mismatch.ob_custom_id := JStr (lit "unknown_1");
                    Mismatch.ob_line_num := None;
                    Mismatch.ob_text := lit "Y" |} ]
               []
               {| Mismatch.ob_custom_id := JStr (lit "ns_line_3");
                  Mismatch.ob_line_num := Some 3;
                  Mismatch.ob_text := lit "Y" |} 3 E).
    + reflexivity.
    + vm_compute. reflexivity.
    + reflexivity.
    + intros o' Ho'. inversion Ho'.
  - vm_compute in E. discriminate.
Defined.

(** ** The pattern analysis *)






(** ** Results files that are missing *)

Lemma load_field_with_missing `{Runtime} decode extract (files : list file) all :
  Forall (fun f => f = None) files ->
  load_field_with decode extract files all = Return all.
Proof.
  induction 1 as [|f files -> _ IH]; [reflexivity|].
  cbn [load_field_with load_batch_results load_results_with bind]. exact IH.
Qed.

(** X10.  [merged_results.py] looks for batch numbers in the instruction
    directory only.  When for none of the batches found there the input
    result file exists, or for none of them the output result file, it
    writes nothing, whatever the instruction results are and whatever
    other files the two directories hold: it returns without a merged
    file, unless an exception of the loading loops ends it. *)
Theorem missing_field_writes_nothing `{Runtime} (d : MergedResults.results_dirs) :
  (forall b, b ∈ MergedResults.found_batches d -> MergedResults.input_file d b = None)
  \/ (forall b, b ∈ MergedResults.found_batches d -> MergedResults.output_file d b = None) ->
  (MergedResults.create_single_merged_file d = Return None
   \/ exists x, MergedResults.create_single_merged_file d = Raise x)
  /\ forall entries,
       MergedResults.create_single_merged_file d <> Return (Some entries).
Proof.
  intros Hmiss.
  assert (Hres : MergedResults.create_single_merged_file d = Return None
                 \/ exists x, MergedResults.create_single_merged_file d = Raise x).
  { unfold MergedResults.create_single_merged_file.
    destruct (MergedResults.found_batches d) as [|b0 bs] eqn:Eb; [now left|].
    set (batches := sorted (b0 :: bs)).
    assert (Hfound : forall b, b ∈ batches -> b ∈ b0 :: bs).
    { intros b Hb. subst batches. unfold sorted in Hb.
      now rewrite merge_sort_Permutation in Hb. }
    assert (Hnone : forall file_of : Z -> file,
               (forall b, b ∈ b0 :: bs -> file_of b = None) ->
               Forall (fun f => f = None) (map file_of batches)).
    { intros file_of Hf. apply Forall_forall. intros f Hin.
      apply list_elem_of_fmap in Hin as (b & -> & Hb). apply Hf. now apply Hfound. }
    destruct (MergedResults.load_field
                (map (MergedResults.instruction_file d) batches) ∅)
      as [I|x]; [|right; now exists x].
    cbn [bind]. unfold MergedResults.load_field, MergedResults.merge,
      MergedResults.common_lines in *.
    destruct Hmiss as [Hin|Hout].
    - rewrite (load_field_with_missing _ _ (map (MergedResults.input_file d) batches))
        by now apply Hnone.
      cbn [bind].
      destruct (load_field_with _ _ (map (MergedResults.output_file d) batches) ∅)
        as [O|x]; [|right; now exists x].
      cbn [bind]. rewrite decide_True by set_solver. now left.
    - destruct (load_field_with _ _ (map (MergedResults.input_file d) batches) ∅)
        as [N|x]; [|right; now exists x].
      cbn [bind].
      rewrite (load_field_with_missing _ _ (map (MergedResults.output_file d) batches))
        by now apply Hnone.
      cbn [bind]. rewrite decide_True by set_solver. now left. }
  split; [assumption|].
  intros entries. destruct Hres as [-> | [x ->]]; discriminate.
Qed.

Lemma missing_field_writes_nothing_witness :
  @MergedResults.create_single_merged_file Reference.runtime Sample.no_input_for_batch
  = Return None.
Proof.
  assert (Hmiss : forall b,
             b ∈ MergedResults.found_batches Sample.no_input_for_batch ->
             MergedResults.input_file Sample.no_input_for_batch b = None).
  { intros b Hb. cbn in Hb. apply list_elem_of_singleton in Hb as ->. reflexivity. }
  destruct (proj1 (@missing_field_writes_nothing Reference.runtime
                     Sample.no_input_for_batch (or_introl Hmiss)))
    as [Hnone|[x Hx]].
  - exact Hnone.
  - vm_compute in Hx. discriminate.
Defined.

(** ** Safe names *)

Lemma is_safe_underscore : Creator.is_safe (ascii_of_N 95) = true.
Proof. reflexivity. Qed.

Lemma sanitize_char_safe c :
  Creator.is_safe (if Creator.is_safe c then c else ascii_of_N 95) = true.
Proof. destruct (Creator.is_safe c) eqn:E; [assumption | reflexivity]. Qed.

(** X11.  [sanitize_custom_id] keeps the length of the name and returns only
    letters, digits, [-], [_] and [.]; it changes nothing in a name made of
    such characters, so sanitizing twice is sanitizing once; and the
    result holds no white space. *)
Theorem sanitized_name_is_safe (text : str) :
  length (Creator.sanitize_custom_id text) = length text
  /\ Forall (fun c => Creator.is_safe c = true) (Creator.sanitize_custom_id text)
  /\ Creator.sanitize_custom_id (Creator.sanitize_custom_id text)
     = Creator.sanitize_custom_id text
  /\ (Forall (fun c => Creator.is_safe c = true) text ->
      Creator.sanitize_custom_id text = text)
  /\ Forall (fun c => isspace c = false) (Creator.sanitize_custom_id text).
Proof.
  unfold Creator.sanitize_custom_id.
  split; [apply length_map|].
  assert (Hsafe : Forall (fun c => Creator.is_safe c = true)
                    (map (fun c => if Creator.is_safe c then c else ascii_of_N 95) text)).
  { apply Forall_map, Forall_forall. intros c _. apply sanitize_char_safe. }
  assert (Hfix : forall t, Forall (fun c => Creator.is_safe c = true) t ->
                   map (fun c => if Creator.is_safe c then c else ascii_of_N 95) t = t).
  { induction 1 as [|c t Hc _ IH]; [reflexivity|]. cbn [map]. now rewrite Hc, IH. }
  split; [assumption|]. split; [now apply Hfix|]. split; [apply Hfix|].
  eapply Forall_impl; [exact Hsafe|].
  intros c Hc. destruct c as [[] [] [] [] [] [] [] []]; vm_compute in Hc |- *;
    first [reflexivity | discriminate].
Qed.

Lemma sanitized_name_is_safe_witness :
  Creator.sanitize_custom_id (lit "alpaca_data") = lit "alpaca_data".
Proof.
  apply (proj1 (proj2 (proj2 (proj2 (sanitized_name_is_safe (lit "alpaca_data")))))).
  repeat constructor.
Defined.

(** ** Batches *)

Lemma slice_take_drop {A} (l : list A) (a b : Z) :
  0 <= a <= b ->
  Creator.slice l a b = take (Z.to_nat b - Z.to_nat a) (drop (Z.to_nat a) l).
Proof.
  intros Hab. unfold Creator.slice, Creator.slice_index.
  destruct (Z.ltb_spec a 0) as [?|_]; [lia|].
  destruct (Z.ltb_spec b 0) as [?|_]; [lia|].
  set (n := Z.of_nat (length l)).
  destruct (Z.le_gt_cases n a) as [Hna|Hna].
  - rewrite (drop_ge l (Z.to_nat a)) by lia.
    rewrite (drop_ge l (Z.to_nat (Z.min a n))) by lia.
    now rewrite !take_nil.
  - replace (Z.min a n) with a by lia.
    destruct (Z.le_gt_cases b n) as [Hbn|Hbn].
    + replace (Z.min b n) with b by lia. f_equal. lia.
    + replace (Z.min b n) with n by lia.
      rewrite !take_ge; [reflexivity | |]; rewrite length_drop; lia.
Qed.

Lemma range_lookup (n : Z) (i : nat) (x : Z) :
  Creator.range n !! i = Some x <-> x = Z.of_nat i /\ Z.of_nat i < n.
Proof.
  unfold Creator.range. rewrite list_lookup_fmap_Some. split.
  - intros (j & -> & Hj). destruct (proj1 (lookup_seq _ _ _ _) Hj) as [-> Hlt].
    split; [reflexivity | lia].
  - intros [-> Hlt]. exists i. split; [reflexivity|].
    apply (lookup_seq_lt 0 (Z.to_nat n) i). lia.
Qed.

Lemma range_length n : length (Creator.range n) = Z.to_nat n.
Proof. unfold Creator.range. now rewrite length_map, length_seq. Qed.

(** The number of batches is the least number that holds all lines. *)
Lemma num_batches_bounds (total batch_size : Z) :
  0 <= total -> 0 < batch_size ->
  let num_batches := (total + batch_size - 1) / batch_size in
  0 <= num_batches
  /\ (num_batches - 1) * batch_size < total + (if total =? 0 then 1 else 0)
  /\ total <= num_batches * batch_size.
Proof.
  intros Ht Hb num_batches.
  pose proof (Z.mul_div_le (total + batch_size - 1) batch_size Hb) as Hle.
  pose proof (Z.mul_succ_div_gt (total + batch_size - 1) batch_size Hb) as Hgt.
  fold num_batches in Hle, Hgt.
  assert (0 <= num_batches) by (apply Z.div_pos; lia).
  destruct (Z.eqb_spec total 0); repeat split; nia.
Qed.

(** The chunk of the batch at position [i]. *)
Lemma chunk_take_drop (all_lines : list str) (batch_size : Z) (i : nat) :
  0 < batch_size ->
  Z.of_nat i * batch_size <= Z.of_nat (length all_lines) ->
  Creator.slice all_lines (Z.of_nat i * batch_size)
    (Z.min (Z.of_nat i * batch_size + batch_size) (Z.of_nat (length all_lines)))
  = take (Z.to_nat batch_size) (drop (i * Z.to_nat batch_size) all_lines).
Proof.
  intros Hb Hi. rewrite slice_take_drop by lia.
  replace (Z.to_nat (Z.of_nat i * batch_size)) with (i * Z.to_nat batch_size)%nat by nia.
  destruct (Z.le_gt_cases (Z.of_nat i * batch_size + batch_size)
              (Z.of_nat (length all_lines))) as [Hle|Hgt].
  - f_equal. nia.
  - rewrite !take_ge; [reflexivity | |]; rewrite length_drop; nia.
Qed.

Lemma concat_chunks (all_lines : list str) (B : nat) : forall k,
  concat (map (fun i => take B (drop (i * B) all_lines)) (seq 0 k))
  = take (k * B) all_lines.
Proof.
  induction k as [|k IH]; [reflexivity|].
  rewrite seq_S, map_app, concat_app, IH. cbn [map concat Nat.add].
  rewrite app_nil_r, take_take_drop. f_equal. lia.
Qed.

(** The batches of a positive batch size. *)
Lemma chunks_spec (all_lines : list str) (batch_size : Z)
    (cs : list (Z * Z * list str)) :
  0 < batch_size ->
  Creator.chunks all_lines batch_size = inr cs ->
  let total := Z.of_nat (length all_lines) in
  concat (map snd cs) = all_lines
  /\ Z.of_nat (length cs) = (total + batch_size - 1) / batch_size
  /\ forall (i : nat) (c : Z * Z * list str),
       cs !! i = Some c ->
       c.1.1 = Z.of_nat i + 1
       /\ c.1.2 = Z.of_nat i * batch_size
       /\ c.2 = take (Z.to_nat batch_size) (drop (Z.to_nat c.1.2) all_lines)
       /\ Z.of_nat (length c.2) = Z.min batch_size (total - c.1.2)
       /\ 0 < Z.of_nat (length c.2).
Proof.
  intros Hb Hcs total. unfold Creator.chunks in Hcs.
  destruct (Z.eqb_spec batch_size 0) as [?|_]; [lia|].
  injection Hcs as <-. fold total.
  set (num_batches := (total + batch_size - 1) / batch_size).
  destruct (num_batches_bounds total batch_size) as (Hn0 & Hlast & Hall); [lia..|].
  fold num_batches in Hn0, Hlast, Hall.
  assert (Hstart : forall i : nat, Z.of_nat i < num_batches ->
                     Z.of_nat i * batch_size < total).
  { intros i Hi. destruct (Z.eqb_spec total 0) as [Hz|Hz]; [|nia].
    assert (num_batches = 0); [|lia].
    unfold num_batches. rewrite Hz. apply Z.div_small. lia. }
  split; [|split].
  - rewrite map_map. cbn [snd]. unfold Creator.range. rewrite map_map.
    rewrite (map_ext_in _ (fun i => take (Z.to_nat batch_size)
                                  (drop (i * Z.to_nat batch_size) all_lines))).
    + rewrite concat_chunks. apply take_ge. subst total. nia.
    + intros i Hi. apply in_seq in Hi. apply chunk_take_drop; [assumption|].
      specialize (Hstart i). fold total. lia.
  - rewrite length_map, range_length. lia.
  - intros i c Hc. apply list_lookup_fmap_Some in Hc as (x & -> & Hx).
    apply range_lookup in Hx as [-> Hi]. cbn [fst snd].
    specialize (Hstart i Hi).
    rewrite chunk_take_drop by (fold total; lia).
    replace (Z.to_nat (Z.of_nat i * batch_size)) with (i * Z.to_nat batch_size)%nat by nia.
    repeat (split; [reflexivity|]).
    rewrite length_take, length_drop. fold total. subst total. split; nia.
Qed.

(** X12.  With a positive batch size the batches partition the lines of the
    source file: the chunks put one after the other are the lines, there
    are [ceil(total / batch_size)] of them, the chunk at position [i] has
    the batch number [i + 1], starts at line [i * batch_size] and holds the
    next [batch_size] lines or what is left of them, and no chunk is
    empty. *)
Theorem batches_partition_the_lines (all_lines : list str) (batch_size : Z)
    (cs : list (Z * Z * list str)) :
  0 < batch_size ->
  Creator.chunks all_lines batch_size = inr cs ->
  let total := Z.of_nat (length all_lines) in
  concat (map snd cs) = all_lines
  /\ Z.of_nat (length cs) = (total + batch_size - 1) / batch_size
  /\ forall (i : nat) (c : Z * Z * list str),
       cs !! i = Some c ->
       c.1.1 = Z.of_nat i + 1
       /\ c.1.2 = Z.of_nat i * batch_size
       /\ c.2 = take (Z.to_nat batch_size) (drop (Z.to_nat c.1.2) all_lines)
       /\ Z.of_nat (length c.2) = Z.min batch_size (total - c.1.2)
       /\ 0 < Z.of_nat (length c.2).
Proof. apply chunks_spec. Qed.

Lemma batches_partition_the_lines_witness :
  match Creator.chunks [lit "a"; lit "b"; lit "c"] 2 with
  | inr cs => concat (map snd cs) = [lit "a"; lit "b"; lit "c"]
  | inl _ => False
  end.
Proof.
  destruct (Creator.chunks [lit "a"; lit "b"; lit "c"] 2) as [e|cs] eqn:E.
  - vm_compute in E. discriminate.
  - apply (proj1 (batches_partition_the_lines _ 2 cs ltac:(lia) E)).
Defined.

(** ** Requests *)

Lemma collect_inr {A B} (f : A -> Creator.error + B) : forall l ys,
  Creator.collect f l = inr ys -> Forall2 (fun x y => f x = inr y) l ys.
Proof.
  induction l as [|x l IH]; intros ys Hc; cbn [Creator.collect] in Hc.
  - injection Hc as <-. constructor.
  - destruct (f x) as [e|y] eqn:Ex; [discriminate|].
    destruct (Creator.collect f l) as [e|ys']; [discriminate|].
    injection Hc as <-. constructor; [assumption | now apply IH].
Qed.

Lemma collect_inl {A B} (f : A -> Creator.error + B) : forall l e,
  Creator.collect f l = inl e -> exists x, x ∈ l /\ f x = inl e.
Proof.
  induction l as [|x l IH]; intros e Hc; cbn [Creator.collect] in Hc; [discriminate|].
  destruct (f x) as [e'|y] eqn:Ex.
  - injection Hc as <-. exists x. split; [left | assumption].
  - destruct (Creator.collect f l) as [e'|ys']; [|discriminate].
    injection Hc as <-. destruct (IH e' eq_refl) as (x' & Hin & Hx').
    exists x'. split; [now right | assumption].
Qed.

Lemma collect_all {A B} (f : A -> Creator.error + B) (l : list A) :
  Forall (fun x => exists y, f x = inr y) l -> exists ys, Creator.collect f l = inr ys.
Proof.
  induction 1 as [|x l [y Hy] _ [ys IH]]; [now exists []|].
  exists (y :: ys). cbn [Creator.collect]. now rewrite Hy, IH.
Qed.

Lemma negative_chunks_empty (all_lines : list str) (batch_size : Z)
    (cs : list (Z * Z * list str)) :
  batch_size < 0 ->
  Creator.chunks all_lines batch_size = inr cs ->
  Forall (fun c => c.2 = []) cs /\ (length cs <= 2)%nat.
Proof.
  intros Hb Hcs. unfold Creator.chunks in Hcs.
  destruct (Z.eqb_spec batch_size 0) as [?|_]; [lia|].
  injection Hcs as <-.
  set (total := Z.of_nat (length all_lines)).
  set (num_batches := (total + batch_size - 1) / batch_size).
  assert (Hdiv : total + batch_size - 1
                 = batch_size * num_batches + (total + batch_size - 1) mod batch_size)
    by (apply Z.div_mod; lia).
  pose proof (Z.mod_neg_bound (total + batch_size - 1) batch_size Hb) as Hmod.
  assert (Htotal : 0 <= total) by (subst total; lia).
  split.
  - apply Forall_map, Forall_forall. intros i Hi. cbn [snd].
    apply list_elem_of_lookup in Hi as [k Hk]. apply range_lookup in Hk as [-> Hk].
    fold num_batches in Hk.
    unfold Creator.slice, Creator.slice_index. fold total.
    assert (Hsmall : total <= 1) by nia.
    replace (Z.min (Z.of_nat k * batch_size + batch_size) total)
      with (Z.of_nat k * batch_size + batch_size) by nia.
    destruct (Z.ltb_spec (Z.of_nat k * batch_size + batch_size) 0) as [_|?]; [|nia].
    destruct (Z.ltb_spec (Z.of_nat k * batch_size) 0) as [Hneg|Hzero].
    + replace (Z.to_nat _) with 0%nat by nia. apply take_0.
    + replace (Z.to_nat (_ - _)) with 0%nat by nia. apply take_0.
  - rewrite length_map, range_length. fold num_batches. nia.
Qed.

Section Requests.
Context `{Runtime}.
Variable PROMPT_TEMPLATE : str.
Variable repr : json -> str.

Lemma requests_spec f base : forall chunk idx rs,
  Creator.requests PROMPT_TEMPLATE repr chunk f base idx = inr rs ->
  length rs = length chunk
  /\ forall (j : nat) r,
       rs !! j = Some r ->
       exists line text,
         chunk !! j = Some line
         /\ Creator.field_text repr f line = inr text
         /\ Creator.user_content r = PROMPT_TEMPLATE ++ text
         /\ Creator.custom_id r
            = BatchProcessWithInput.custom_id base f (idx + Z.of_nat j).
Proof.
  induction chunk as [|line chunk IH]; intros idx rs Hr; cbn [Creator.requests] in Hr.
  - injection Hr as <-. split; [reflexivity|]. intros j r Hj. inversion Hj.
  - destruct (Creator.field_text repr f line) as [e|text] eqn:Et; [discriminate|].
    destruct (Creator.requests PROMPT_TEMPLATE repr chunk f base (idx + 1)) as [e|rs'] eqn:Er; [discriminate|].
    injection Hr as <-. destruct (IH _ _ Er) as [Hlen Hat].
    split; [cbn [length]; now rewrite Hlen|].
    intros [|j] r Hj.
    + injection Hj as <-. exists line, text. cbn. rewrite Z.add_0_r. auto.
    + destruct (Hat j r Hj) as (l' & t' & Hl' & Ht' & Hu & Hc).
      exists l', t'. repeat (split; [assumption|]). rewrite Hc. f_equal. lia.
Qed.

Lemma requests_inl f base : forall chunk idx e,
  Creator.requests PROMPT_TEMPLATE repr chunk f base idx = inl e ->
  exists line, line ∈ chunk /\ Creator.field_text repr f line = inl e.
Proof.
  induction chunk as [|line chunk IH]; intros idx e Hr; cbn [Creator.requests] in Hr;
    [discriminate|].
  destruct (Creator.field_text repr f line) as [e'|text] eqn:Et.
  - injection Hr as <-. exists line. split; [left | assumption].
  - destruct (Creator.requests PROMPT_TEMPLATE repr chunk f base (idx + 1)) as [e'|rs'] eqn:Er; [|discriminate].
    injection Hr as <-. destruct (IH _ _ Er) as (l' & Hin & Hl').
    exists l'. split; [now right | assumption].
Qed.

Lemma requests_all f base : forall chunk idx,
  Forall (fun line => exists text, Creator.field_text repr f line = inr text) chunk ->
  exists rs, Creator.requests PROMPT_TEMPLATE repr chunk f base idx = inr rs.
Proof.
  induction chunk as [|line chunk IH]; intros idx Hall; [now exists []|].
  apply Forall_cons in Hall as [[text Ht] Hall].
  destruct (IH (idx + 1) Hall) as [rs Hrs].
  eexists. cbn [Creator.requests]. now rewrite Ht, Hrs.
Qed.

Lemma fields_known f : f ∈ Creator.fields -> existsb (str_eqb f) Creator.fields = true.
Proof.
  intros Hf. unfold Creator.fields in *.
  repeat (apply elem_of_cons in Hf as [->|Hf]; [reflexivity|]). inversion Hf.
Qed.

(** The batch files of one chunk. *)
Lemma chunk_files base (c : Z * Z * list str) (fs : list Creator.batch_file) :
  Creator.collect (fun f => Creator.create_batch_for_field PROMPT_TEMPLATE repr c.2 f c.1.1 base c.1.2)
    Creator.fields = inr fs ->
  Forall2 (fun f bf =>
             Creator.bf_field bf = f /\ Creator.bf_batch bf = c.1.1
             /\ Creator.requests PROMPT_TEMPLATE repr c.2 f base c.1.2 = inr (Creator.bf_requests bf))
    Creator.fields fs.
Proof.
  intros Hc. apply collect_inr in Hc.
  eapply Forall2_impl; [exact Hc|]. intros f bf Hbf. cbn beta in Hbf.
  unfold Creator.create_batch_for_field in Hbf.
  destruct (existsb _ _); [|discriminate].
  destruct (Creator.requests PROMPT_TEMPLATE repr c.2 f base c.1.2) as [e|rs]; [discriminate|].
  now injection Hbf as <-.
Qed.

(** What [process_file] returns: the batch files of the chunks, chunk after
    chunk. *)
Lemma process_file_files stem (all_lines : list str) batch_size files :
  Creator.process_file PROMPT_TEMPLATE repr stem (Some all_lines) batch_size = inr files ->
  exists cs fss,
    Creator.chunks all_lines batch_size = inr cs
    /\ files = concat fss
    /\ Forall2 (fun c fs =>
                  Forall2 (fun f bf =>
                             Creator.bf_field bf = f /\ Creator.bf_batch bf = c.1.1
                             /\ Creator.requests PROMPT_TEMPLATE repr c.2 f
                                  (Creator.sanitize_custom_id stem) c.1.2
                                = inr (Creator.bf_requests bf))
                    Creator.fields fs)
         cs fss.
Proof.
  unfold Creator.process_file. intros Hp.
  destruct (Creator.chunks all_lines batch_size) as [e|cs]; [discriminate|].
  destruct (Creator.collect _ cs) as [e|fss] eqn:Hc; [discriminate|].
  injection Hp as <-. exists cs, fss. repeat (split; [reflexivity|]).
  apply collect_inr in Hc. eapply Forall2_impl; [exact Hc|].
  intros c fs Hfs. now apply chunk_files.
Qed.

Lemma chunk_file_keys (c : Z * Z * list str) (P : str -> Creator.batch_file -> Prop)
    (fs : list Creator.batch_file) (l : list str) :
  Forall2 (fun f bf => Creator.bf_field bf = f /\ Creator.bf_batch bf = c.1.1 /\ P f bf)
    l fs ->
  map (fun bf => (Creator.bf_batch bf, Creator.bf_field bf)) fs
  = map (fun f => (c.1.1, f)) l.
Proof.
  induction 1 as [|f bf l fs (Hf & Hb & _) _ IH]; [reflexivity|].
  cbn [map]. now rewrite Hf, Hb, IH.
Qed.

(** X13.  With a positive batch size [process_file] writes, batch after
    batch, one file for each of the fields [instruction], [input] and
    [output]; the file of batch [b] holds one request for each line from
    [(b - 1) * batch_size] on, blank and undecodable lines included; the
    request at position [j] carries the text of the field in that line
    after the prompt, and its custom id is the one that the merger decodes
    to the index of the line. *)
Theorem requests_carry_their_lines (stem : str) (all_lines : list str)
    (batch_size : Z) (files : list Creator.batch_file) :
  0 < batch_size ->
  Creator.process_file PROMPT_TEMPLATE repr stem (Some all_lines) batch_size = inr files ->
  let total := Z.of_nat (length all_lines) in
  map (fun bf => (Creator.bf_batch bf, Creator.bf_field bf)) files
  = concat (map (fun i => map (fun f => (i + 1, f)) Creator.fields)
              (Creator.range ((total + batch_size - 1) / batch_size)))
  /\ forall bf, bf ∈ files ->
       let start := (Creator.bf_batch bf - 1) * batch_size in
       0 <= start < total
       /\ Z.of_nat (length (Creator.bf_requests bf)) = Z.min batch_size (total - start)
       /\ forall (j : nat) r,
            Creator.bf_requests bf !! j = Some r ->
            exists line text,
              all_lines !! (Z.to_nat start + j)%nat = Some line
              /\ Creator.field_text repr (Creator.bf_field bf) line = inr text
              /\ Creator.user_content r = PROMPT_TEMPLATE ++ text
              /\ Creator.custom_id r
                 = BatchProcessWithInput.custom_id (Creator.sanitize_custom_id stem)
                     (Creator.bf_field bf) (start + Z.of_nat j)
              /\ MergedResults.extract_line_number_from_custom_id
                   (JStr (Creator.custom_id r))
                 = Return (Some (start + Z.of_nat j)).
Proof.
  intros Hb Hp total.
  destruct (process_file_files _ _ _ _ Hp) as (cs & fss & Hcs & -> & Hall).
  destruct (chunks_spec _ _ _ Hb Hcs) as (_ & _ & Hchunk). fold total in Hchunk.
  split.
  - unfold Creator.chunks in Hcs.
    destruct (batch_size =? 0); [discriminate|]. injection Hcs as <-.
    fold total in Hall |- *.
    remember (Creator.range ((total + batch_size - 1) / batch_size)) as is_ eqn:Eis.
    clear Eis Hchunk Hp. revert fss Hall.
    induction is_ as [|i is_ IH]; intros fss Hall.
    + cbn [map] in Hall. apply Forall2_nil_inv_l in Hall as ->. reflexivity.
    + cbn [map] in Hall. apply Forall2_cons_inv_l in Hall as (fs & fss' & Hfs & Hall & ->).
      cbn [map concat]. rewrite map_app, (IH _ Hall). f_equal.
      now rewrite (chunk_file_keys _ _ _ _ Hfs).
  - intros bf Hbf start.
    apply list_elem_of_In, in_concat in Hbf as (fs & Hfs & Hbf).
    apply list_elem_of_In in Hfs, Hbf.
    apply list_elem_of_lookup in Hfs as [i Hi].
    destruct (Forall2_lookup_r _ _ _ _ _ Hall Hi) as (c & Hc & Hin).
    apply list_elem_of_lookup in Hbf as [m Hm].
    destruct (Forall2_lookup_r _ _ _ _ _ Hin Hm) as (f & _ & Hf & Hbatch & Hreq).
    destruct (Hchunk i c Hc) as (Hnum & Hstart & Hlines & Hlen & Hpos).
    assert (Es : start = c.1.2) by (subst start; rewrite Hbatch, Hnum, Hstart; lia).
    destruct (requests_spec _ _ _ _ _ Hreq) as [Hrl Hat].
    split; [lia|]. split; [rewrite Hrl; lia|].
    intros j r Hj. destruct (Hat j r Hj) as (line & text & Hline & Ht & Hu & Hid).
    exists line, text. rewrite Hf, Es.
    split.
    { rewrite Hlines in Hline. apply lookup_take_Some in Hline as [Hline _].
      now rewrite lookup_drop in Hline. }
    repeat (split; [assumption|]).
    rewrite Hid. unfold MergedResults.extract_line_number_from_custom_id,
      decode_with, try_except.
    rewrite first_pattern_custom_id by lia. reflexivity.
Qed.

Lemma field_text_cases f line :
  (forall e, stops_with line e -> Creator.field_text repr f line = inl e)
  /\ ((forall e, ~ stops_with line e) ->
      exists text, Creator.field_text repr f line = inr text)
  /\ (forall e, Creator.field_text repr f line = inl e -> stops_with line e).
Proof.
  unfold stops_with, Creator.field_text, loads.
  destruct (strip line) as [|c s] eqn:Es.
  { split; [intros e [? _]; congruence|]. split; [eauto | discriminate]. }
  destruct (json_loads (c :: s)) as [v|x] eqn:Ev.
  - assert (Hdict : is_dict v = true \/ is_dict v = false)
      by (destruct (is_dict v); auto).
    destruct Hdict as [Hd|Hd].
    + destruct v; try discriminate Hd.
      split; [intros e (_ & [(v & [= <-] & Hv & _)|(x & Hx & _)]); discriminate|].
      split; [eauto | discriminate].
    + split; [|split].
      * intros e (_ & [(v' & [= <-] & _ & ->)|(x & Hx & _)]); [|discriminate].
        destruct v; first [reflexivity | discriminate Hd].
      * intros Hn. exfalso. apply (Hn Creator.NotADict).
        split; [discriminate|]. left. now exists v.
      * intros e He. split; [discriminate|]. left. exists v.
        split; [reflexivity|]. split; [assumption|].
        destruct v; first [discriminate Hd | now injection He as <-].
  - destruct (is_JSONDecodeError x) eqn:Ex.
    + split; [|split; [eauto | discriminate]].
      intros e (_ & [(v & Hv & _)|(x' & [= <-] & Hx & _)]); [discriminate|].
      rewrite Ex in Hx. discriminate.
    + split; [|split].
      * intros e (_ & [(v & Hv & _)|(x' & [= <-] & _ & ->)]); [discriminate|].
        reflexivity.
      * intros Hn. exfalso. apply (Hn (Creator.Uncaught x)).
        split; [discriminate|]. right. now exists x.
      * intros e [= <-]. split; [discriminate|]. right. now exists x.
Qed.

Lemma field_text_passes f line :
  (forall e, ~ stops_with line e) ->
  exists text, Creator.field_text repr f line = inr text.
Proof. apply field_text_cases. Qed.

Lemma requests_lines f base : forall chunk idx rs,
  Creator.requests PROMPT_TEMPLATE repr chunk f base idx = inr rs ->
  Forall (fun line => exists text, Creator.field_text repr f line = inr text) chunk.
Proof.
  induction chunk as [|line chunk IH]; intros idx rs Hr; [constructor|].
  cbn [Creator.requests] in Hr.
  destruct (Creator.field_text repr f line) as [e|text] eqn:Et; [discriminate|].
  destruct (Creator.requests _ _ chunk f base (idx + 1)) as [e|rs'] eqn:Er; [discriminate|].
  constructor; [eauto | now apply (IH _ _ Er)].
Qed.



(** The batch files of a chunk none of whose lines stops the run. *)
Lemma chunk_returns stem (c : Z * Z * list str) :
  Forall (fun l => forall e, ~ stops_with l e) c.2 ->
  exists fs,
    Creator.collect
      (fun field_name =>
         Creator.create_batch_for_field PROMPT_TEMPLATE repr c.2 field_name
           c.1.1 (Creator.sanitize_custom_id stem) c.1.2)
      Creator.fields = inr fs.
Proof.
  intros Hok. apply collect_all.
  apply Forall_forall. intros f Hf. unfold Creator.create_batch_for_field.
  rewrite (fields_known f Hf).
  destruct (requests_all f (Creator.sanitize_custom_id stem) c.2 c.1.2) as [rs ->];
    [|eauto].
  eapply Forall_impl; [exact Hok|]. intros line Hline. now apply field_text_passes.
Qed.

Lemma process_file_returns stem all_lines batch_size cs :
  Creator.chunks all_lines batch_size = inr cs ->
  (forall c line, c ∈ cs -> line ∈ c.2 -> forall e, ~ stops_with line e) ->
  exists files,
    Creator.process_file PROMPT_TEMPLATE repr stem (Some all_lines) batch_size = inr files.
Proof.
  intros Hcs Hok. unfold Creator.process_file. rewrite Hcs.
  destruct (collect_all
              (fun c : Z * Z * list str =>
                 Creator.collect
                   (fun field_name =>
                      Creator.create_batch_for_field PROMPT_TEMPLATE repr c.2 field_name
                        c.1.1 (Creator.sanitize_custom_id stem) c.1.2)
                   Creator.fields) cs) as [fss Hfss].
  - apply Forall_forall. intros c Hc. apply chunk_returns.
    apply Forall_forall. intros line Hline. now apply (Hok c).
  - rewrite Hfss. eauto.
Qed.




(** X15.  A negative batch size is no error: [process_file] returns, having
    written at most six batch files, and none of them holds a request,
    whatever the lines of the source file are. *)
Theorem negative_batch_size_drops_lines (stem : str) (all_lines : list str)
    (batch_size : Z) :
  batch_size < 0 ->
  exists files,
    Creator.process_file PROMPT_TEMPLATE repr stem (Some all_lines) batch_size = inr files
    /\ Forall (fun bf => Creator.bf_requests bf = []) files
    /\ (length files <= 6)%nat.
Proof.
  intros Hb.
  destruct (Creator.chunks all_lines batch_size) as [e|cs] eqn:Hcs.
  { unfold Creator.chunks in Hcs. destruct (Z.eqb_spec batch_size 0); [lia | discriminate]. }
  destruct (negative_chunks_empty _ _ _ Hb Hcs) as [Hempty Hlen].
  rewrite Forall_forall in Hempty.
  destruct (process_file_returns stem all_lines batch_size cs Hcs)
    as [files Hp].
  { intros c line Hc Hline. rewrite (Hempty c Hc) in Hline. inversion Hline. }
  exists files. split; [assumption|].
  destruct (process_file_files _ _ _ _ Hp) as (cs' & fss & Hcs' & -> & Hall).
  assert (cs' = cs) as -> by congruence.
  assert (Hfss : Forall (fun fs => Forall (fun bf => Creator.bf_requests bf = []) fs
                                   /\ length fs = 3%nat) fss).
  { apply Forall_forall. intros fs Hfs.
    apply list_elem_of_lookup in Hfs as [i Hi].
    destruct (Forall2_lookup_r _ _ _ _ _ Hall Hi) as (c & Hc & Hin).
    apply list_elem_of_lookup_2 in Hc. split.
    - apply Forall_forall. intros bf Hbf.
      apply list_elem_of_lookup in Hbf as [m Hm].
      destruct (Forall2_lookup_r _ _ _ _ _ Hin Hm) as (f & _ & _ & _ & Hreq).
      rewrite (Hempty c Hc) in Hreq. now injection Hreq as <-.
    - now rewrite <- (Forall2_length _ _ _ Hin). }
  apply Forall2_length in Hall. rewrite Hall in Hlen. clear -Hfss Hlen.
  split.
  - induction Hfss as [|fs fss [Hfs _] _ IH]; [constructor|].
    cbn [concat]. apply Forall_app. split; [assumption|]. apply IH.
    cbn [length] in Hlen. lia.
  - assert (Hcount : length (concat fss) = (3 * length fss)%nat).
    { clear Hlen. induction Hfss as [|fs fss [_ Hfs] _ IH]; [reflexivity|].
      cbn [concat length]. rewrite length_app, Hfs, IH. lia. }
    lia.
Qed.

End Requests.

Lemma requests_carry_their_lines_witness :
  match @Creator.process_file Reference.runtime (lit "P: ") (fun _ => [])
          (lit "alpaca data")
          (Some [Reference.text "{'instruction': 'Add'}"; lit "not json {"]) 1 with
  | inr files =>
      map (fun bf => (Creator.bf_batch bf, Creator.bf_field bf)) files
      = [(1, lit "instruction"); (1, lit "input"); (1, lit "output");
         (2, lit "instruction"); (2, lit "input"); (2, lit "output")]
  | inl _ => False
  end.
Proof.
  destruct (@Creator.process_file Reference.runtime (lit "P: ") (fun _ => [])
              (lit "alpaca data")
              (Some [Reference.text "{'instruction': 'Add'}"; lit "not json {"]) 1)
    as [e|files] eqn:E.
  - vm_compute in E. discriminate.
  - apply (proj1 (@requests_carry_their_lines Reference.runtime _ _ _ _ 1 files
                    ltac:(lia) E)).
Defined.


Lemma negative_batch_size_drops_lines_witness :
  exists files,
    @Creator.process_file Reference.runtime (lit "P: ") (fun _ => [])
      (lit "alpaca data") (Some [lit "a"; lit "b"; lit "c"]) (-2) = inr files
    /\ Forall (fun bf => Creator.bf_requests bf = []) files.
Proof.
  destruct (@negative_batch_size_drops_lines Reference.runtime (lit "P: ") (fun _ => [])
              (lit "alpaca data") [lit "a"; lit "b"; lit "c"] (-2) ltac:(lia))
    as (files & Hp & Hempty & _).
  exists files. now split.
Defined.

(** ** The names of the results files *)

Lemma startswith_app p s : startswith (p ++ s) p = true.
Proof. unfold startswith. now rewrite strip_prefix_app. Qed.

Lemma endswith_app s suffix : BatchFiles.endswith (s ++ suffix) suffix = true.
Proof. unfold BatchFiles.endswith. rewrite rev_app_distr. apply startswith_app. Qed.

Lemma remove_from_skip old : forall a s,
  BatchFiles.remove_from (length a) old (a ++ s) = BatchFiles.remove_from 0 old s.
Proof.
  induction a as [|c a IH]; intros s; [reflexivity|].
  cbn [length app BatchFiles.remove_from]. apply IH.
Qed.

Lemma remove_from_occurrence c old s :
  BatchFiles.remove_from 0 (c :: old) ((c :: old) ++ s)
  = BatchFiles.remove_from 0 (c :: old) s.
Proof.
  cbn [app BatchFiles.remove_from].
  change (c :: old ++ s) with ((c :: old) ++ s). rewrite startswith_app.
  replace (length (c :: old) - 1)%nat with (length old) by (cbn [length]; lia).
  apply remove_from_skip.
Qed.

Lemma remove_from_other c old : forall a s,
  Forall (fun x => x <> c) a ->
  BatchFiles.remove_from 0 (c :: old) (a ++ s)
  = a ++ BatchFiles.remove_from 0 (c :: old) s.
Proof.
  induction a as [|x a IH]; intros s Ha; [reflexivity|].
  apply Forall_cons in Ha as [Hx Ha]. cbn [app BatchFiles.remove_from].
  unfold startswith. cbn [strip_prefix].
  destruct (char_eqb c x) eqn:E; [apply char_eqb_true in E; congruence|].
  f_equal. now apply IH.
Qed.

Lemma digit_is_plain c :
  isdigit c = true ->
  BatchFiles.int_space c = false
  /\ c <> ascii_of_N 114 /\ c <> ascii_of_N 46
  /\ (code c =? 45)%N = false /\ (code c =? 43)%N = false.
Proof.
  destruct c as [[] [] [] [] [] [] [] []]; intros Hd; vm_compute in Hd;
    try discriminate; repeat split; discriminate.
Qed.

Lemma drop_space_plain s :
  Forall (fun c => BatchFiles.int_space c = false) s -> BatchFiles.drop_space s = s.
Proof.
  destruct 1 as [|c s Hc _]; [reflexivity|]. cbn [BatchFiles.drop_space]. now rewrite Hc.
Qed.

Lemma grouped_digits_plain ds :
  Forall (fun c => isdigit c = true) ds -> BatchFiles.grouped_digits ds = Some ds.
Proof.
  induction 1 as [|c ds Hc _ IH]; [reflexivity|].
  cbn [BatchFiles.grouped_digits]. now rewrite Hc, IH.
Qed.

Lemma unsigned_digits ds :
  Forall (fun c => isdigit c = true) ds -> ds <> [] ->
  BatchFiles.unsigned ds = Some (int_of_digits ds).
Proof.
  intros Hd Hne. destruct ds as [|c ds]; [contradiction|].
  unfold BatchFiles.unsigned. rewrite (Forall_inv Hd).
  now rewrite grouped_digits_plain.
Qed.

(** The numeral of an integer: an optional minus sign and the digits of
    its absolute value. *)
Lemma str_of_int_form n :
  exists sign ds,
    str_of_int n = sign ++ ds
    /\ (sign = [] /\ 0 <= n \/ sign = lit "-" /\ n < 0)
    /\ Forall (fun c => isdigit c = true) ds /\ ds <> []
    /\ int_of_digits ds = Z.abs n.
Proof.
  destruct (Z.ltb_spec n 0) as [Hneg|Hpos].
  - destruct (str_of_int_digits (- n)) as (Hv & Hd & Hne); [lia|].
    exists (lit "-"), (str_of_int (- n)). split.
    + unfold str_of_int.
      destruct (Z.ltb_spec n 0) as [_|?]; [|lia].
      destruct (Z.ltb_spec (- n) 0) as [?|_]; [lia | reflexivity].
    + split; [right; now split|]. repeat (split; [assumption|]). lia.
  - destruct (str_of_int_digits n Hpos) as (Hv & Hd & Hne).
    exists [], (str_of_int n). split; [reflexivity|].
    split; [left; now split|]. repeat (split; [assumption|]). lia.
Qed.

Lemma py_int_str_of_int n : BatchFiles.py_int (str_of_int n) = Some n.
Proof.
  destruct (str_of_int_form n) as (sign & ds & -> & Hsign & Hd & Hne & Hv).
  assert (Hplain : Forall (fun c => BatchFiles.int_space c = false) (sign ++ ds)).
  { apply Forall_app. split.
    - destruct Hsign as [[-> _]|[-> _]]; repeat constructor.
    - eapply Forall_impl; [exact Hd|]. intros c Hc. now apply digit_is_plain. }
  unfold BatchFiles.py_int.
  rewrite (drop_space_plain _ Hplain).
  rewrite drop_space_plain by now apply Forall_rev.
  rewrite rev_involutive.
  destruct Hsign as [[-> Hn]|[-> Hn]].
  - cbn [app]. destruct ds as [|c ds']; [contradiction|].
    destruct (digit_is_plain c (Forall_inv Hd)) as (_ & _ & _ & -> & ->).
    rewrite unsigned_digits by assumption. f_equal. lia.
  - cbn [lit list_ascii_of_string app]. change (code "-" =? 45)%N with true. cbn iota.
    rewrite unsigned_digits by assumption. cbn [option_map]. f_equal. lia.
Qed.

Lemma numeral_chars n :
  Forall (fun c => c <> ascii_of_N 114 /\ c <> ascii_of_N 46) (str_of_int n).
Proof.
  destruct (str_of_int_form n) as (sign & ds & -> & Hsign & Hd & _).
  apply Forall_app. split.
  - destruct Hsign as [[-> _]|[-> _]]; repeat constructor; discriminate.
  - eapply Forall_impl; [exact Hd|]. intros c Hc.
    destruct (digit_is_plain c Hc) as (_ & ? & ? & _). now split.
Qed.

Lemma batch_number_of_name n :
  BatchFiles.py_int (BatchFiles.remove_all (lit ".jsonl")
                       (BatchFiles.remove_all (lit "results_batch_")
                          (BatchFiles.results_file_name n)))
  = Some n.
Proof.
  unfold BatchFiles.remove_all, BatchFiles.results_file_name.
  change (lit "results_batch_") with (ascii_of_N 114 :: lit "esults_batch_").
  rewrite remove_from_occurrence.
  rewrite remove_from_other
    by (eapply Forall_impl; [apply numeral_chars|]; now intros c [? _]).
  replace (BatchFiles.remove_from 0 (ascii_of_N 114 :: lit "esults_batch_") (lit ".jsonl"))
    with (lit ".jsonl") by reflexivity.
  change (lit ".jsonl") with (ascii_of_N 46 :: lit "jsonl") at 1 2.
  rewrite remove_from_other
    by (eapply Forall_impl; [apply numeral_chars|]; now intros c [_ ?]).
  rewrite <- (app_nil_r (ascii_of_N 46 :: lit "jsonl")) at 2.
  rewrite remove_from_occurrence. cbn [BatchFiles.remove_from].
  rewrite app_nil_r. apply py_int_str_of_int.
Qed.

(** X16.  The scan of the instruction directory in [merged_results.py]
    reads back the batch number of every file name that the script itself
    builds: for the names [results_batch_{n}.jsonl] of a list of batch
    numbers it finds exactly these numbers, in the order of the names. *)
Theorem batch_numbers_round_trip (batches : list Z) :
  BatchFiles.scan_batches (map BatchFiles.results_file_name batches) = batches.
Proof.
  induction batches as [|n batches IH]; [reflexivity|].
  cbn [map BatchFiles.scan_batches].
  assert (Hs : startswith (BatchFiles.results_file_name n) (lit "results_batch_") = true)
    by apply startswith_app.
  assert (He : BatchFiles.endswith (BatchFiles.results_file_name n) (lit ".jsonl") = true).
  { unfold BatchFiles.results_file_name. rewrite app_assoc. apply endswith_app. }
  rewrite Hs, He, batch_number_of_name, IH. reflexivity.
Qed.

(** ** The listing of a directory *)

Lemma code_inj a b : code a = code b -> a = b.
Proof.
  unfold code. intros Heq.
  rewrite <- (ascii_N_embedding a), <- (ascii_N_embedding b). now rewrite Heq.
Qed.

Lemma str_le_total : Total BatchFiles.str_le.
Proof.
  unfold Total, BatchFiles.str_le.
  induction x as [|a x IH]; intros [|b y]; cbn [BatchFiles.str_leb]; auto.
  destruct (N.ltb_spec (code a) (code b)) as [Hab|Hab]; [now left|].
  destruct (N.ltb_spec (code b) (code a)) as [Hba|Hba]; [now right|].
  assert (Heq : code a = code b) by lia.
  rewrite Heq, N.eqb_refl. apply IH.
Qed.

Lemma str_le_trans : Transitive BatchFiles.str_le.
Proof.
  unfold Transitive, BatchFiles.str_le.
  induction x as [|a x IH]; intros [|b y] [|c z]; cbn [BatchFiles.str_leb];
    try reflexivity; try discriminate.
  destruct (N.ltb_spec (code a) (code b)) as [Hab|Hab].
  - intros _. destruct (N.ltb_spec (code b) (code c)) as [Hbc|Hbc].
    + intros _. destruct (N.ltb_spec (code a) (code c)); [reflexivity | lia].
    + destruct (N.eqb_spec (code b) (code c)) as [Heq|Hne]; [|discriminate].
      intros _. destruct (N.ltb_spec (code a) (code c)); [reflexivity | lia].
  - destruct (N.eqb_spec (code a) (code b)) as [Heq|Hne]; [|discriminate].
    intros Hxy. rewrite Heq.
    destruct (N.ltb_spec (code b) (code c)) as [Hbc|Hbc]; [reflexivity|].
    destruct (N.eqb_spec (code b) (code c)) as [Heq'|Hne]; [|discriminate].
    now apply IH.
Qed.

Lemma str_le_antisym a b : BatchFiles.str_le a b -> BatchFiles.str_le b a -> a = b.
Proof.
  unfold BatchFiles.str_le. revert b.
  induction a as [|x a IH]; intros [|y b]; cbn [BatchFiles.str_leb];
    try reflexivity; try discriminate.
  destruct (N.ltb_spec (code x) (code y)) as [Hxy|Hxy].
  - intros _. destruct (N.ltb_spec (code y) (code x)); [lia|].
    destruct (N.eqb_spec (code y) (code x)); [lia | discriminate].
  - destruct (N.eqb_spec (code x) (code y)) as [Heq|Hne]; [|discriminate].
    intros Hab. rewrite Heq, N.ltb_irrefl, N.eqb_refl. intros Hba.
    f_equal; [now apply code_inj | now apply IH].
Qed.

(** X17.  [get_available_batch_files] returns the names of the directory
    that end in [.jsonl], each as often as it is listed, in ascending order
    of their code points, which is the only order of these names that is
    ascending; every name returned ends in [.jsonl] and is a name of the
    directory, and a directory that does not exist has no files. *)
Theorem listing_is_sorted (directory : option (list str)) :
  let files := BatchFiles.get_available_batch_files directory in
  StronglySorted BatchFiles.str_le files
  /\ (forall f, f ∈ files ->
        BatchFiles.endswith f (lit ".jsonl") = true
        /\ exists names, directory = Some names /\ f ∈ names)
  /\ (forall names, directory = Some names ->
        files ≡ₚ filter (fun f => BatchFiles.endswith f (lit ".jsonl") = true) names)
  /\ (forall other, StronglySorted BatchFiles.str_le other -> other ≡ₚ files ->
        other = files).
Proof.
  intros files. subst files. unfold BatchFiles.get_available_batch_files.
  destruct directory as [names|].
  - pose proof (merge_sort_Permutation BatchFiles.str_le
                  (filter (fun f => BatchFiles.endswith f (lit ".jsonl") = true) names))
      as Hperm.
    pose proof (@StronglySorted_merge_sort _ BatchFiles.str_le _ str_le_trans str_le_total
                  (filter (fun f => BatchFiles.endswith f (lit ".jsonl") = true) names))
      as Hsorted.
    split; [assumption|]. split; [|split].
    + intros f Hf. rewrite Hperm in Hf. apply list_elem_of_filter in Hf as [He Hf].
      split; [assumption|]. now exists names.
    + intros names' [= <-]. assumption.
    + intros other Hother Hp.
      eapply (@StronglySorted_unique _ BatchFiles.str_le); try eassumption.
      * intros a b. apply str_le_antisym.
  - split; [constructor|]. split; [intros f Hf; inversion Hf|].
    split; [discriminate|]. intros other _ Hp. now apply Permutation_nil_r in Hp.
Qed.

Lemma listing_is_sorted_witness :
  StronglySorted BatchFiles.str_le
    (BatchFiles.get_available_batch_files
       (Some [lit "results_batch_2.jsonl"; lit "notes.txt"; lit "results_batch_10.jsonl"])).
Proof.
  apply (proj1 (listing_is_sorted
                  (Some [lit "results_batch_2.jsonl"; lit "notes.txt";
                         lit "results_batch_10.jsonl"]))).
Defined.

(** ** From the requests to the merged file *)








Section Pipeline.
Context `{Runtime}.





End Pipeline.

